(** * quantify: measurement control and dataset handling

    A shallow embedding of [quantify/data/data_handling.py] and
    [quantify/measurement/control.py], followed by the properties of the
    acquisition loop, the dataset builder and the identifier generator. *)

From Stdlib Require Import ZArith QArith Lia Ascii String List.
From stdpp Require Import base list strings pretty gmap.

Local Open Scope stdpp_scope.
Local Open Scope Z_scope.

(** ** Python values and exceptions *)

(** A numpy float cell: either a number or the not-a-number sentinel. *)
Inductive num : Type :=
  | NaN
  | Num (z : Z).

Definition num_eqb (a b : num) : bool :=
  match a, b with
  | NaN, NaN => true
  | Num x, Num y => Z.eqb x y
  | _, _ => false
  end.

(** The exceptions the embedded code can raise: Python's built-in ones, and
    the resizer's [ShapeMismatchError]. *)
Inductive pyerr : Type :=
  | IndexError
  | TypeError
  | KeyError
  | ValueError
  | AttributeError
  | AssertionError
  | ZeroDivisionError
  | ShapeMismatchError.

(** What a [get()] hands back: a scalar, or a 2-D block (a list of rows). *)
Inductive pyval : Type :=
  | PScalar (v : num)
  | PBlock (rows : list (list num)).

(** Values held in attribute dictionaries. *)
Inductive attr : Type :=
  | AStr (s : string)
  | ABool (b : bool)
  | AInt (n : nat).

(** ** Wall-clock timestamps ([datetime.datetime])

    A timestamp holds its wall-clock fields and, when it is timezone-aware,
    the offset of its time zone from UTC in microseconds; a naive timestamp
    has no offset. *)

Record datetime : Type := mkDatetime {
  year : Z;
  month : Z;
  day : Z;
  hour : Z;
  minute : Z;
  second : Z;
  microsecond : Z;
  utcoffset : option Z
}.

Definition is_leap (y : Z) : bool :=
  ((y mod 4 =? 0) && negb (y mod 100 =? 0)) || (y mod 400 =? 0).

Definition days_in_month (y m : Z) : Z :=
  match m with
  | 2 => if is_leap y then 29 else 28
  | 4 | 6 | 9 | 11 => 30
  | _ => 31
  end.

(** The ranges the [datetime] constructor enforces; an offset is strictly
    between minus and plus one day. *)
Definition valid_datetime (t : datetime) : bool :=
  (1 <=? year t) && (year t <=? 9999) &&
  (1 <=? month t) && (month t <=? 12) &&
  (1 <=? day t) && (day t <=? days_in_month (year t) (month t)) &&
  (0 <=? hour t) && (hour t <? 24) &&
  (0 <=? minute t) && (minute t <? 60) &&
  (0 <=? second t) && (second t <? 60) &&
  (0 <=? microsecond t) && (microsecond t <? 1000000) &&
  match utcoffset t with
  | None => true
  | Some o => (-86400000000 <? o) && (o <? 86400000000)
  end.

(** Comparison of the wall-clock fields, left to right. *)
Fixpoint lex_ltb (a b : list Z) : bool :=
  match a, b with
  | x :: a', y :: b' => (x <? y) || ((x =? y) && lex_ltb a' b')
  | [], _ :: _ => true
  | _, _ => false
  end.

Definition datetime_fields (t : datetime) : list Z :=
  [year t; month t; day t; hour t; minute t; second t; microsecond t].

(** The instant of a timestamp with offset [o]: the microseconds from the
    start of year 1 to its wall-clock fields, less the offset. *)
Definition days_before_year (y : Z) : Z :=
  (y - 1) * 365 + (y - 1) / 4 - (y - 1) / 100 + (y - 1) / 400.

Definition days_before_month (y m : Z) : Z :=
  fold_right Z.add 0
    (map (days_in_month y) (List.filter (fun k => k <? m) [1; 2; 3; 4; 5; 6; 7; 8; 9; 10; 11])).

Definition toordinal (t : datetime) : Z :=
  days_before_year (year t) + days_before_month (year t) (month t) + day t.

Definition instant (t : datetime) (o : Z) : Z :=
  (((toordinal t * 24 + hour t) * 60 + minute t) * 60 + second t) * 1000000
  + microsecond t - o.

(** [a < b] on timestamps: two naive timestamps, and two aware ones of one
    offset, are compared by their fields; aware timestamps of different
    offsets by their instants; a naive and an aware one cannot be
    compared. *)
Definition datetime_lt (a b : datetime) : pyerr + bool :=
  match utcoffset a, utcoffset b with
  | None, None => inr (lex_ltb (datetime_fields a) (datetime_fields b))
  | Some oa, Some ob =>
      if oa =? ob then inr (lex_ltb (datetime_fields a) (datetime_fields b))
      else inr (instant a oa <? instant b ob)
  | _, _ => inl TypeError
  end.

(** The timestamp at millisecond granularity. *)
Definition ms_fields (t : datetime) : list Z :=
  [year t; month t; day t; hour t; minute t; second t; microsecond t / 1000].

(** ** String helpers: the pieces of [str] the code relies on *)

Definition digit_char (d : Z) : ascii := ascii_of_N (Z.to_N (48 + d)).

Definition ord (c : ascii) : Z := Z.of_N (N_of_ascii c).

Definition is_digit (c : ascii) : bool := (48 <=? ord c) && (ord c <=? 57).

(** A decimal number zero-padded to exactly [w] digits (the low [w] digits
    of [n]), most significant digit first. *)
Fixpoint zpad (w : nat) (n : Z) : string :=
  match w with
  | O => ""
  | S w' => String (digit_char ((n / 10 ^ Z.of_nat w') mod 10)) (zpad w' n)
  end.

Fixpoint str_repeat (c : ascii) (k : nat) : string :=
  match k with
  | O => ""
  | S k' => String c (str_repeat c k')
  end.

(** [s.zfill(w)] for a string without sign. *)
Definition zfill (w : nat) (s : string) : string :=
  str_repeat "0"%char (w - String.length s)%nat +:+ s.

(** ["%0wd" % n] for a non-negative integer: at least [w] digits. *)
Definition fmt_0d (w : nat) (n : Z) : string := zfill w (pretty n).

(** [int(s)] for a string of decimal digits. *)
Fixpoint int_of_digits (acc : Z) (s : string) : option Z :=
  match s with
  | EmptyString => Some acc
  | String c s' =>
      if is_digit c then int_of_digits (10 * acc + (ord c - 48)) s'
      else None
  end.

Definition py_int (s : string) : option Z :=
  match s with
  | EmptyString => None
  | _ => int_of_digits 0 s
  end.

(** [s.split(sep)] for a one-character separator. *)
Fixpoint split_on (sep : ascii) (s : string) : list string :=
  match s with
  | EmptyString => [EmptyString]
  | String c s' =>
      if Ascii.eqb c sep then EmptyString :: split_on sep s'
      else match split_on sep s' with
           | [] => [String c EmptyString]
           | h :: t => String c h :: t
           end
  end.

(** [s[:n]] and [s[n:]]. *)
Fixpoint str_take (n : nat) (s : string) : string :=
  match n, s with
  | O, _ => EmptyString
  | S n', String c s' => String c (str_take n' s')
  | S _, EmptyString => EmptyString
  end.

Fixpoint str_drop (n : nat) (s : string) : string :=
  match n, s with
  | O, _ => s
  | S n', String _ s' => str_drop n' s'
  | S _, EmptyString => EmptyString
  end.

Fixpoint str_ends_with (c : ascii) (s : string) : bool :=
  match s with
  | EmptyString => false
  | String a EmptyString => Ascii.eqb a c
  | String _ s' => str_ends_with c s'
  end.

Definition str_starts_with (c : ascii) (s : string) : bool :=
  match s with
  | String a _ => Ascii.eqb a c
  | EmptyString => false
  end.

(** [os.path.join(a, b)] on a POSIX system. *)
Definition path_join2 (a b : string) : string :=
  if str_starts_with "/"%char b then b
  else if (String.eqb a "" || str_ends_with "/"%char a)%bool then a +:+ b
  else a +:+ "/" +:+ b.

Definition path_join (a : string) (ps : list string) : string :=
  fold_left path_join2 ps a.

(** The number of decimal digits of a year (1 to 9999). *)
Definition decimal_width (n : Z) : nat :=
  if n <? 10 then 1 else if n <? 100 then 2 else if n <? 1000 then 3 else 4.

(** [datetime.strftime], as the C library of Linux renders it: the month,
    day, hour, minute and second are zero-padded to two digits and the
    microsecond to six, but the year is printed as a plain decimal number,
    without padding (a year below 1000 takes fewer than four digits). The
    fields are the wall-clock ones: the offset of an aware timestamp is
    not printed by these directives. *)
Definition strftime_directive (c : ascii) (t : datetime) : string :=
  if Ascii.eqb c "Y" then zpad (decimal_width (year t)) (year t)
  else if Ascii.eqb c "m" then zpad 2 (month t)
  else if Ascii.eqb c "d" then zpad 2 (day t)
  else if Ascii.eqb c "H" then zpad 2 (hour t)
  else if Ascii.eqb c "M" then zpad 2 (minute t)
  else if Ascii.eqb c "S" then zpad 2 (second t)
  else if Ascii.eqb c "f" then zpad 6 (microsecond t)
  else String "%" (String c "").

Fixpoint strftime (fmt : string) (t : datetime) : string :=
  match fmt with
  | String "%" (String c rest) => strftime_directive c t +:+ strftime rest t
  | String c rest => String c (strftime rest t)
  | EmptyString => ""
  end.

(** ** Arrays and datasets ([numpy] and [xarray]) *)

(** A 2-D [numpy.ndarray]: its rows, and the size of its second axis (which
    an array keeps even when it has no row). *)
Record ndarray2 : Type := mkArray2 {
  arr_ncols : nat;
  arr_rows : list (list num)
}.

Definition arr_wf (a : ndarray2) : Prop :=
  Forall (fun r => length r = arr_ncols a) (arr_rows a).

(** The value of [MeasurementControl._setpoints]: the empty Python list it
    is initialised with, or the array stored by one of the setters. *)
Inductive setpoints_t : Type :=
  | SpList
  | SpArray (a : ndarray2).

(** [len(setpoints)]. *)
Definition sp_len (sp : setpoints_t) : nat :=
  match sp with
  | SpList => O
  | SpArray a => length (arr_rows a)
  end.

(** Iterating over the set-points yields the rows. *)
Definition sp_rows (sp : setpoints_t) : list (list num) :=
  match sp with
  | SpList => []
  | SpArray a => arr_rows a
  end.

(** [xn[:, i]] on a 2-D array. *)
Definition arr_col (a : ndarray2) (i : nat) : pyerr + list num :=
  if (i <? arr_ncols a)%nat
  then inr (map (fun r => nth i r NaN) (arr_rows a))
  else inl IndexError.

(** [setpoints[:, i]]: a list cannot be indexed with a tuple. *)
Definition sp_col (sp : setpoints_t) (i : nat) : pyerr + list num :=
  match sp with
  | SpList => inl TypeError
  | SpArray a => arr_col a i
  end.

(** [xarray.DataArray(data=..., name=..., attrs=...)]. *)
Record DataArray : Type := mkDataArray {
  da_name : string;
  da_values : list num;
  da_attrs : gmap string string
}.

(** [xarray.Dataset]: the variables in insertion order, and the attribute
    dictionary. *)
Record Dataset : Type := mkDataset {
  data_vars : list DataArray;
  ds_attrs : gmap string attr
}.

Fixpoint find_var (name : string) (vars : list DataArray) : option DataArray :=
  match vars with
  | [] => None
  | v :: vars' => if String.eqb (da_name v) name then Some v else find_var name vars'
  end.

(** [dataset[name]]. *)
Definition ds_getitem (ds : Dataset) (name : string) : pyerr + DataArray :=
  match find_var name (data_vars ds) with
  | Some v => inr v
  | None => inl KeyError
  end.

Fixpoint replace_var (name : string) (vals : list num) (vars : list DataArray)
  : list DataArray :=
  match vars with
  | [] => []
  | v :: vars' =>
      if String.eqb (da_name v) name
      then mkDataArray (da_name v) vals (da_attrs v) :: vars'
      else v :: replace_var name vals vars'
  end.

(** [dataset[name].values[idx] = val]: the named array is updated in place;
    an unknown name or an index past the end raises. *)
Definition ds_set_value (ds : Dataset) (name : string) (idx : nat) (val : num)
  : pyerr + Dataset :=
  match find_var name (data_vars ds) with
  | None => inl KeyError
  | Some v =>
      if (idx <? length (da_values v))%nat
      then inr (mkDataset (replace_var name (<[idx := val]> (da_values v)) (data_vars ds))
                          (ds_attrs ds))
      else inl IndexError
  end.

Definition ds_set_attr (ds : Dataset) (k : string) (v : attr) : Dataset :=
  mkDataset (data_vars ds) (<[k := v]> (ds_attrs ds)).

(** [dataset.attrs.update(d)]: the entries of [d] win. *)
Definition ds_update_attrs (ds : Dataset) (d : gmap string attr) : Dataset :=
  mkDataset (data_vars ds) (d ∪ ds_attrs ds).

(** [xarray.merge] of unindexed 1-D arrays: variables are keyed by name, all
    of them share the one dimension and so must agree on its size; a name
    met twice must carry the same data. *)
Fixpoint xr_merge_into (acc : list DataArray) (darrs : list DataArray)
  : pyerr + list DataArray :=
  match darrs with
  | [] => inr acc
  | d :: rest =>
      match acc with
      | a :: _ =>
          if negb (length (da_values a) =? length (da_values d))%nat
          then inl ValueError
          else
            match find_var (da_name d) acc with
            | Some old =>
                if forallb (fun p => num_eqb (fst p) (snd p))
                     (combine (da_values old) (da_values d))
                then xr_merge_into acc rest
                else inl ValueError
            | None => xr_merge_into (acc ++ [d]) rest
            end
      | [] => xr_merge_into [d] rest
      end
  end.

Definition xr_merge (darrs : list DataArray) : pyerr + Dataset :=
  match xr_merge_into [] darrs with
  | inr vars => inr (mkDataset vars ∅)
  | inl e => inl e
  end.

(** ['x{}'.format(i)]. *)
Definition fmt_idx (pre : string) (i : nat) : string := pre +:+ pretty i.

(** ** The process state and the collaborators

    [dev] is the state of the instruments behind the settables and the
    gettables; the code only reaches it through their methods. *)

Inductive role : Type := RSettable | RGettable.

(** A method call made on a collaborator. *)
Inductive call : Type :=
  | CSet (name : string) (v : num)
  | CGet (name : string)
  | CPrepare (r : role) (name : string)
  | CFinish (r : role) (name : string)
  | CPlotmonTuid (tuid : string)
  | CPlotmonUpdate
  | CProgress (percdone : Q)
  | CPrint (percdone : Q) (newline : bool).

(** An operation on the file system. *)
Inductive fsop : Type :=
  | MakeDirs (path : string)
  | WriteDataset (path : string) (ds : Dataset)
  | WriteSnapshot (path : string).

Section Model.

Context {dev : Type}.

(** The capabilities of a settable; [prepare] and [finish] may be missing,
    and every method may raise. *)
Record Settable : Type := mkSettable {
  s_name : string;
  s_label : string;
  s_unit : string;
  s_set : num -> dev -> pyerr + dev;
  s_prepare : option (dev -> pyerr + dev);
  s_finish : option (dev -> pyerr + dev)
}.

(** The capabilities of a gettable. [g_internal] is what
    [is_internally_controlled] reports for it. *)
Record Gettable : Type := mkGettable {
  g_name : string;
  g_label : string;
  g_unit : string;
  g_internal : bool;
  g_get : dev -> pyerr + (pyval * dev);
  g_prepare : option (setpoints_t -> dev -> pyerr + dev);
  g_finish : option (dev -> pyerr + dev)
}.

Record world : Type := mkWorld {
  (* module globals of the data handling module *)
  _datadir : option string;
  _default_datadir : string;
  (* attributes of the MeasurementControl instance *)
  _settable_pars : list Settable;
  _setpoints : setpoints_t;
  _gettable_pars : list Gettable;
  _nr_acquired_values : nat;
  _begintime : Q;
  _last_upd : Q;
  _plot_info : gmap string attr;
  (* its parameters *)
  verbose : bool;
  on_progress_callback : bool;
  soft_avg : nat;
  instr_plotmon : option string;
  update_interval : Q;
  (* the instruments, and what has been done to the outside *)
  devices : dev;
  calls : list call;
  disk : list fsop;
  (* the sources of time and randomness, and how far each has been read *)
  time_time : nat -> Q;
  n_time : nat;
  datetime_now : nat -> datetime;
  n_now : nat;
  uuid4 : nat -> string;
  n_uuid : nat
}.

Definition set_datadir_field (v : option string) (w : world) : world :=
  {| _datadir := v;
     _default_datadir := _default_datadir w;
     _settable_pars := _settable_pars w;
     _setpoints := _setpoints w;
     _gettable_pars := _gettable_pars w;
     _nr_acquired_values := _nr_acquired_values w;
     _begintime := _begintime w;
     _last_upd := _last_upd w;
     _plot_info := _plot_info w;
     verbose := verbose w;
     on_progress_callback := on_progress_callback w;
     soft_avg := soft_avg w;
     instr_plotmon := instr_plotmon w;
     update_interval := update_interval w;
     devices := devices w;
     calls := calls w;
     disk := disk w;
     time_time := time_time w;
     n_time := n_time w;
     datetime_now := datetime_now w;
     n_now := n_now w;
     uuid4 := uuid4 w;
     n_uuid := n_uuid w |}.

Definition set_settable_pars (v : list Settable) (w : world) : world :=
  {| _datadir := _datadir w;
     _default_datadir := _default_datadir w;
     _settable_pars := v;
     _setpoints := _setpoints w;
     _gettable_pars := _gettable_pars w;
     _nr_acquired_values := _nr_acquired_values w;
     _begintime := _begintime w;
     _last_upd := _last_upd w;
     _plot_info := _plot_info w;
     verbose := verbose w;
     on_progress_callback := on_progress_callback w;
     soft_avg := soft_avg w;
     instr_plotmon := instr_plotmon w;
     update_interval := update_interval w;
     devices := devices w;
     calls := calls w;
     disk := disk w;
     time_time := time_time w;
     n_time := n_time w;
     datetime_now := datetime_now w;
     n_now := n_now w;
     uuid4 := uuid4 w;
     n_uuid := n_uuid w |}.

Definition set_setpoints_field (v : setpoints_t) (w : world) : world :=
  {| _datadir := _datadir w;
     _default_datadir := _default_datadir w;
     _settable_pars := _settable_pars w;
     _setpoints := v;
     _gettable_pars := _gettable_pars w;
     _nr_acquired_values := _nr_acquired_values w;
     _begintime := _begintime w;
     _last_upd := _last_upd w;
     _plot_info := _plot_info w;
     verbose := verbose w;
     on_progress_callback := on_progress_callback w;
     soft_avg := soft_avg w;
     instr_plotmon := instr_plotmon w;
     update_interval := update_interval w;
     devices := devices w;
     calls := calls w;
     disk := disk w;
     time_time := time_time w;
     n_time := n_time w;
     datetime_now := datetime_now w;
     n_now := n_now w;
     uuid4 := uuid4 w;
     n_uuid := n_uuid w |}.

Definition set_gettable_pars (v : list Gettable) (w : world) : world :=
  {| _datadir := _datadir w;
     _default_datadir := _default_datadir w;
     _settable_pars := _settable_pars w;
     _setpoints := _setpoints w;
     _gettable_pars := v;
     _nr_acquired_values := _nr_acquired_values w;
     _begintime := _begintime w;
     _last_upd := _last_upd w;
     _plot_info := _plot_info w;
     verbose := verbose w;
     on_progress_callback := on_progress_callback w;
     soft_avg := soft_avg w;
     instr_plotmon := instr_plotmon w;
     update_interval := update_interval w;
     devices := devices w;
     calls := calls w;
     disk := disk w;
     time_time := time_time w;
     n_time := n_time w;
     datetime_now := datetime_now w;
     n_now := n_now w;
     uuid4 := uuid4 w;
     n_uuid := n_uuid w |}.

Definition set_nr_acquired_values (v : nat) (w : world) : world :=
  {| _datadir := _datadir w;
     _default_datadir := _default_datadir w;
     _settable_pars := _settable_pars w;
     _setpoints := _setpoints w;
     _gettable_pars := _gettable_pars w;
     _nr_acquired_values := v;
     _begintime := _begintime w;
     _last_upd := _last_upd w;
     _plot_info := _plot_info w;
     verbose := verbose w;
     on_progress_callback := on_progress_callback w;
     soft_avg := soft_avg w;
     instr_plotmon := instr_plotmon w;
     update_interval := update_interval w;
     devices := devices w;
     calls := calls w;
     disk := disk w;
     time_time := time_time w;
     n_time := n_time w;
     datetime_now := datetime_now w;
     n_now := n_now w;
     uuid4 := uuid4 w;
     n_uuid := n_uuid w |}.

Definition set_begintime (v : Q) (w : world) : world :=
  {| _datadir := _datadir w;
     _default_datadir := _default_datadir w;
     _settable_pars := _settable_pars w;
     _setpoints := _setpoints w;
     _gettable_pars := _gettable_pars w;
     _nr_acquired_values := _nr_acquired_values w;
     _begintime := v;
     _last_upd := _last_upd w;
     _plot_info := _plot_info w;
     verbose := verbose w;
     on_progress_callback := on_progress_callback w;
     soft_avg := soft_avg w;
     instr_plotmon := instr_plotmon w;
     update_interval := update_interval w;
     devices := devices w;
     calls := calls w;
     disk := disk w;
     time_time := time_time w;
     n_time := n_time w;
     datetime_now := datetime_now w;
     n_now := n_now w;
     uuid4 := uuid4 w;
     n_uuid := n_uuid w |}.

Definition set_last_upd (v : Q) (w : world) : world :=
  {| _datadir := _datadir w;
     _default_datadir := _default_datadir w;
     _settable_pars := _settable_pars w;
     _setpoints := _setpoints w;
     _gettable_pars := _gettable_pars w;
     _nr_acquired_values := _nr_acquired_values w;
     _begintime := _begintime w;
     _last_upd := v;
     _plot_info := _plot_info w;
     verbose := verbose w;
     on_progress_callback := on_progress_callback w;
     soft_avg := soft_avg w;
     instr_plotmon := instr_plotmon w;
     update_interval := update_interval w;
     devices := devices w;
     calls := calls w;
     disk := disk w;
     time_time := time_time w;
     n_time := n_time w;
     datetime_now := datetime_now w;
     n_now := n_now w;
     uuid4 := uuid4 w;
     n_uuid := n_uuid w |}.

Definition set_plot_info (v : gmap string attr) (w : world) : world :=
  {| _datadir := _datadir w;
     _default_datadir := _default_datadir w;
     _settable_pars := _settable_pars w;
     _setpoints := _setpoints w;
     _gettable_pars := _gettable_pars w;
     _nr_acquired_values := _nr_acquired_values w;
     _begintime := _begintime w;
     _last_upd := _last_upd w;
     _plot_info := v;
     verbose := verbose w;
     on_progress_callback := on_progress_callback w;
     soft_avg := soft_avg w;
     instr_plotmon := instr_plotmon w;
     update_interval := update_interval w;
     devices := devices w;
     calls := calls w;
     disk := disk w;
     time_time := time_time w;
     n_time := n_time w;
     datetime_now := datetime_now w;
     n_now := n_now w;
     uuid4 := uuid4 w;
     n_uuid := n_uuid w |}.

Definition set_devices (v : dev) (w : world) : world :=
  {| _datadir := _datadir w;
     _default_datadir := _default_datadir w;
     _settable_pars := _settable_pars w;
     _setpoints := _setpoints w;
     _gettable_pars := _gettable_pars w;
     _nr_acquired_values := _nr_acquired_values w;
     _begintime := _begintime w;
     _last_upd := _last_upd w;
     _plot_info := _plot_info w;
     verbose := verbose w;
     on_progress_callback := on_progress_callback w;
     soft_avg := soft_avg w;
     instr_plotmon := instr_plotmon w;
     update_interval := update_interval w;
     devices := v;
     calls := calls w;
     disk := disk w;
     time_time := time_time w;
     n_time := n_time w;
     datetime_now := datetime_now w;
     n_now := n_now w;
     uuid4 := uuid4 w;
     n_uuid := n_uuid w |}.

Definition set_calls (v : list call) (w : world) : world :=
  {| _datadir := _datadir w;
     _default_datadir := _default_datadir w;
     _settable_pars := _settable_pars w;
     _setpoints := _setpoints w;
     _gettable_pars := _gettable_pars w;
     _nr_acquired_values := _nr_acquired_values w;
     _begintime := _begintime w;
     _last_upd := _last_upd w;
     _plot_info := _plot_info w;
     verbose := verbose w;
     on_progress_callback := on_progress_callback w;
     soft_avg := soft_avg w;
     instr_plotmon := instr_plotmon w;
     update_interval := update_interval w;
     devices := devices w;
     calls := v;
     disk := disk w;
     time_time := time_time w;
     n_time := n_time w;
     datetime_now := datetime_now w;
     n_now := n_now w;
     uuid4 := uuid4 w;
     n_uuid := n_uuid w |}.

Definition set_disk (v : list fsop) (w : world) : world :=
  {| _datadir := _datadir w;
     _default_datadir := _default_datadir w;
     _settable_pars := _settable_pars w;
     _setpoints := _setpoints w;
     _gettable_pars := _gettable_pars w;
     _nr_acquired_values := _nr_acquired_values w;
     _begintime := _begintime w;
     _last_upd := _last_upd w;
     _plot_info := _plot_info w;
     verbose := verbose w;
     on_progress_callback := on_progress_callback w;
     soft_avg := soft_avg w;
     instr_plotmon := instr_plotmon w;
     update_interval := update_interval w;
     devices := devices w;
     calls := calls w;
     disk := v;
     time_time := time_time w;
     n_time := n_time w;
     datetime_now := datetime_now w;
     n_now := n_now w;
     uuid4 := uuid4 w;
     n_uuid := n_uuid w |}.

Definition set_n_time (v : nat) (w : world) : world :=
  {| _datadir := _datadir w;
     _default_datadir := _default_datadir w;
     _settable_pars := _settable_pars w;
     _setpoints := _setpoints w;
     _gettable_pars := _gettable_pars w;
     _nr_acquired_values := _nr_acquired_values w;
     _begintime := _begintime w;
     _last_upd := _last_upd w;
     _plot_info := _plot_info w;
     verbose := verbose w;
     on_progress_callback := on_progress_callback w;
     soft_avg := soft_avg w;
     instr_plotmon := instr_plotmon w;
     update_interval := update_interval w;
     devices := devices w;
     calls := calls w;
     disk := disk w;
     time_time := time_time w;
     n_time := v;
     datetime_now := datetime_now w;
     n_now := n_now w;
     uuid4 := uuid4 w;
     n_uuid := n_uuid w |}.

Definition set_n_now (v : nat) (w : world) : world :=
  {| _datadir := _datadir w;
     _default_datadir := _default_datadir w;
     _settable_pars := _settable_pars w;
     _setpoints := _setpoints w;
     _gettable_pars := _gettable_pars w;
     _nr_acquired_values := _nr_acquired_values w;
     _begintime := _begintime w;
     _last_upd := _last_upd w;
     _plot_info := _plot_info w;
     verbose := verbose w;
     on_progress_callback := on_progress_callback w;
     soft_avg := soft_avg w;
     instr_plotmon := instr_plotmon w;
     update_interval := update_interval w;
     devices := devices w;
     calls := calls w;
     disk := disk w;
     time_time := time_time w;
     n_time := n_time w;
     datetime_now := datetime_now w;
     n_now := v;
     uuid4 := uuid4 w;
     n_uuid := n_uuid w |}.

Definition set_n_uuid (v : nat) (w : world) : world :=
  {| _datadir := _datadir w;
     _default_datadir := _default_datadir w;
     _settable_pars := _settable_pars w;
     _setpoints := _setpoints w;
     _gettable_pars := _gettable_pars w;
     _nr_acquired_values := _nr_acquired_values w;
     _begintime := _begintime w;
     _last_upd := _last_upd w;
     _plot_info := _plot_info w;
     verbose := verbose w;
     on_progress_callback := on_progress_callback w;
     soft_avg := soft_avg w;
     instr_plotmon := instr_plotmon w;
     update_interval := update_interval w;
     devices := devices w;
     calls := calls w;
     disk := disk w;
     time_time := time_time w;
     n_time := n_time w;
     datetime_now := datetime_now w;
     n_now := n_now w;
     uuid4 := uuid4 w;
     n_uuid := v |}.

(** ** Computations: state passing with exceptions

    A computation runs from a world to a value and a new world, or raises
    an exception in the world it had reached, or runs out of fuel (an
    unbounded [while] that has not finished yet). *)

Inductive outcome (A : Type) : Type :=
  | Done (a : A) (w : world)
  | Raised (e : pyerr) (w : world)
  | OutOfFuel.

Definition M (A : Type) : Type := world -> outcome A.

Definition ret {A} (a : A) : M A := fun w => Done A a w.

Definition bind {A B} (m : M A) (k : A -> M B) : M B :=
  fun w =>
    match m w with
    | Done _ a w' => k a w'
    | Raised _ e w' => Raised B e w'
    | OutOfFuel _ => OutOfFuel B
    end.

Definition raise {A} (e : pyerr) : M A := fun w => Raised A e w.

Definition gets {A} (f : world -> A) : M A := fun w => Done A (f w) w.

Definition modify (f : world -> world) : M unit := fun w => Done unit tt (f w).

(** Lift a computation that can only fail or return. *)
Definition lift {A} (r : pyerr + A) : M A :=
  match r with
  | inr a => ret a
  | inl e => raise e
  end.

(** [try: m except AttributeError: pass]. *)
Definition try_except_AttributeError (m : M unit) : M unit :=
  fun w =>
    match m w with
    | Raised _ AttributeError w' => Done unit tt w'
    | r => r
    end.

End Model.

Arguments Settable : clear implicits.
Arguments Gettable : clear implicits.
Arguments world : clear implicits.
Arguments outcome : clear implicits.
Arguments M : clear implicits.
Arguments Done {dev A} a w.
Arguments Raised {dev A} e w.
Arguments OutOfFuel {dev A}.

Declare Scope py_scope.
Delimit Scope py_scope with py.
Notation "x <- m ;; k" := (bind m (fun x => k))
  (at level 100, m at next level, right associativity) : py_scope.
Notation "m ;;; k" := (bind m (fun _ => k))
  (at level 100, right associativity) : py_scope.
Local Open Scope py_scope.

(** ** [quantify/data/data_handling.py] *)

Section DataHandling.

Context {dev : Type}.

Local Abbreviation M := (M dev).
Local Abbreviation world := (world dev).

(** [datetime.now()], [str(uuid4())] and [time.time()] read the next value
    of their source. *)
Definition now : M datetime :=
  fun w => Done (datetime_now w (n_now w)) (set_n_now (S (n_now w)) w).

Definition uuid4_str : M string :=
  fun w => Done (uuid4 w (n_uuid w)) (set_n_uuid (S (n_uuid w)) w).

Definition time_now : M Q :=
  fun w => Done (time_time w (n_time w)) (set_n_time (S (n_time w)) w).

(** Modelled from the spec: [TUID.is_valid] (the class [TUID] lives in
    [quantify.data.core_data], which is not among the sources). Validity is
    structural: 26 characters, dashes at positions 8, 15 and 19, digits at
    the other positions of the date, time and millisecond segments. *)
Fixpoint tuid_shape (i : nat) (s : string) : bool :=
  match s with
  | EmptyString => (i =? 26)%nat
  | String c s' =>
      (if ((i =? 8) || (i =? 15) || (i =? 19))%nat then Ascii.eqb c "-"
       else if (i <? 19)%nat then is_digit c
       else (i <? 26)%nat)
      && tuid_shape (S i) s'
  end.

Definition TUID_is_valid (tuid : string) : bool := tuid_shape 0 tuid.

Definition gen_tuid (ts : option datetime) : M string :=
  ts <- match ts with
        | None => now
        | Some t => ret t
        end ;;
  (* ts gives microsecs by default *)
  match split_on "." (strftime "%Y%m%d-%H%M%S-.%f" ts) with
  | [dt; micro] =>
      match py_int micro with
      | Some micro =>
          let dt := dt +:+ fmt_0d 3 (micro / 1000) +:+ "-" in
          u <- uuid4_str ;;
          ret (dt +:+ str_take 6 u)
      | None => raise ValueError
      end
  | _ => raise ValueError
  end.

Definition get_datadir : M string :=
  d <- gets _datadir ;;
  match d with
  | None =>
      dflt <- gets _default_datadir ;;
      modify (set_datadir_field (Some dflt)) ;;;
      ret dflt
  | Some d => ret d
  end.

Definition set_datadir (datadir : option string) : M unit :=
  modify (set_datadir_field datadir).

Definition fs_do (op : fsop) : M unit :=
  modify (fun w => set_disk (disk w ++ [op]) w).

Definition create_exp_folder (tuid : string) (name : string)
    (datadir : option string) : M string :=
  if negb (TUID_is_valid tuid) then raise AssertionError
  else
    datadir <- match datadir with
               | None => get_datadir
               | Some d => ret d
               end ;;
    let exp_folder := path_join datadir [str_take 8 tuid; str_drop 9 tuid] in
    let exp_folder :=
      if negb (String.eqb name "") then exp_folder +:+ "-" +:+ name
      else exp_folder in
    fs_do (MakeDirs exp_folder) ;;;
    ret exp_folder.

Definition par_attrs (name label unit : string) : gmap string string :=
  <["unit" := unit]> (<["long_name" := label]> (<["name" := name]> ∅)).

(** The first loop of [initialize_dataset]: one array per settable. *)
Fixpoint settable_darrs (i : nat) (setable_pars : list (Settable dev))
    (setpoints : setpoints_t) : pyerr + list DataArray :=
  match setable_pars with
  | [] => inr []
  | setpar :: rest =>
      match sp_col setpoints i with
      | inl e => inl e
      | inr col =>
          match settable_darrs (S i) rest setpoints with
          | inl e => inl e
          | inr ds =>
              inr (mkDataArray (fmt_idx "x" i) col
                     (par_attrs (s_name setpar) (s_label setpar) (s_unit setpar))
                   :: ds)
          end
      end
  end.

(** The second loop: one not-a-number array per gettable. *)
Fixpoint gettable_darrs (j : nat) (getable_pars : list (Gettable dev))
    (numpoints : nat) : list DataArray :=
  match getable_pars with
  | [] => []
  | getpar :: rest =>
      mkDataArray (fmt_idx "y" j) (replicate numpoints NaN)
        (par_attrs (g_name getpar) (g_label getpar) (g_unit getpar))
      :: gettable_darrs (S j) rest numpoints
  end.

Definition initialize_dataset (setable_pars : list (Settable dev))
    (setpoints : setpoints_t) (getable_pars : list (Gettable dev)) : M Dataset :=
  xs <- lift (settable_darrs 0 setable_pars setpoints) ;;
  col0 <- lift (sp_col setpoints 0) ;;
  let numpoints := length col0 in
  let darrs := xs ++ gettable_darrs 0 getable_pars numpoints in
  dataset <- lift (xr_merge darrs) ;;
  tuid <- gen_tuid None ;;
  ret (ds_set_attr dataset "tuid" (AStr tuid)).

End DataHandling.

(** ** The dataset resizer *)

Definition same_lengths (vars : list DataArray) : bool :=
  match vars with
  | [] => true
  | v :: rest =>
      forallb (fun u => (length (da_values u) =? length (da_values v))%nat) rest
  end.

Definition resize_var (f : list num -> list num) (v : DataArray) : DataArray :=
  mkDataArray (da_name v) (f (da_values v)) (da_attrs v).

(** Modelled from the spec: [grow] (the resizer is called by the tests as
    [grow_dataset], but is not among the sources). It extends every array
    along the acquisition dimension to [target_length], padding the new
    positions with not-a-number, and fails with a [ShapeMismatchError] on a
    dataset whose arrays are inconsistent in length. *)
Definition grow (dataset : Dataset) (target_length : nat) : pyerr + Dataset :=
  if same_lengths (data_vars dataset)
  then inr (mkDataset
              (map (resize_var (fun vs =>
                      vs ++ replicate (target_length - length vs)%nat NaN))
                   (data_vars dataset))
              (ds_attrs dataset))
  else inl ShapeMismatchError.

(** Modelled from the spec: [trim] (called by the tests as [trim_dataset],
    not among the sources). It truncates every array to the first
    [actual_length] entries, with the same failure as [grow]. *)
Definition trim (dataset : Dataset) (actual_length : nat) : pyerr + Dataset :=
  if same_lengths (data_vars dataset)
  then inr (mkDataset
              (map (resize_var (take actual_length)) (data_vars dataset))
              (ds_attrs dataset))
  else inl ShapeMismatchError.

(** ** [quantify/measurement/control.py] *)

(** [np.tile(a, reps)] and [np.repeat(a, reps)] on 1-D arrays. *)
Definition np_tile (a : list num) (reps : nat) : list num :=
  concat (replicate reps a).

Definition np_repeat (a : list num) (reps : nat) : list num :=
  flat_map (replicate reps) a.

(** [np.column_stack] of 1-D arrays of one length. *)
Definition np_column_stack (cols : list (list num)) : ndarray2 :=
  let nrows := match cols with
               | [] => O
               | c :: _ => length c
               end in
  mkArray2 (length cols)
    (map (fun r => map (fun c => nth r c NaN) cols) (seq 0 nrows)).

(** [a.reshape((len(a), 1))] on a 1-D array. *)
Definition reshape_column (a : list num) : ndarray2 :=
  mkArray2 1 (map (fun v => [v]) a).

(** The body of the loop of [tile_setpoints_grid]. *)
Definition tile_step (xn : ndarray2) (setpoints_n : list num) : ndarray2 :=
  let curr_l := length (arr_rows xn) in
  let new_l := length setpoints_n in
  let col_stack :=
    map (fun i => np_tile (map (fun r => nth i r NaN) (arr_rows xn)) new_l)
        (seq 0 (arr_ncols xn)) in
  let col_stack := col_stack ++ [np_repeat setpoints_n curr_l] in
  np_column_stack col_stack.

Definition tile_setpoints_grid (setpoints : list (list num)) : pyerr + ndarray2 :=
  match setpoints with
  | [] => inl IndexError
  | s0 :: rest => inr (fold_left tile_step rest (reshape_column s0))
  end.

(** The argument of [set_setpoints]: a 1-D or a 2-D array. *)
Inductive setpoints_arg : Type :=
  | Arg1D (a : list num)
  | Arg2D (a : ndarray2).

Section Control.

Context {dev : Type}.

Local Abbreviation M := (M dev).
Local Abbreviation world := (world dev).

Fixpoint for_each {A} (l : list A) (body : A -> M unit) : M unit :=
  match l with
  | [] => ret tt
  | x :: l' => body x ;;; for_each l' body
  end.

(** [for i, x in enumerate(l)] with the local variables the body updates. *)
Fixpoint for_enum {A St} (i : nat) (l : list A) (acc : St)
    (body : nat -> A -> St -> M St) : M St :=
  match l with
  | [] => ret acc
  | x :: l' => acc' <- body i x acc ;; for_enum (S i) l' acc' body
  end.

Definition log_call (c : call) : M unit :=
  modify (fun w => set_calls (calls w ++ [c]) w).

(** Run a method of a collaborator on the instruments. *)
Definition on_devices (f : dev -> pyerr + dev) : M unit :=
  d <- gets devices ;;
  d' <- lift (f d) ;;
  modify (set_devices d').

Definition settable_set (spar : Settable dev) (v : num) : M unit :=
  log_call (CSet (s_name spar) v) ;;;
  on_devices (s_set spar v).

Definition gettable_get (gpar : Gettable dev) : M pyval :=
  log_call (CGet (g_name gpar)) ;;;
  d <- gets devices ;;
  r <- lift (g_get gpar d) ;;
  modify (set_devices (snd r)) ;;;
  ret (fst r).

(** [par.prepare()] and [par.finish()]: a missing method is an
    [AttributeError]. *)
Definition settable_prepare (par : Settable dev) : M unit :=
  match s_prepare par with
  | None => raise AttributeError
  | Some f => log_call (CPrepare RSettable (s_name par)) ;;; on_devices f
  end.

Definition gettable_prepare (par : Gettable dev) (setpoints : setpoints_t) : M unit :=
  match g_prepare par with
  | None => raise AttributeError
  | Some f => log_call (CPrepare RGettable (g_name par)) ;;; on_devices (f setpoints)
  end.

Definition settable_finish (p : Settable dev) : M unit :=
  match s_finish p with
  | None => raise AttributeError
  | Some f => log_call (CFinish RSettable (s_name p)) ;;; on_devices f
  end.

Definition gettable_finish (p : Gettable dev) : M unit :=
  match g_finish p with
  | None => raise AttributeError
  | Some f => log_call (CFinish RGettable (g_name p)) ;;; on_devices f
  end.

(** Modelled from the spec: [is_internally_controlled] (imported from
    [quantify.measurement.types], which is not among the sources) reports
    the flag by which a gettable declares itself internally controlled. *)
Definition is_internally_controlled (g : Gettable dev) : bool := g_internal g.

Definition _get_fracdone : M Q :=
  acquired <- gets _nr_acquired_values ;;
  setpoints <- gets _setpoints ;;
  avg <- gets soft_avg ;;
  let total := (sp_len setpoints * avg)%nat in
  if (total =? 0)%nat then raise ZeroDivisionError
  else ret (Z.of_nat acquired # Pos.of_nat total).

Definition print_progress : M unit :=
  frac <- _get_fracdone ;;
  let percdone := (frac * 100)%Q in
  _ <- time_now ;;
  cb <- gets on_progress_callback ;;
  (if cb then log_call (CProgress percdone) else ret tt) ;;;
  v <- gets verbose ;;
  if v then log_call (CPrint percdone (Qeq_bool percdone 100)) else ret tt.

Definition has_plotmon (plotmon_name : option string) : bool :=
  match plotmon_name with
  | None => false
  | Some n => negb (String.eqb n "")
  end.

Definition to_netcdf (dataset : Dataset) (path : string) : M unit :=
  fs_do (WriteDataset path dataset).

Definition _update (dataset : Dataset) (plotmon_name : option string)
    (exp_folder : string) : M unit :=
  t <- time_now ;;
  last <- gets _last_upd ;;
  interval <- gets update_interval ;;
  acquired <- gets _nr_acquired_values ;;
  setpoints <- gets _setpoints ;;
  let update := (negb (Qle_bool (t - last) interval)
                 || (acquired =? sp_len setpoints)%nat)%bool in
  if update then
    print_progress ;;;
    to_netcdf dataset (path_join exp_folder ["dataset.hdf5"]) ;;;
    (if has_plotmon plotmon_name then log_call CPlotmonUpdate else ret tt) ;;;
    t' <- time_now ;;
    modify (set_last_upd t')
  else ret tt.

Definition _prepare : M unit :=
  try_except_AttributeError
    (pars <- gets _settable_pars ;;
     for_each pars settable_prepare) ;;;
  try_except_AttributeError
    (pars <- gets _gettable_pars ;;
     setpoints <- gets _setpoints ;;
     for_each pars (fun par => gettable_prepare par setpoints)).

(** [x and y] on two lists: [x] when it is empty, [y] otherwise. *)
Definition py_and {A B} (x : list A) (y : list B) : list A + list B :=
  match x with
  | [] => inl x
  | _ => inr y
  end.

Definition _finish : M unit :=
  try_except_AttributeError
    (gs <- gets _gettable_pars ;;
     ss <- gets _settable_pars ;;
     match py_and gs ss with
     | inl ps => for_each ps gettable_finish
     | inr ps => for_each ps settable_finish
     end).

Definition ds_attr_str (ds : Dataset) (k : string) : pyerr + string :=
  match ds_attrs ds !! k with
  | Some (AStr s) => inr s
  | Some _ => inl TypeError
  | None => inl KeyError
  end.

(** [dataset[name].values[idx] = val] for what a [get()] returned; a
    one-element array is converted to its element, a larger one cannot be
    stored in one cell. *)
Definition store_value (dataset : Dataset) (name : string) (idx : nat)
    (val : pyval) : pyerr + Dataset :=
  match ds_getitem dataset name with
  | inl e => inl e
  | inr _ =>
      match val with
      | PScalar v => ds_set_value dataset name idx v
      | PBlock [[v]] => ds_set_value dataset name idx v
      | PBlock _ => inl ValueError
      end
  end.

(** [self._gettable_pars[0]]. *)
Definition first_gettable : M (Gettable dev) :=
  gpars <- gets _gettable_pars ;;
  match gpars with
  | g :: _ => ret g
  | [] => raise IndexError
  end.

(** The body of the [for] loop of [run] (the branch taken when
    [is_internal] holds). *)
Definition soft_body (plotmon_name : option string) (exp_folder : string)
    (idx : nat) (spts : list num) (dataset : Dataset) : M Dataset :=
  spars <- gets _settable_pars ;;
  (* set all individual setparams *)
  for_each (combine spars spts) (fun p => settable_set (fst p) (snd p)) ;;;
  (* acquire all data points *)
  gpars <- gets _gettable_pars ;;
  dataset <- for_enum 0 gpars dataset (fun j gpar ds =>
               val <- gettable_get gpar ;;
               lift (store_value ds (fmt_idx "y" j) idx val)) ;;
  modify (fun w => set_nr_acquired_values (S (_nr_acquired_values w)) w) ;;;
  _update dataset plotmon_name exp_folder ;;;
  ret dataset.

(** Writing one block of the bulk read: row [i] goes to [y{i}], its [j]-th
    value to index [j]; [points_gathered] ends as the length of the last
    row. *)
Definition write_block (new_data : list (list num)) (dataset : Dataset)
  : M (Dataset * nat) :=
  for_enum 0 new_data (dataset, O) (fun i row st =>
    ds <- for_enum 0 row (fst st) (fun j dp ds =>
            lift (ds_set_value ds (fmt_idx "y" i) j dp)) ;;
    ret (ds, length row)).

(** The body of the [while] loop of [run]. *)
Definition hard_body (plotmon_name : option string) (exp_folder : string)
    (dataset : Dataset) : M Dataset :=
  g0 <- first_gettable ;;
  new_data <- gettable_get g0 ;;
  rows <- match new_data with
          | PBlock rows => ret rows
          | PScalar _ => raise TypeError
          end ;;
  r <- write_block rows dataset ;;
  modify (fun w => set_nr_acquired_values (_nr_acquired_values w + snd r)%nat w) ;;;
  _update (fst r) plotmon_name exp_folder ;;;
  ret (fst r).

(** [while self._get_fracdone() < 100: ...]; [fuel] bounds the number of
    times the body runs. *)
Fixpoint hard_loop (fuel : nat) (plotmon_name : option string)
    (exp_folder : string) (dataset : Dataset) : M Dataset :=
  frac <- _get_fracdone ;;
  if negb (Qle_bool 100 frac) then
    match fuel with
    | O => fun _ => OutOfFuel
    | S fuel' =>
        dataset <- hard_body plotmon_name exp_folder dataset ;;
        hard_loop fuel' plotmon_name exp_folder dataset
    end
  else ret dataset.

Definition run (fuel : nat) (name : string) : M Dataset :=
  (* reset all variables that change during acquisition *)
  modify (set_nr_acquired_values 0) ;;;
  t <- time_now ;;
  modify (set_begintime t) ;;;
  g0 <- first_gettable ;;
  let is_internal := is_internally_controlled g0 in
  (* initialize an empty dataset *)
  spars <- gets _settable_pars ;;
  setpoints <- gets _setpoints ;;
  gpars <- gets _gettable_pars ;;
  dataset <- initialize_dataset spars setpoints gpars ;;
  let dataset := ds_set_attr dataset "name" (AStr name) in
  plot_info <- gets _plot_info ;;
  let dataset := ds_update_attrs dataset plot_info in
  tuid <- lift (ds_attr_str dataset "tuid") ;;
  name' <- lift (ds_attr_str dataset "name") ;;
  exp_folder <- create_exp_folder tuid name' None ;;
  (* Write the empty dataset *)
  to_netcdf dataset (path_join exp_folder ["dataset.hdf5"]) ;;;
  (* Save a snapshot of all *)
  fs_do (WriteSnapshot (path_join exp_folder ["snapshot.json"])) ;;;
  _prepare ;;;
  plotmon_name <- gets instr_plotmon ;;
  (if has_plotmon plotmon_name
   then log_call (CPlotmonTuid tuid) ;;; log_call CPlotmonUpdate
   else ret tt) ;;;
  dataset <- (if is_internal
              then for_enum 0 (sp_rows setpoints) dataset
                     (soft_body plotmon_name exp_folder)
              else hard_loop fuel plotmon_name exp_folder dataset) ;;
  _finish ;;;
  (* Wrap up experiment and store data *)
  to_netcdf dataset (path_join exp_folder ["dataset.hdf5"]) ;;;
  (* reset the plot info for the next experiment. *)
  modify (set_plot_info {["2D-grid" := ABool false]}) ;;;
  ret dataset.

Definition set_setpars (settable_pars : list (Settable dev)) : M unit :=
  modify (set_settable_pars settable_pars).

Definition set_setpoints (setpoints : setpoints_arg) : M unit :=
  let setpoints := match setpoints with
                   | Arg1D a => reshape_column a
                   | Arg2D a => a
                   end in
  modify (set_setpoints_field (SpArray setpoints)) ;;;
  modify (fun w => set_plot_info (<["2D-grid" := ABool false]> (_plot_info w)) w).

Definition set_setpoints_grid (setpoints : list (list num)) : M unit :=
  match setpoints with
  | [s0; s1] =>
      modify (fun w => set_plot_info
                (<["2D-grid" := ABool true]>
                   (<["ylen" := AInt (length s1)]>
                      (<["xlen" := AInt (length s0)]> (_plot_info w)))) w)
  | _ => ret tt
  end ;;;
  grid <- lift (tile_setpoints_grid setpoints) ;;
  modify (set_setpoints_field (SpArray grid)).

Definition set_getpars (gettable_par : Gettable dev) : M unit :=
  modify (set_gettable_pars [gettable_par]).

(** The world right after [MeasurementControl.__init__], with nothing
    configured, no data directory chosen and nothing done yet. *)
Definition fresh_world (default_datadir : string) (d : dev)
    (clock : nat -> Q) (nowf : nat -> datetime) (uuidf : nat -> string) : world :=
  {| _datadir := None;
     _default_datadir := default_datadir;
     _settable_pars := [];
     _setpoints := SpList;
     _gettable_pars := [];
     _nr_acquired_values := 0;
     _begintime := clock O;
     _last_upd := clock 1%nat;
     _plot_info := ∅;
     verbose := true;
     on_progress_callback := false;
     soft_avg := 1;
     instr_plotmon := None;
     update_interval := 1 # 10;
     devices := d;
     calls := [];
     disk := [];
     time_time := clock;
     n_time := 2;
     datetime_now := nowf;
     n_now := 0;
     uuid4 := uuidf;
     n_uuid := 0 |}.

End Control.

(** ** Vocabulary of the statements *)

Fixpoint all_chars (p : ascii -> bool) (s : string) : bool :=
  match s with
  | EmptyString => true
  | String c s' => p c && all_chars p s'
  end.

(** The date and time segments of an identifier, [YYYYMMDD-HHMMSS-] for a
    year of four digits. *)
Definition tuid_head (t : datetime) : string :=
  zpad (decimal_width (year t)) (year t) +:+ zpad 2 (month t) +:+ zpad 2 (day t) +:+ "-" +:+
  zpad 2 (hour t) +:+ zpad 2 (minute t) +:+ zpad 2 (second t) +:+ "-".

(** What [gen_tuid] computes from a timestamp and a uuid string. *)
Definition tuid_text (t : datetime) (u : string) : string :=
  tuid_head t +:+ zpad 3 (microsecond t mod 1000000 / 1000) +:+ "-" +:+ str_take 6 u.


(** The array [initialize_dataset] builds for settable number [i] and for
    gettable number [j]. *)
Definition x_array {dev} (a : ndarray2) (i : nat) (s : Settable dev) : DataArray :=
  mkDataArray (fmt_idx "x" i) (map (fun r => nth i r NaN) (arr_rows a))
    (par_attrs (s_name s) (s_label s) (s_unit s)).

Definition y_array {dev} (numpoints : nat) (j : nat) (g : Gettable dev) : DataArray :=
  mkDataArray (fmt_idx "y" j) (replicate numpoints NaN)
    (par_attrs (g_name g) (g_label g) (g_unit g)).

(** What [initialize_dataset] returns on a 2-D grid that has a column for
    every settable, and at least one column. *)
Definition built_dataset {dev} (a : ndarray2) (spars : list (Settable dev))
    (gpars : list (Gettable dev)) (tuid : string) : Dataset :=
  mkDataset (imap (fun k s => x_array a k s) spars ++
             imap (fun k g => y_array (length (arr_rows a)) k g) gpars)
            (<["tuid" := AStr tuid]> ∅).

(** The number of combinations of one position per array, n1 * ... * nk. *)
Definition total_points (setpoints : list (list num)) : nat :=
  fold_right Nat.mul 1%nat (map length setpoints).

(** The positions row number [r] takes in arrays of the given lengths when
    the first array varies fastest: the mixed-radix digits of [r], least
    significant first. *)
Fixpoint radix_digits (lens : list nat) (r : nat) : list nat :=
  match lens with
  | [] => []
  | n :: rest => (r mod n)%nat :: radix_digits rest (r / n)%nat
  end.

(** The number whose digits are [choice]. *)
Fixpoint radix_value (lens : list nat) (choice : list nat) : nat :=
  match lens, choice with
  | n :: rest, i :: choice' => (i + n * radix_value rest choice')%nat
  | _, _ => O
  end.

(** The combination that takes position [i_j] in array [j]. *)
Definition row_of_choice (setpoints : list (list num)) (choice : list nat) : list num :=
  zip_with (fun a i => nth i a NaN) setpoints choice.

(** Row number [r] of the tiled grid. *)
Fixpoint pick_row (setpoints : list (list num)) (r : nat) : list num :=
  match setpoints with
  | [] => []
  | a :: rest => nth (r mod length a) a NaN :: pick_row rest (r / length a)
  end.

(** The calls that reach the instruments. *)
Definition is_instrument_call (c : call) : bool :=
  match c with
  | CSet _ _ | CGet _ => true
  | _ => false
  end.

Definition instrument_calls (cs : list call) : list call :=
  List.filter is_instrument_call cs.

(** The invocations of a gettable's [finish] hook. *)
Definition is_gettable_finish (c : call) : bool :=
  match c with
  | CFinish RGettable _ => true
  | _ => false
  end.

(** The world a computation ends in, however it ends. *)
Definition ends_in {dev A} (r : outcome dev A) (P : world dev -> Prop) : Prop :=
  match r with
  | Done _ w' | Raised _ w' => P w'
  | OutOfFuel => False
  end.

(** [w'] is [w] after [k] more points were acquired through the
    instrument calls [cs], leaving the instruments in state [d]; the
    configuration is untouched. *)
Record evolves {dev} (w w' : world dev) (cs : list call) (k : nat) (d : dev) : Prop := {
  ev_settables : _settable_pars w' = _settable_pars w;
  ev_setpoints : _setpoints w' = _setpoints w;
  ev_gettables : _gettable_pars w' = _gettable_pars w;
  ev_soft_avg : soft_avg w' = soft_avg w;
  ev_acquired : _nr_acquired_values w' = (_nr_acquired_values w + k)%nat;
  ev_devices : devices w' = d;
  ev_calls : instrument_calls (calls w') = instrument_calls (calls w) ++ cs
}.

(** A dataset of one settable array and the gettable array [y0]. *)
Definition xy_dataset (X : DataArray) (ys : list num) (ay : gmap string string)
    (attrs : gmap string attr) : Dataset :=
  mkDataset [X; mkDataArray "y0" ys ay] attrs.

(** ** Concrete scenarios *)

Module Example.

(** 2020-04-30 17:08:37 sharp, and one millisecond later. *)
Definition ts_a : datetime := mkDatetime 2020 4 30 17 8 37 0 None.
Definition ts_b : datetime := mkDatetime 2020 4 30 17 8 37 1000 None.

(** A timestamp in the year 999. *)
Definition ts_999 : datetime := mkDatetime 999 1 2 3 4 5 6000 None.

(** Noon in UTC, and eleven o'clock of the same day five hours west of
    UTC, which is four hours later. *)
Definition ts_noon_utc : datetime := mkDatetime 2020 4 30 12 0 0 0 (Some 0).
Definition ts_eleven_west : datetime :=
  mkDatetime 2020 4 30 11 0 0 0 (Some (-18000000000)).

Definition uuid_a : string := "315f36aa-8c2e-4b1f-9d53-0a6e5c7f2b10".
Definition uuid_b : string := "00c0ffee-1a2b-4c3d-8e4f-5a6b7c8d9e0f".

(** A clock that advances by a hundredth of a second per reading. *)
Definition clock (n : nat) : Q := Z.of_nat n # 100.

(** A fresh process over the instrument state [d]. *)
Definition lab {dev : Type} (d : dev) (u : string) : world dev :=
  fresh_world "/data" d clock (fun _ => ts_a) (fun _ => u).

(** An instrument that remembers the value last set: settable [x] stores
    it, gettable [y] reads back twice that value. *)
Definition double (v : num) : num :=
  match v with
  | NaN => NaN
  | Num z => Num (2 * z)
  end.

Definition sx : Settable num :=
  mkSettable "x" "X position" "m" (fun v _ => inr v) None None.

Definition gy (internal : bool) : Gettable num :=
  mkGettable "y" "Signal amplitude" "V" internal
    (fun d => inr (PScalar (double d), d)) None None.

Definition grid3 : ndarray2 := mkArray2 1 [[Num 0]; [Num 1]; [Num 2]].

(** Configuring a fresh measurement control with that instrument and the
    set-points 0, 1, 2, then running it. *)
Definition session (internal : bool) (fuel : nat) (name : string) : M num Dataset :=
  set_setpars [sx] ;;;
  set_setpoints (Arg1D [Num 0; Num 1; Num 2]) ;;;
  set_getpars (gy internal) ;;;
  run fuel name.

(** Instruments with and without the optional [prepare] and [finish]. *)
Definition s_hooked (name : string) : Settable num :=
  mkSettable name name "" (fun v _ => inr v) (Some inr) (Some inr).

Definition s_bare (name : string) : Settable num :=
  mkSettable name name "" (fun v _ => inr v) None None.

Definition g_hooked (name : string) : Gettable num :=
  mkGettable name name "" true (fun d => inr (PScalar d, d))
    (Some (fun _ d => inr d)) (Some inr).

Definition with_pars (spars : list (Settable num)) (gpars : list (Gettable num))
    (w : world num) : world num :=
  set_gettable_pars gpars (set_settable_pars spars w).

(** A hardware-paced source that delivers one new point per bulk read: its
    [k]-th read returns the 1 x 1 block holding [k]. *)
Definition next_count (d : num) : num :=
  match d with
  | NaN => Num 1
  | Num k => Num (k + 1)
  end.

Definition g_counter : Gettable num :=
  mkGettable "y" "Signal amplitude" "V" false
    (fun d => inr (PBlock [[next_count d]], next_count d)) None None.

(** Two set-points, acquired from the counting source. *)
Definition counting_session (fuel : nat) (name : string) : M num Dataset :=
  set_setpars [sx] ;;;
  set_setpoints (Arg1D [Num 0; Num 1]) ;;;
  set_getpars g_counter ;;;
  run fuel name.

(** The body of the bulk-read loop run twice on the counting source, from
    a two-point dataset that is still all not-a-number. *)
Definition two_bulk_reads : M num Dataset :=
  set_setpars [sx] ;;;
  set_setpoints (Arg1D [Num 0; Num 1]) ;;;
  set_getpars g_counter ;;;
  dataset <- hard_body None "/data/exp"
               (xy_dataset (mkDataArray "x0" [Num 0; Num 1] ∅) [NaN; NaN] ∅ ∅) ;;
  hard_body None "/data/exp" dataset.

(** A hardware-paced source whose every bulk read returns the one point 7. *)
Definition g_seven : Gettable num :=
  mkGettable "y" "Signal amplitude" "V" false
    (fun d => inr (PBlock [[Num 7]], d)) None None.

(** One set-point, acquired from that source. *)
Definition one_point_session (fuel : nat) (name : string) : M num Dataset :=
  set_setpars [sx] ;;;
  set_setpoints (Arg1D [Num 0]) ;;;
  set_getpars g_seven ;;;
  run fuel name.

(** A run with no settable configured, and a run over an empty grid. *)
Definition no_settable_session (fuel : nat) (name : string) : M num Dataset :=
  set_setpoints (Arg1D [Num 0]) ;;;
  set_getpars (gy true) ;;;
  run fuel name.

Definition empty_grid_session (fuel : nat) (name : string) : M num Dataset :=
  set_setpars [sx] ;;;
  set_setpoints (Arg1D []) ;;;
  set_getpars (gy true) ;;;
  run fuel name.

End Example.


(** ** Further scenarios *)

Module Scenario.

(** Within the same millisecond as [Example.ts_a]. *)
Definition ts_same_ms : datetime := mkDatetime 2020 4 30 17 8 37 999 None.

(** A uuid that shares its first six characters with [Example.uuid_a]. *)
Definition uuid_same_prefix : string := "315f36ee-0000-4000-8000-000000000000".

(** A measurement control configured with the settable [x], two set-points
    and the counting source. *)
Definition configure_counting : M num unit :=
  set_setpars [Example.sx] ;;;
  set_setpoints (Arg1D [Num 0; Num 1]) ;;;
  set_getpars Example.g_counter.

Definition counting_lab : world num :=
  match configure_counting (Example.lab NaN Example.uuid_a) with
  | Done _ w' => w'
  | _ => Example.lab NaN Example.uuid_a
  end.

(** One set-point and the source that returns the point 7 at every read;
    the bulk-read loop from a dataset that is still all not-a-number. *)
Definition configure_one_point : M num unit :=
  set_setpars [Example.sx] ;;;
  set_setpoints (Arg1D [Num 0]) ;;;
  set_getpars Example.g_seven.

Definition one_point_lab : world num :=
  match configure_one_point (Example.lab NaN Example.uuid_a) with
  | Done _ w' => w'
  | _ => Example.lab NaN Example.uuid_a
  end.

Definition one_point_dataset : Dataset :=
  xy_dataset (mkDataArray "x0" [Num 0] ∅) [NaN] ∅ ∅.

Definition one_point_loop (fuel : nat) : outcome num Dataset :=
  hard_loop fuel None "/data/exp" one_point_dataset one_point_lab.

(** A hardware-paced source that has nothing to deliver: every bulk read
    returns an empty block. *)
Definition g_silent : Gettable num :=
  mkGettable "y" "Signal amplitude" "V" false
    (fun d => inr (PBlock [], d)) None None.

Definition silent_lab : world num :=
  set_gettable_pars [g_silent] one_point_lab.

(** The settable [x], the set-points 0, 1, 2 and the gettable that reads
    back twice the value last set. *)
Definition configure_double : M num unit :=
  set_setpars [Example.sx] ;;;
  set_setpoints (Arg1D [Num 0; Num 1; Num 2]) ;;;
  set_getpars (Example.gy true).

Definition double_lab : world num :=
  match configure_double (Example.lab NaN Example.uuid_a) with
  | Done _ w' => w'
  | _ => Example.lab NaN Example.uuid_a
  end.

Definition no_dataset : Dataset := mkDataset [] ∅.

(** A dataset of three points of which none has been acquired. *)
Definition three_point_dataset : Dataset :=
  xy_dataset (mkDataArray "x0" [Num 0; Num 1; Num 2] ∅) [NaN; NaN; NaN] ∅ ∅.

End Scenario.

(** ** Vocabulary of the further properties *)

(** The invocations of a settable's [set]. *)
Definition is_set_call (c : call) : bool :=
  match c with
  | CSet _ _ => true
  | _ => false
  end.

(** The instrument calls of one pass of the loop over the set-points:
    every settable is set to its value of the row, then every gettable is
    read. *)
Definition row_calls {dev} (spars : list (Settable dev)) (gpars : list (Gettable dev))
    (row : list num) : list call :=
  map (fun p => CSet (s_name (fst p)) (snd p)) (combine spars row) ++
  map (fun g => CGet (g_name g)) gpars.

(** [w1] is [w] after [k] more points were acquired through the instrument
    calls [cs]. *)
Definition evolved {dev} (w : world dev) (cs : list call) (k : nat) (w1 : world dev)
  : Prop :=
  evolves w w1 cs k (devices w1).

(** The experiment folder of an identifier and a name under a data
    directory, as [create_exp_folder] composes it. *)
Definition exp_folder_of (datadir tuid name : string) : string :=
  let exp_folder := path_join datadir [str_take 8 tuid; str_drop 9 tuid] in
  if negb (String.eqb name "") then exp_folder +:+ "-" +:+ name else exp_folder.

(** The data directory in force: the one set, or else the default. *)
Definition datadir_of {dev} (w : world dev) : string :=
  match _datadir w with
  | Some d => d
  | None => _default_datadir w
  end.

(** A dataset has the shape of the arrays [vars0]: the same names in the
    same order, the same lengths, and the same arrays of the settables. *)
Definition same_shape (vars0 : list DataArray) (ds : Dataset) : Prop :=
  map da_name (data_vars ds) = map da_name vars0 /\
  map (fun v => length (da_values v)) (data_vars ds) =
    map (fun v => length (da_values v)) vars0 /\
  forall i, find_var (fmt_idx "x" i) (data_vars ds) = find_var (fmt_idx "x" i) vars0.

Section Later.

Context {dev : Type}.

(** [w'] is a later state of the measurement control of [w]: the
    configuration is the same, and the calls made and the file operations
    done are those of [w] followed by further ones, where every further
    call satisfies [P] and every further file operation satisfies [D]. *)
Record extends (P : call -> Prop) (D : fsop -> Prop) (w w' : world dev) : Prop := {
  ext_settables : _settable_pars w' = _settable_pars w;
  ext_setpoints : _setpoints w' = _setpoints w;
  ext_gettables : _gettable_pars w' = _gettable_pars w;
  ext_soft_avg : soft_avg w' = soft_avg w;
  ext_plotmon : instr_plotmon w' = instr_plotmon w;
  ext_interval : update_interval w' = update_interval w;
  ext_verbose : verbose w' = verbose w;
  ext_callback : on_progress_callback w' = on_progress_callback w;
  ext_default : _default_datadir w' = _default_datadir w;
  ext_calls : exists cs, calls w' = calls w ++ cs /\ Forall P cs;
  ext_disk : exists ops, disk w' = disk w ++ ops /\ Forall D ops
}.

(** A write of the dataset file of an experiment folder. *)
Definition writes_dataset_of (folder : string) (op : fsop) : Prop :=
  exists dataset, op = WriteDataset (path_join folder ["dataset.hdf5"]) dataset.

(** No further file operation at all. *)
Definition none (_ : fsop) : Prop := False.

(** No restriction on the further calls or file operations. *)
Definition any {A} (_ : A) : Prop := True.

(** A computation started in a world that satisfies [Pre] ends, if it
    returns, with a value and in a world that satisfy [Post], and if it
    raises, in a world that satisfies [Exc]. *)
Definition triple {A} (Pre : world dev -> Prop) (m : M dev A)
    (Post : A -> world dev -> Prop) (Exc : world dev -> Prop) : Prop :=
  forall w, Pre w ->
    match m w with
    | Done a w' => Post a w'
    | Raised _ w' => Exc w'
    | OutOfFuel => True
    end.

(** [Inv] is kept by the computation, however it ends. *)
Definition keeps {A} (Inv : world dev -> Prop) (m : M dev A) : Prop :=
  triple Inv m (fun _ => Inv) Inv.

(** The property [Q] of the world a computation has reached when it
    returns or raises. *)
Definition whenever {A} (r : outcome dev A) (Q : world dev -> Prop) : Prop :=
  match r with
  | Done _ w' | Raised _ w' => Q w'
  | OutOfFuel => True
  end.

(** The value and the world of an outcome. *)
Definition result_of {A} (r : outcome dev A) (default : A) : A :=
  match r with
  | Done a _ => a
  | _ => default
  end.

Definition world_of {A} (r : outcome dev A) (default : world dev) : world dev :=
  match r with
  | Done _ w' | Raised _ w' => w'
  | OutOfFuel => default
  end.

End Later.


(** ** Looking up experiments on disk

    [get_latest_tuid] and [load_dataset] read the file system and the
    data directory. [TUID(...)] is taken to return the string it is given,
    as in [gen_tuid]. *)

(** The exceptions of the lookups: those of the acquisition code, and the
    ones of the operating system. *)
Inductive lookup_err : Type :=
  | LPy (e : pyerr)
  | FileNotFoundError
  | NotADirectoryError.

(** What the lookups read of the file system: the entries of a directory
    ([os.listdir]) and the dataset stored in a file ([xr.load_dataset]). *)
Record filesystem : Type := mkFilesystem {
  listdir : string -> lookup_err + list string;
  load : string -> lookup_err + Dataset
}.

(** [s.isdigit()]: at least one character, and only digits. *)
Definition str_isdigit (s : string) : bool :=
  negb (String.eqb s "") && all_chars is_digit s.

(** [s.startswith(p)] and [sub in s]. *)
Fixpoint str_prefix (p s : string) : bool :=
  match p, s with
  | EmptyString, _ => true
  | String a p', String b s' => Ascii.eqb a b && str_prefix p' s'
  | String _ _, EmptyString => false
  end.

Fixpoint str_contains (sub s : string) : bool :=
  str_prefix sub s ||
  match s with
  | EmptyString => false
  | String _ s' => str_contains sub s'
  end.

(** [list(filter(f, l))] for a predicate that may raise. *)
Fixpoint filter_raising {A} (f : A -> pyerr + bool) (l : list A) : pyerr + list A :=
  match l with
  | [] => inr []
  | x :: l' =>
      match f x with
      | inl e => inl e
      | inr keep =>
          match filter_raising f l' with
          | inl e => inl e
          | inr kept => inr (if keep then x :: kept else kept)
          end
      end
  end.

(** [l.sort(reverse=True)] on strings. *)
Fixpoint insert_desc (x : string) (l : list string) : list string :=
  match l with
  | [] => [x]
  | y :: l' => if String.leb y x then x :: l else y :: insert_desc x l'
  end.

Definition sort_desc (l : list string) : list string :=
  fold_right insert_desc [] l.

(** Descending string order, and the lists sorted by it. *)
Definition geq (a b : string) : Prop := String.leb b a = true.

Fixpoint sorted_desc (l : list string) : Prop :=
  match l with
  | [] => True
  | h :: t => Forall (geq h) t /\ sorted_desc t
  end.

(** The filter on the entries of the data directory:
    [x.isdigit() and len(x) == 8]. *)
Definition is_daydir (x : string) : bool :=
  str_isdigit x && (String.length x =? 8)%nat.

(** The filter on the entries of a day directory:
    [x[:6].isdigit() and x[6] == '-' and len(x) > 12 and contains in x];
    [x[6]] raises on a string of at most six characters. *)
Definition is_expdir (contains x : string) : pyerr + bool :=
  if str_isdigit (str_take 6 x) then
    match String.get 6 x with
    | None => inl IndexError
    | Some c =>
        inr (Ascii.eqb c "-" && (12 <? String.length x)%nat && str_contains contains x)
    end
  else inr false.

(** The loop of [get_latest_tuid] over the day directories, newest first. *)
Fixpoint latest_in_days (fs : filesystem) (datadir contains : string)
    (daydirs : list string) : lookup_err + string :=
  match daydirs with
  | [] => inl FileNotFoundError
  | dd :: rest =>
      match listdir fs (path_join datadir [dd]) with
      | inl e => inl e
      | inr entries =>
          match filter_raising (is_expdir contains) entries with
          | inl e => inl (LPy e)
          | inr expdirs =>
              match sort_desc expdirs with
              | x :: _ => inr (dd +:+ "-" +:+ str_take 17 x)
              | [] => latest_in_days fs datadir contains rest
              end
          end
      end
  end.

Definition latest_tuid_in (fs : filesystem) (datadir contains : string)
  : lookup_err + string :=
  match listdir fs datadir with
  | inl e => inl e
  | inr entries =>
      match sort_desc (List.filter is_daydir entries) with
      | [] => inl FileNotFoundError
      | daydirs => latest_in_days fs datadir contains daydirs
      end
  end.

Definition load_dataset_in (fs : filesystem) (tuid datadir : string)
  : lookup_err + Dataset :=
  let daydir := path_join datadir [str_take 8 tuid] in
  match listdir fs daydir with
  | inl e => inl e
  | inr entries =>
      match List.filter (str_contains (str_drop 9 tuid)) entries with
      | [] => inl FileNotFoundError
      | exp_folder :: _ => load fs (path_join daydir [exp_folder; "dataset.hdf5"])
      end
  end.

Section Lookups.

Context {dev : Type}.

(** The outcome of a lookup is returned as a value: [FileNotFoundError] is
    not among the exceptions of the acquisition code. A lookup changes the
    state only through [get_datadir]. *)
Definition get_latest_tuid (fs : filesystem) (contains : string)
  : M dev (lookup_err + string) :=
  datadir <- get_datadir ;;
  ret (latest_tuid_in fs datadir contains).

Definition load_dataset (fs : filesystem) (tuid : string) (datadir : option string)
  : M dev (lookup_err + Dataset) :=
  datadir <- match datadir with
             | None => get_datadir
             | Some d => ret d
             end ;;
  ret (load_dataset_in fs tuid datadir).

End Lookups.

(** ** Scenarios on disk *)

Module OnDisk.

(** The data directory [/data] after one experiment named [exp] on
    2020-04-30, with a later day directory that holds no experiment. *)
Definition two_days : filesystem :=
  mkFilesystem
    (fun path =>
       if String.eqb path "/data" then inr ["20200430"; "20200501"; "notes.txt"]
       else if String.eqb path "/data/20200430"
       then inr ["170837-000-315f36-exp"; "notes"]
       else if String.eqb path "/data/20200501" then inr ["README"]
       else inl FileNotFoundError)
    (fun path =>
       if String.eqb path "/data/20200430/170837-000-315f36-exp/dataset.hdf5"
       then inr (mkDataset [] (<["tuid" := AStr "20200430-170837-000-315f36"]> ∅))
       else inl FileNotFoundError).

(** The same data directory when the later day directory holds an entry
    named [2020]. *)
Definition short_entry : filesystem :=
  mkFilesystem
    (fun path =>
       if String.eqb path "/data" then inr ["20200430"; "20200501"]
       else if String.eqb path "/data/20200430" then inr ["170837-000-315f36-exp"]
       else if String.eqb path "/data/20200501" then inr ["170837-000-315f36-exp"; "2020"]
       else inl FileNotFoundError)
    (fun _ => inl FileNotFoundError).

End OnDisk.

(** * Facts about the string helpers *)

Section StringFacts.

Lemma digit_cases (d : Z) :
  0 <= d < 10 ->
  d = 0 \/ d = 1 \/ d = 2 \/ d = 3 \/ d = 4 \/ d = 5 \/ d = 6 \/ d = 7 \/ d = 8 \/ d = 9.
Proof. lia. Qed.

Lemma is_digit_digit_char (d : Z) : 0 <= d < 10 -> is_digit (digit_char d) = true.
Proof.
  intros H. destruct (digit_cases d H) as [->|[->|[->|[->|[->|[->|[->|[->|[->| ->]]]]]]]]];
    reflexivity.
Qed.

Lemma ord_digit_char (d : Z) : 0 <= d < 10 -> ord (digit_char d) = 48 + d.
Proof.
  intros H. destruct (digit_cases d H) as [->|[->|[->|[->|[->|[->|[->|[->|[->| ->]]]]]]]]];
    reflexivity.
Qed.

Lemma nth_digit_range (n : Z) (k : nat) : 0 <= (n / 10 ^ Z.of_nat k) mod 10 < 10.
Proof. apply Z.mod_pos_bound. lia. Qed.

Lemma zpad_length (w : nat) (n : Z) : String.length (zpad w n) = w.
Proof. induction w as [|w IH]; simpl; [reflexivity | now rewrite IH]. Qed.

Lemma append_cons (c : ascii) (s t : string) :
  String c s +:+ t = String c (s +:+ t).
Proof. reflexivity. Qed.

Lemma append_nil (t : string) : "" +:+ t = t.
Proof. reflexivity. Qed.

Lemma all_chars_app p (s t : string) :
  all_chars p (s +:+ t) = all_chars p s && all_chars p t.
Proof.
  induction s as [|c s IH]; [reflexivity|].
  rewrite append_cons. simpl. rewrite IH. now rewrite andb_assoc.
Qed.

Lemma zpad_digits (w : nat) (n : Z) : all_chars is_digit (zpad w n) = true.
Proof.
  induction w as [|w IH]; simpl; [reflexivity|].
  rewrite IH, is_digit_digit_char by apply nth_digit_range. reflexivity.
Qed.

Lemma str_length_app (s t : string) :
  String.length (s +:+ t) = (String.length s + String.length t)%nat.
Proof.
  induction s as [|c s IH]; [reflexivity|].
  rewrite append_cons. simpl. now rewrite IH.
Qed.

Lemma str_app_assoc (s t u : string) : (s +:+ t) +:+ u = s +:+ t +:+ u.
Proof.
  induction s as [|c s IH]; [reflexivity|].
  rewrite !append_cons. now rewrite IH.
Qed.

(** Splitting at a separator that occurs once. *)
Lemma split_on_absent (sep : ascii) (s : string) :
  all_chars (fun c => negb (Ascii.eqb c sep)) s = true -> split_on sep s = [s].
Proof.
  induction s as [|c s IH]; simpl; [reflexivity|].
  intros [Hc Hs]%andb_true_iff.
  apply negb_true_iff in Hc. rewrite Hc, IH by assumption. reflexivity.
Qed.

Lemma split_on_once (sep : ascii) (s t : string) :
  all_chars (fun c => negb (Ascii.eqb c sep)) s = true ->
  all_chars (fun c => negb (Ascii.eqb c sep)) t = true ->
  split_on sep (s +:+ String sep t) = [s; t].
Proof.
  intros Hs Ht. induction s as [|c s IH]; rewrite ?append_cons, ?append_nil; simpl.
  - rewrite Ascii.eqb_refl, split_on_absent by assumption. reflexivity.
  - simpl in Hs. apply andb_true_iff in Hs as [Hc Hs].
    apply negb_true_iff in Hc. rewrite Hc, IH by assumption. reflexivity.
Qed.

Lemma all_chars_impl (p q : ascii -> bool) (s : string) :
  (forall c, p c = true -> q c = true) ->
  all_chars p s = true -> all_chars q s = true.
Proof.
  intros Hpq. induction s as [|c s IH]; simpl; [reflexivity|].
  intros [Hc Hs]%andb_true_iff. rewrite (Hpq _ Hc), IH by assumption. reflexivity.
Qed.

Lemma digit_or_dash_not_dot (c : ascii) :
  (is_digit c || Ascii.eqb c "-")%bool = true -> negb (Ascii.eqb c ".") = true.
Proof.
  intros H. apply negb_true_iff. apply Ascii.eqb_neq. intros ->.
  discriminate H.
Qed.

(** Reading back a zero-padded number. *)
Lemma int_of_digits_zpad (w : nat) (n acc : Z) :
  int_of_digits acc (zpad w n) = Some (acc * 10 ^ Z.of_nat w + n mod 10 ^ Z.of_nat w).
Proof.
  revert acc. induction w as [|w IH]; intros acc.
  - simpl. f_equal. rewrite Z.mod_1_r. lia.
  - cbn [zpad int_of_digits].
    rewrite is_digit_digit_char by apply nth_digit_range.
    rewrite ord_digit_char by apply nth_digit_range.
    rewrite IH. f_equal.
    replace (Z.of_nat (S w)) with (Z.of_nat w + 1) by lia.
    rewrite Z.pow_add_r, Z.pow_1_r by lia.
    set (p := 10 ^ Z.of_nat w).
    assert (Hp : 0 < p) by (apply Z.pow_pos_nonneg; lia).
    rewrite Z.rem_mul_r by lia.
    ring.
Qed.

Lemma py_int_zpad (w : nat) (n : Z) :
  (0 < w)%nat -> py_int (zpad w n) = Some (n mod 10 ^ Z.of_nat w).
Proof.
  intros Hw. destruct w as [|w]; [lia|].
  unfold py_int. rewrite int_of_digits_zpad.
  cbn [zpad]. f_equal.
Qed.

Lemma append_nil_r (s : string) : s +:+ "" = s.
Proof.
  induction s as [|c s IH]; [reflexivity|].
  rewrite append_cons. now rewrite IH.
Qed.

(** ["%03d" % k] is the three-digit rendering for every [k] below 1000. *)
Lemma fmt_0d_3 (k : Z) : 0 <= k < 1000 -> fmt_0d 3 k = zpad 3 k.
Proof.
  intros H.
  assert (Hall : forallb (fun i => String.eqb (fmt_0d 3 (Z.of_nat i)) (zpad 3 (Z.of_nat i)))
                   (seq 0 1000) = true) by (vm_compute; reflexivity).
  rewrite forallb_forall in Hall.
  specialize (Hall (Z.to_nat k)). rewrite Z2Nat.id in Hall by lia.
  apply String.eqb_eq, Hall, in_seq. lia.
Qed.

(** Lexicographic comparison of strings built from fields of one width. *)
Lemma compare_app (a c b d : string) :
  String.length a = String.length c ->
  String.compare (a +:+ b) (c +:+ d) =
  match String.compare a c with
  | Eq => String.compare b d
  | ne => ne
  end.
Proof.
  revert c. induction a as [|x a IH]; intros [|y c] Hlen; try discriminate Hlen.
  - reflexivity.
  - rewrite !append_cons. simpl.
    destruct (Ascii.compare x y); try reflexivity.
    apply IH. simpl in Hlen. congruence.
Qed.

Lemma compare_digit_char (a b : Z) :
  0 <= a < 10 -> 0 <= b < 10 ->
  Ascii.compare (digit_char a) (digit_char b) = (a ?= b).
Proof.
  intros Ha Hb. unfold Ascii.compare.
  assert (Hn : forall d, 0 <= d < 10 -> N_of_ascii (digit_char d) = Z.to_N (48 + d)).
  { intros d Hd. pose proof (ord_digit_char d Hd) as H. unfold ord in H. lia. }
  rewrite !Hn by assumption.
  rewrite Z2N.inj_compare by lia.
  apply Z.add_compare_mono_l.
Qed.

Lemma zpad_compare (w : nat) (n m : Z) :
  String.compare (zpad w n) (zpad w m) =
  (n mod 10 ^ Z.of_nat w ?= m mod 10 ^ Z.of_nat w).
Proof.
  induction w as [|w IH].
  - simpl. now rewrite !Z.mod_1_r.
  - cbn [zpad String.compare].
    rewrite compare_digit_char by apply nth_digit_range.
    rewrite IH.
    replace (Z.of_nat (S w)) with (Z.of_nat w + 1) by lia.
    rewrite Z.pow_add_r, Z.pow_1_r by lia.
    set (p := 10 ^ Z.of_nat w).
    assert (Hp : 0 < p) by (apply Z.pow_pos_nonneg; lia).
    rewrite !Z.rem_mul_r by lia.
    pose proof (Z.mod_pos_bound n p Hp) as Hr.
    pose proof (Z.mod_pos_bound m p Hp) as Hr'.
    set (a := (n / p) mod 10). set (a' := (m / p) mod 10).
    set (r := n mod p) in *. set (r' := m mod p) in *.
    destruct (Z.compare_spec a a') as [Heq|Hlt|Hgt].
    + subst a'. rewrite Heq. destruct (Z.compare_spec r r'); symmetry;
        [apply Z.compare_eq_iff | apply Z.compare_lt_iff | apply Z.compare_gt_iff]; nia.
    + symmetry. apply Z.compare_lt_iff. nia.
    + symmetry. apply Z.compare_gt_iff. nia.
Qed.

Lemma zpad_compare_small (w : nat) (n m : Z) :
  0 <= n < 10 ^ Z.of_nat w -> 0 <= m < 10 ^ Z.of_nat w ->
  String.compare (zpad w n) (zpad w m) = (n ?= m).
Proof.
  intros Hn Hm. rewrite zpad_compare. now rewrite !Z.mod_small.
Qed.

End StringFacts.


(** * The identifier generator *)

Section GenTuid.

Context {dev : Type}.
Implicit Types (w : world dev) (t : datetime).

Lemma strftime_tuid_format t :
  strftime "%Y%m%d-%H%M%S-.%f" t = tuid_head t +:+ String "." (zpad 6 (microsecond t)).
Proof.
  unfold tuid_head. cbn [strftime strftime_directive Ascii.eqb Bool.eqb].
  rewrite ?str_app_assoc, ?append_cons, ?append_nil, ?append_nil_r.
  reflexivity.
Qed.

Lemma tuid_head_no_dot t :
  all_chars (fun c => negb (Ascii.eqb c ".")) (tuid_head t) = true.
Proof.
  apply all_chars_impl with (p := fun c => (is_digit c || Ascii.eqb c "-")%bool).
  { apply digit_or_dash_not_dot. }
  unfold tuid_head.
  assert (Hd : forall k n, all_chars (fun c => (is_digit c || Ascii.eqb c "-")%bool) (zpad k n) = true).
  { intros k n. apply all_chars_impl with (p := is_digit); [|apply zpad_digits].
    intros c ->. reflexivity. }
  rewrite !all_chars_app, !Hd. reflexivity.
Qed.

Lemma gen_tuid_at t w :
  gen_tuid (Some t) w =
  Done (tuid_text t (uuid4 w (n_uuid w))) (set_n_uuid (S (n_uuid w)) w).
Proof.
  unfold gen_tuid, bind, ret.
  rewrite strftime_tuid_format.
  rewrite split_on_once.
  - rewrite py_int_zpad by lia.
    rewrite fmt_0d_3.
    + unfold uuid4_str, tuid_text. rewrite !str_app_assoc. reflexivity.
    + assert (0 <= microsecond t mod 10 ^ Z.of_nat 6 < 1000000)
        by (apply Z.mod_pos_bound; lia).
      split; [apply Z.div_pos; lia | apply Z.div_lt_upper_bound; lia].
  - apply tuid_head_no_dot.
  - apply all_chars_impl with (p := is_digit); [|apply zpad_digits].
    intros c Hc. apply digit_or_dash_not_dot. now rewrite Hc.
Qed.

Lemma gen_tuid_now w :
  gen_tuid None w =
  Done (tuid_text (datetime_now w (n_now w)) (uuid4 w (n_uuid w)))
       (set_n_uuid (S (n_uuid w)) (set_n_now (S (n_now w)) w)).
Proof.
  change (gen_tuid None w)
    with (gen_tuid (Some (datetime_now w (n_now w))) (set_n_now (S (n_now w)) w)).
  rewrite gen_tuid_at. reflexivity.
Qed.

End GenTuid.

Section TuidOrder.

Lemma str_take_length (n : nat) (s : string) :
  String.length (str_take n s) = Nat.min n (String.length s).
Proof.
  revert s. induction n as [|n IH]; intros [|c s]; simpl; try reflexivity.
  now rewrite IH.
Qed.

Lemma decimal_width_4 (y : Z) : 1000 <= y -> decimal_width y = 4%nat.
Proof.
  intros Hy. unfold decimal_width.
  destruct (Z.ltb_spec y 10); [lia|]. destruct (Z.ltb_spec y 100); [lia|].
  destruct (Z.ltb_spec y 1000); [lia | reflexivity].
Qed.

Lemma tuid_text_length t u :
  1000 <= year t ->
  (6 <= String.length u)%nat -> String.length (tuid_text t u) = 26%nat.
Proof.
  intros Hy Hu. unfold tuid_text, tuid_head. rewrite (decimal_width_4 _ Hy).
  rewrite ?str_length_app, ?zpad_length.
  rewrite str_take_length, Nat.min_l by exact Hu. reflexivity.
Qed.

Lemma tuid_text_valid t u :
  1000 <= year t ->
  (6 <= String.length u)%nat -> TUID_is_valid (tuid_text t u) = true.
Proof.
  intros Hy Hu. unfold TUID_is_valid, tuid_text, tuid_head.
  rewrite (decimal_width_4 _ Hy).
  do 6 (destruct u as [|? u]; [simpl in Hu; lia|]).
  cbn [zpad str_take]. repeat (rewrite append_cons || rewrite append_nil).
  cbn [tuid_shape Nat.eqb Nat.ltb Nat.leb orb Ascii.eqb Bool.eqb].
  rewrite !is_digit_digit_char by (apply Z.mod_pos_bound; lia).
  reflexivity.
Qed.

(** Timestamps of one offset, or without offset, are compared by their
    fields. *)
Lemma datetime_lt_fields (t1 t2 : datetime) :
  utcoffset t1 = utcoffset t2 -> datetime_lt t1 t2 = inr true ->
  lex_ltb (datetime_fields t1) (datetime_fields t2) = true.
Proof.
  unfold datetime_lt. intros <-. destruct (utcoffset t1) as [o|].
  - rewrite Z.eqb_refl. intros [= H]. exact H.
  - intros [= H]. exact H.
Qed.

(** The later of two such timestamps that differ at millisecond
    granularity is also the later one once both are cut to milliseconds. *)
Lemma later_at_ms (t1 t2 : datetime) :
  utcoffset t1 = utcoffset t2 ->
  datetime_lt t1 t2 = inr true -> ms_fields t1 <> ms_fields t2 ->
  lex_ltb (ms_fields t1) (ms_fields t2) = true.
Proof.
  intros Ho H Hne. apply datetime_lt_fields in H; [|exact Ho]. clear Ho.
  revert H Hne.
  unfold datetime_fields, ms_fields. cbn [lex_ltb].
  intros H Hne.
  destruct (Z.ltb_spec (year t1) (year t2)); [reflexivity|].
  destruct (Z.eqb_spec (year t1) (year t2)) as [Ey|]; [|discriminate H].
  destruct (Z.ltb_spec (month t1) (month t2)); [reflexivity|].
  destruct (Z.eqb_spec (month t1) (month t2)) as [Em|]; [|discriminate H].
  destruct (Z.ltb_spec (day t1) (day t2)); [reflexivity|].
  destruct (Z.eqb_spec (day t1) (day t2)) as [Ed|]; [|discriminate H].
  destruct (Z.ltb_spec (hour t1) (hour t2)); [reflexivity|].
  destruct (Z.eqb_spec (hour t1) (hour t2)) as [Eh|]; [|discriminate H].
  destruct (Z.ltb_spec (minute t1) (minute t2)); [reflexivity|].
  destruct (Z.eqb_spec (minute t1) (minute t2)) as [Emi|]; [|discriminate H].
  destruct (Z.ltb_spec (second t1) (second t2)); [reflexivity|].
  destruct (Z.eqb_spec (second t1) (second t2)) as [Es|]; [|discriminate H].
  cbn [orb andb] in *.
  destruct (Z.ltb_spec (microsecond t1) (microsecond t2)) as [Hlt|];
    [|cbn in H; destruct (microsecond t1 =? microsecond t2); discriminate H].
  assert (microsecond t1 / 1000 <= microsecond t2 / 1000)
    by (apply Z.div_le_mono; lia).
  assert (microsecond t1 / 1000 <> microsecond t2 / 1000) by congruence.
  destruct (Z.ltb_spec (microsecond t1 / 1000) (microsecond t2 / 1000));
    [reflexivity | lia].
Qed.

Lemma valid_datetime_ranges t :
  valid_datetime t = true ->
  0 <= year t < 10000 /\ 0 <= month t < 100 /\ 0 <= day t < 100 /\
  0 <= hour t < 100 /\ 0 <= minute t < 100 /\ 0 <= second t < 100 /\
  0 <= microsecond t < 1000000.
Proof.
  unfold valid_datetime. rewrite !andb_true_iff, !Z.leb_le, !Z.ltb_lt.
  intros [[[[[[[[[[[[[[Hy1 Hy2] Hm1] Hm2] Hd1] Hd2] Hh0] Hh] Hmi0] Hmi] Hs0] Hs] Hus0] Hus] _].
  assert (days_in_month (year t) (month t) <= 31).
  { unfold days_in_month.
    repeat match goal with
           | |- context [match ?x with _ => _ end] => destruct x
           end; lia. }
  lia.
Qed.

Lemma tuid_text_sorted (t1 t2 : datetime) (u1 u2 : string) :
  valid_datetime t1 = true -> valid_datetime t2 = true ->
  1000 <= year t1 -> 1000 <= year t2 ->
  lex_ltb (ms_fields t1) (ms_fields t2) = true ->
  String.ltb (tuid_text t1 u1) (tuid_text t2 u2) = true.
Proof.
  intros V1 V2 Y1 Y2 Hlt.
  apply valid_datetime_ranges in V1 as (Hy1 & Hm1 & Hd1 & Hh1 & Hmi1 & Hs1 & Hus1).
  apply valid_datetime_ranges in V2 as (Hy2 & Hm2 & Hd2 & Hh2 & Hmi2 & Hs2 & Hus2).
  assert (Hms1 : 0 <= microsecond t1 / 1000 < 1000)
    by (split; [apply Z.div_pos; lia | apply Z.div_lt_upper_bound; lia]).
  assert (Hms2 : 0 <= microsecond t2 / 1000 < 1000)
    by (split; [apply Z.div_pos; lia | apply Z.div_lt_upper_bound; lia]).
  unfold String.ltb, tuid_text, tuid_head.
  rewrite (decimal_width_4 _ Y1), (decimal_width_4 _ Y2).
  rewrite !(Z.mod_small (microsecond _) 1000000) by assumption.
  rewrite ?str_app_assoc.
  repeat (rewrite compare_app by (rewrite ?zpad_length; reflexivity);
          rewrite ?zpad_compare_small by (simpl; lia);
          rewrite ?append_cons, ?append_nil; cbn [String.compare Ascii.compare N_of_ascii N.compare Pos.compare Pos.compare_cont N.add N.mul]).
  unfold ms_fields in Hlt. cbn [lex_ltb] in Hlt.
  repeat match goal with
         | |- context [?a ?= ?b] =>
             destruct (Z.compare_spec a b); try reflexivity
         end;
  repeat match type of Hlt with
         | context [?a <? ?b] => destruct (Z.ltb_spec a b); try lia
         | context [?a =? ?b] => destruct (Z.eqb_spec a b); try lia
         end; try discriminate Hlt.
Qed.

End TuidOrder.

(** * Properties of the identifier generator *)

Section GenTuidProperties.

Context {dev : Type}.

(** C8 (as amended: years of four digits, timestamps of one offset). For
    every valid timestamp whose year has four digits the generated
    identifier has exactly 26 characters in the form
    [YYYYMMDD-HHMMSS-mmm-xxxxxx], the sub-second part being the
    milliseconds on exactly three digits; and of two such timestamps that
    are both naive, or both aware with the same offset, and differ at
    millisecond granularity, the identifier of the later one sorts strictly
    after the identifier of the earlier one, whatever the random suffixes
    are. *)
Theorem gen_tuid_sortable_26 (t1 t2 : datetime) (w1 w2 : world dev) :
  valid_datetime t1 = true ->
  valid_datetime t2 = true ->
  1000 <= year t1 ->
  1000 <= year t2 ->
  (6 <= String.length (uuid4 w1 (n_uuid w1)))%nat ->
  (6 <= String.length (uuid4 w2 (n_uuid w2)))%nat ->
  exists id1 id2 w1' w2',
    gen_tuid (Some t1) w1 = Done id1 w1' /\
    gen_tuid (Some t2) w2 = Done id2 w2' /\
    String.length id1 = 26%nat /\
    id1 = zpad 4 (year t1) +:+ zpad 2 (month t1) +:+ zpad 2 (day t1) +:+ "-" +:+
          zpad 2 (hour t1) +:+ zpad 2 (minute t1) +:+ zpad 2 (second t1) +:+ "-" +:+
          zpad 3 (microsecond t1 / 1000) +:+ "-" +:+
          str_take 6 (uuid4 w1 (n_uuid w1)) /\
    String.length (str_take 6 (uuid4 w1 (n_uuid w1))) = 6%nat /\
    TUID_is_valid id1 = true /\
    (utcoffset t1 = utcoffset t2 ->
     datetime_lt t1 t2 = inr true -> ms_fields t1 <> ms_fields t2 ->
     String.ltb id1 id2 = true).
Proof.
  intros V1 V2 Y1 Y2 U1 U2.
  exists (tuid_text t1 (uuid4 w1 (n_uuid w1))), (tuid_text t2 (uuid4 w2 (n_uuid w2))).
  eexists _, _.
  split; [apply gen_tuid_at|]. split; [apply gen_tuid_at|].
  split; [now apply tuid_text_length|].
  split.
  { unfold tuid_text, tuid_head. rewrite (decimal_width_4 _ Y1).
    rewrite Z.mod_small by (apply valid_datetime_ranges in V1; tauto).
    now rewrite !str_app_assoc. }
  split; [rewrite str_take_length; now apply Nat.min_l|].
  split; [now apply tuid_text_valid|].
  intros Ho Hlater Hms. apply tuid_text_sorted; try assumption.
  now apply later_at_ms.
Qed.

End GenTuidProperties.

Lemma gen_tuid_sortable_26_witness :
  exists id1 id2 w1' w2',
    gen_tuid (Some Example.ts_a) (Example.lab tt Example.uuid_a) = Done id1 w1' /\
    gen_tuid (Some Example.ts_b) (Example.lab tt Example.uuid_b) = Done id2 w2' /\
    String.length id1 = 26%nat /\
    id1 = "20200430-170837-000-315f36" /\
    String.length (str_take 6 Example.uuid_a) = 6%nat /\
    TUID_is_valid id1 = true /\
    (utcoffset Example.ts_a = utcoffset Example.ts_b ->
     datetime_lt Example.ts_a Example.ts_b = inr true ->
     ms_fields Example.ts_a <> ms_fields Example.ts_b ->
     String.ltb id1 id2 = true).
Proof.
  apply (gen_tuid_sortable_26 Example.ts_a Example.ts_b
           (Example.lab tt Example.uuid_a) (Example.lab tt Example.uuid_b)).
  - reflexivity.
  - reflexivity.
  - vm_compute. discriminate.
  - vm_compute. discriminate.
  - vm_compute. lia.
  - vm_compute. lia.
Defined.

(** C8 as stated fails in two ways. For a timestamp in the year 999 the
    year is printed on three digits: the identifier has 25 characters, is
    not valid, and sorts after the identifier of a timestamp of the year
    2020, which is later. And of two aware timestamps of different
    offsets the later one can have the smaller wall-clock fields: the
    identifier of eleven o'clock five hours west of UTC sorts before the
    identifier of noon in UTC, which is four hours earlier. *)
Lemma gen_tuid_short_year_and_offsets :
  valid_datetime Example.ts_999 = true /\
  gen_tuid (Some Example.ts_999) (Example.lab tt Example.uuid_a)
    = Done "9990102-030405-006-315f36"
        (set_n_uuid 1 (Example.lab tt Example.uuid_a)) /\
  String.length "9990102-030405-006-315f36" = 25%nat /\
  TUID_is_valid "9990102-030405-006-315f36" = false /\
  datetime_lt Example.ts_999 Example.ts_a = inr true /\
  ms_fields Example.ts_999 <> ms_fields Example.ts_a /\
  gen_tuid (Some Example.ts_a) (Example.lab tt Example.uuid_a)
    = Done "20200430-170837-000-315f36"
        (set_n_uuid 1 (Example.lab tt Example.uuid_a)) /\
  String.ltb "9990102-030405-006-315f36" "20200430-170837-000-315f36" = false /\
  valid_datetime Example.ts_noon_utc = true /\
  valid_datetime Example.ts_eleven_west = true /\
  datetime_lt Example.ts_noon_utc Example.ts_eleven_west = inr true /\
  ms_fields Example.ts_noon_utc <> ms_fields Example.ts_eleven_west /\
  gen_tuid (Some Example.ts_noon_utc) (Example.lab tt Example.uuid_a)
    = Done "20200430-120000-000-315f36"
        (set_n_uuid 1 (Example.lab tt Example.uuid_a)) /\
  gen_tuid (Some Example.ts_eleven_west) (Example.lab tt Example.uuid_a)
    = Done "20200430-110000-000-315f36"
        (set_n_uuid 1 (Example.lab tt Example.uuid_a)) /\
  String.ltb "20200430-120000-000-315f36" "20200430-110000-000-315f36" = false.
Proof. repeat split; try reflexivity; discriminate. Qed.

(** * The data directory *)

Section Datadir.

Context {dev : Type}.

(** C9 (the code differs). When the data directory has never been set,
    querying it does not fail: [get_datadir] returns the default directory
    and records it as the current one. *)
Theorem get_datadir_unset_returns_default
    (default_datadir : string) (d : dev) (clock : nat -> Q)
    (nowf : nat -> datetime) (uuidf : nat -> string) :
  let w := fresh_world default_datadir d clock nowf uuidf in
  _datadir w = None /\
  get_datadir w = Done default_datadir (set_datadir_field (Some default_datadir) w).
Proof. split; reflexivity. Qed.

End Datadir.

(** * The dataset resizer *)

Section Resizer.

Lemma same_lengths_all (vars : list DataArray) (L : nat) :
  Forall (fun v => length (da_values v) = L) vars -> same_lengths vars = true.
Proof.
  intros H. destruct vars as [|v rest]; [reflexivity|].
  simpl. apply forallb_forall. intros u Hu.
  apply Forall_cons in H as [Hv Hrest].
  rewrite Forall_forall in Hrest.
  apply Nat.eqb_eq. rewrite Hv. apply Hrest. now apply list_elem_of_In.
Qed.

(** C6. On a dataset whose arrays all have length [L], growing to [N >= L]
    pads every array with not-a-number beyond the original values, and
    trimming the result back to [L] truncates every array alike and
    returns the original dataset. *)
Theorem trim_grow_roundtrip (dataset : Dataset) (L N : nat) :
  Forall (fun v => length (da_values v) = L) (data_vars dataset) ->
  (L <= N)%nat ->
  exists grown,
    grow dataset N = inr grown /\
    Forall2 (fun v v' =>
               da_name v' = da_name v /\ da_attrs v' = da_attrs v /\
               length (da_values v') = N /\
               da_values v' = da_values v ++ replicate (N - L) NaN)
            (data_vars dataset) (data_vars grown) /\
    trim grown L = inr dataset.
Proof.
  intros Hlen HLN.
  unfold grow. rewrite (same_lengths_all _ L Hlen).
  eexists. split; [reflexivity|]. split.
  - simpl. induction Hlen as [|v vars Hv _ IH]; simpl; constructor; [|exact IH].
    cbn. rewrite Hv, length_app, length_replicate. repeat split; try reflexivity. lia.
  - unfold trim. cbn [data_vars ds_attrs].
    rewrite (same_lengths_all _ N).
    + f_equal. destruct dataset as [vars attrs]. cbn in *. f_equal.
      rewrite map_map. induction Hlen as [|v vars Hv _ IH]; simpl; [reflexivity|].
      rewrite IH. f_equal.
      unfold resize_var at 1 2. cbn. rewrite take_app_length' by (symmetry; exact Hv). now destruct v.
    + apply Forall_map. eapply Forall_impl; [exact Hlen|].
      intros v Hv. cbn in *. rewrite length_app, length_replicate. lia.
Qed.

Lemma trim_grow_roundtrip_witness :
  exists grown,
    grow (mkDataset [mkDataArray "x0" [Num 1; Num 2] ∅; mkDataArray "y0" [Num 5; NaN] ∅] ∅) 4
      = inr grown /\
    Forall2 (fun v v' =>
               da_name v' = da_name v /\ da_attrs v' = da_attrs v /\
               length (da_values v') = 4%nat /\
               da_values v' = da_values v ++ replicate (4 - 2) NaN)
            [mkDataArray "x0" [Num 1; Num 2] ∅; mkDataArray "y0" [Num 5; NaN] ∅]
            (data_vars grown) /\
    trim grown 2 =
      inr (mkDataset [mkDataArray "x0" [Num 1; Num 2] ∅; mkDataArray "y0" [Num 5; NaN] ∅] ∅).
Proof.
  apply (trim_grow_roundtrip
           (mkDataset [mkDataArray "x0" [Num 1; Num 2] ∅; mkDataArray "y0" [Num 5; NaN] ∅] ∅)
           2 4).
  - repeat constructor.
  - lia.
Defined.

End Resizer.

(** * The dataset builder *)

Section Builder.

Context {dev : Type}.
Implicit Types (w : world dev) (a : ndarray2).

Lemma settable_darrs_eq a (spars : list (Settable dev)) (i : nat) :
  (i + length spars <= arr_ncols a)%nat ->
  settable_darrs i spars (SpArray a) = inr (imap (fun k s => x_array a (i + k) s) spars).
Proof.
  revert i. induction spars as [|s spars IH]; intros i Hi; [reflexivity|].
  cbn [settable_darrs sp_col]. unfold arr_col.
  simpl in Hi.
  destruct (Nat.ltb_spec i (arr_ncols a)); [|lia].
  rewrite IH by lia. cbn [imap]. unfold x_array at 2. rewrite Nat.add_0_r.
  do 2 f_equal. apply imap_ext. intros k s' _. simpl. f_equal. lia.
Qed.

Lemma gettable_darrs_eq (gpars : list (Gettable dev)) (j numpoints : nat) :
  gettable_darrs j gpars numpoints = imap (fun k g => y_array numpoints (j + k) g) gpars.
Proof.
  revert j. induction gpars as [|g gpars IH]; intros j; [reflexivity|].
  cbn [gettable_darrs imap]. rewrite IH. unfold y_array at 2. rewrite Nat.add_0_r.
  f_equal. apply imap_ext. intros k g' _. simpl. f_equal. lia.
Qed.

Lemma find_var_absent (name : string) (vars : list DataArray) :
  ~ In name (map da_name vars) -> find_var name vars = None.
Proof.
  induction vars as [|v vars IH]; intros Hn; [reflexivity|].
  simpl in *. destruct (String.eqb_spec (da_name v) name); [tauto|].
  apply IH. tauto.
Qed.

Lemma xr_merge_into_distinct (acc darrs : list DataArray) (N : nat) :
  NoDup (map da_name (acc ++ darrs)) ->
  Forall (fun v => length (da_values v) = N) (acc ++ darrs) ->
  xr_merge_into acc darrs = inr (acc ++ darrs).
Proof.
  revert acc. induction darrs as [|d darrs IH]; intros acc Hnd Hlen.
  - now rewrite app_nil_r.
  - replace (acc ++ d :: darrs) with ((acc ++ [d]) ++ darrs) in *
      by (now rewrite <- app_assoc).
    destruct acc as [|a acc].
    + cbn [xr_merge_into]. apply (IH [d]); assumption.
    + cbn [xr_merge_into].
      assert (Ha : length (da_values a) = N).
      { apply Forall_app in Hlen as [Hlen _]. now apply Forall_cons in Hlen as [? _]. }
      assert (Hd : length (da_values d) = N).
      { apply Forall_app in Hlen as [Hlen _].
        apply Forall_app in Hlen as [_ Hlen]. now apply Forall_cons in Hlen as [? _]. }
      rewrite Ha, Hd, Nat.eqb_refl. cbn [negb].
      rewrite find_var_absent; [now apply IH|].
      rewrite map_app, map_app in Hnd. apply NoDup_app in Hnd as [Hnd _].
      apply NoDup_app in Hnd as (_ & Hnd & _).
      intros Hin. apply (Hnd (da_name d)); [now apply list_elem_of_In|].
      simpl. constructor.
Qed.

Lemma fmt_idx_inj (pre : string) (i j : nat) : fmt_idx pre i = fmt_idx pre j -> i = j.
Proof.
  unfold fmt_idx. intros H. apply (inj (String.app pre)) in H.
  now apply (inj pretty) in H.
Qed.

Lemma fmt_idx_x_y (i j : nat) : fmt_idx "x" i <> fmt_idx "y" j.
Proof. unfold fmt_idx. rewrite !append_cons, !append_nil. discriminate. Qed.

Lemma NoDup_imap_names {A} (pre : string) (f : nat -> A -> DataArray) (l : list A) :
  (forall k x, da_name (f k x) = fmt_idx pre k) ->
  NoDup (map da_name (imap f l)).
Proof.
  intros Hf. apply NoDup_alt. intros i j x Hi Hj.
  rewrite list_lookup_fmap, list_lookup_imap in Hi.
  rewrite list_lookup_fmap, list_lookup_imap in Hj.
  destruct (l !! i) as [xi|] eqn:Ei; [|discriminate].
  destruct (l !! j) as [xj|] eqn:Ej; [|discriminate].
  simpl in *. rewrite Hf in Hi, Hj.
  apply (fmt_idx_inj pre). congruence.
Qed.

Lemma dataset_names_distinct a (spars : list (Settable dev))
    (gpars : list (Gettable dev)) (N : nat) :
  NoDup (map da_name (imap (fun k s => x_array a (0 + k) s) spars ++
                      imap (fun k g => y_array N (0 + k) g) gpars)).
Proof.
  rewrite map_app. apply NoDup_app. split; [|split].
  - now apply NoDup_imap_names with (pre := "x").
  - intros name Hx Hy.
    apply list_elem_of_fmap in Hx as (vx & -> & Hx).
    apply list_elem_of_fmap in Hy as (vy & Hxy & Hy).
    apply list_elem_of_lookup in Hx as (i & Hx). apply list_elem_of_lookup in Hy as (j & Hy).
    rewrite list_lookup_imap in Hx. rewrite list_lookup_imap in Hy.
    destruct (spars !! i); [|discriminate]. destruct (gpars !! j); [|discriminate].
    simpl in *. injection Hx as <-. injection Hy as <-.
    now apply fmt_idx_x_y in Hxy.
  - now apply NoDup_imap_names with (pre := "y").
Qed.

Lemma built_lengths a (spars : list (Settable dev)) (gpars : list (Gettable dev)) :
  Forall (fun v => length (da_values v) = length (arr_rows a))
    (imap (fun k s => x_array a k s) spars ++
     imap (fun k g => y_array (length (arr_rows a)) k g) gpars).
Proof.
  apply Forall_app. split; apply Forall_forall; intros v Hv;
    apply list_elem_of_lookup in Hv as (k & Hv); rewrite list_lookup_imap in Hv.
  - destruct (spars !! k); [|discriminate]. injection Hv as <-.
    cbn. now rewrite length_map.
  - destruct (gpars !! k); [|discriminate]. injection Hv as <-.
    cbn. now rewrite length_replicate.
Qed.

Lemma initialize_dataset_eq a (spars : list (Settable dev))
    (gpars : list (Gettable dev)) w :
  (length spars <= arr_ncols a)%nat -> (0 < arr_ncols a)%nat ->
  initialize_dataset spars (SpArray a) gpars w =
  Done (built_dataset a spars gpars
          (tuid_text (datetime_now w (n_now w)) (uuid4 w (n_uuid w))))
       (set_n_uuid (S (n_uuid w)) (set_n_now (S (n_now w)) w)).
Proof.
  intros HM Hc. unfold initialize_dataset.
  rewrite settable_darrs_eq by (simpl; lia).
  unfold bind at 1. cbn [lift ret].
  cbn [sp_col]. unfold arr_col.
  destruct (Nat.ltb_spec 0 (arr_ncols a)); [|lia].
  unfold bind at 1. cbn [lift ret].
  rewrite length_map, gettable_darrs_eq.
  unfold xr_merge.
  rewrite xr_merge_into_distinct with (N := length (arr_rows a)).
  - unfold bind at 1. cbn [lift ret]. unfold bind. rewrite gen_tuid_now.
    reflexivity.
  - apply dataset_names_distinct.
  - apply built_lengths.
Qed.

(** C7 (as amended: at least one settable). For every list of M >= 1
    settables, every grid with M columns and every list of K gettables,
    [initialize_dataset] returns M+K arrays, all as long as the grid has
    rows: array [i] is [x{i}], holds column [i] of the grid and carries
    exactly the attributes [name], [long_name] and [unit] with the name,
    label and unit of settable [i]; array [M+j] is [y{j}], is all
    not-a-number and carries exactly those attributes with the name, label
    and unit of gettable [j]; the attributes of the dataset hold, under
    [tuid], an identifier generated at that moment from the next clock
    reading and the next uuid. *)
Theorem initialize_dataset_shape a (spars : list (Settable dev))
    (gpars : list (Gettable dev)) w :
  arr_ncols a = length spars ->
  (0 < length spars)%nat ->
  exists dataset tuid w',
    initialize_dataset spars (SpArray a) gpars w = Done dataset w' /\
    length (data_vars dataset) = (length spars + length gpars)%nat /\
    Forall (fun v => length (da_values v) = length (arr_rows a)) (data_vars dataset) /\
    (forall i s, spars !! i = Some s ->
       data_vars dataset !! i =
       Some (mkDataArray (fmt_idx "x" i) (map (fun r => nth i r NaN) (arr_rows a))
               (<["unit" := s_unit s]>
                  (<["long_name" := s_label s]> (<["name" := s_name s]> ∅))))) /\
    (forall j g, gpars !! j = Some g ->
       data_vars dataset !! (length spars + j)%nat =
       Some (mkDataArray (fmt_idx "y" j) (replicate (length (arr_rows a)) NaN)
               (<["unit" := g_unit g]>
                  (<["long_name" := g_label g]> (<["name" := g_name g]> ∅))))) /\
    ds_attrs dataset !! "tuid" = Some (AStr tuid) /\
    gen_tuid None w = Done tuid w'.
Proof.
  intros Hcols HM.
  eexists _, _, _. split; [apply initialize_dataset_eq; lia|].
  unfold built_dataset. cbn [data_vars ds_attrs].
  split; [now rewrite length_app, !length_imap|].
  split; [apply built_lengths|].
  split.
  { intros i s Hi. rewrite lookup_app_l by (rewrite length_imap; now apply lookup_lt_Some in Hi).
    rewrite list_lookup_imap, Hi. reflexivity. }
  split.
  { intros j g Hj. rewrite lookup_app_r by (rewrite length_imap; lia).
    rewrite length_imap. replace (length spars + j - length spars)%nat with j by lia.
    rewrite list_lookup_imap, Hj. reflexivity. }
  split; [apply lookup_insert_eq | apply gen_tuid_now].
Qed.

End Builder.

(** C7 fails without a settable: a grid with a row but no column has no
    column 0 to take the number of points from. *)
Lemma initialize_dataset_no_settable_raises :
  initialize_dataset [] (SpArray (mkArray2 0 [[]])) [Example.gy true]
    (Example.lab NaN Example.uuid_a)
  = Raised IndexError (Example.lab NaN Example.uuid_a).
Proof. reflexivity. Qed.

Lemma initialize_dataset_shape_witness :
  exists dataset tuid w',
    initialize_dataset [Example.sx] (SpArray Example.grid3) [Example.gy true]
      (Example.lab NaN Example.uuid_a) = Done dataset w' /\
    length (data_vars dataset) = (1 + 1)%nat /\
    Forall (fun v => length (da_values v) = 3%nat) (data_vars dataset) /\
    (forall i s, [Example.sx] !! i = Some s ->
       data_vars dataset !! i =
       Some (mkDataArray (fmt_idx "x" i)
               (map (fun r => nth i r NaN) (arr_rows Example.grid3))
               (<["unit" := s_unit s]>
                  (<["long_name" := s_label s]> (<["name" := s_name s]> ∅))))) /\
    (forall j g, [Example.gy true] !! j = Some g ->
       data_vars dataset !! (1 + j)%nat =
       Some (mkDataArray (fmt_idx "y" j) (replicate 3 NaN)
               (<["unit" := g_unit g]>
                  (<["long_name" := g_label g]> (<["name" := g_name g]> ∅))))) /\
    ds_attrs dataset !! "tuid" = Some (AStr tuid) /\
    gen_tuid None (Example.lab NaN Example.uuid_a) = Done tuid w'.
Proof.
  apply (initialize_dataset_shape Example.grid3 [Example.sx] [Example.gy true]
           (Example.lab NaN Example.uuid_a)).
  - reflexivity.
  - simpl. lia.
Defined.

(** * Tiling set-points into a grid *)

Section Tiling.

Lemma nth_replicate_lt {A} (k r : nat) (x d : A) :
  (r < k)%nat -> nth r (replicate k x) d = x.
Proof.
  revert r. induction k as [|k IH]; intros r Hr; [lia|].
  destruct r as [|r]; [reflexivity|]. simpl. apply IH. lia.
Qed.

Lemma length_np_tile (a : list num) (reps : nat) :
  length (np_tile a reps) = (reps * length a)%nat.
Proof.
  unfold np_tile. induction reps as [|reps IH]; [reflexivity|].
  simpl. rewrite length_app, IH. reflexivity.
Qed.

Lemma nth_np_tile (a : list num) (reps r : nat) (d : num) :
  (r < reps * length a)%nat ->
  nth r (np_tile a reps) d = nth (r mod length a) a d.
Proof.
  unfold np_tile. revert r. induction reps as [|reps IH]; intros r Hr; [simpl in Hr; lia|].
  simpl in *. destruct (Nat.lt_ge_cases r (length a)) as [Hlt|Hge].
  - rewrite app_nth1 by assumption. now rewrite Nat.mod_small.
  - rewrite app_nth2 by assumption. rewrite IH by lia.
    f_equal. assert (length a <> 0)%nat by lia.
    replace r with ((r - length a) + 1 * length a)%nat at 2 by lia.
    now rewrite Nat.Div0.mod_add.
Qed.

Lemma length_np_repeat (a : list num) (reps : nat) :
  length (np_repeat a reps) = (length a * reps)%nat.
Proof.
  unfold np_repeat. induction a as [|x a IH]; [reflexivity|].
  simpl. rewrite length_app, length_replicate, IH. reflexivity.
Qed.

Lemma nth_np_repeat (a : list num) (reps r : nat) (d : num) :
  (r < length a * reps)%nat ->
  nth r (np_repeat a reps) d = nth (r / reps) a d.
Proof.
  unfold np_repeat. revert r. induction a as [|x a IH]; intros r Hr; [simpl in Hr; lia|].
  simpl in *. assert (reps <> 0)%nat by lia.
  destruct (Nat.lt_ge_cases r reps) as [Hlt|Hge].
  - rewrite app_nth1 by now rewrite length_replicate.
    rewrite nth_replicate_lt by assumption. now rewrite Nat.div_small.
  - rewrite app_nth2 by now rewrite length_replicate.
    rewrite length_replicate, IH by lia.
    replace r with ((r - reps) + 1 * reps)%nat at 2 by lia.
    rewrite Nat.div_add by assumption.
    now replace ((r - reps) / reps + 1)%nat with (S ((r - reps) / reps)) by lia.
Qed.

Lemma total_points_app (done : list (list num)) (sp : list num) :
  total_points (done ++ [sp]) = (total_points done * length sp)%nat.
Proof.
  unfold total_points. induction done as [|a done IH]; simpl; [lia|].
  rewrite IH. lia.
Qed.

Lemma length_pick_row (setpoints : list (list num)) (r : nat) :
  length (pick_row setpoints r) = length setpoints.
Proof.
  revert r. induction setpoints as [|a rest IH]; intros r; [reflexivity|].
  simpl. now rewrite IH.
Qed.

(** Appending an array adds a slowest digit. *)
Lemma pick_row_app (done : list (list num)) (sp : list num) (r : nat) :
  (r < total_points done * length sp)%nat ->
  pick_row (done ++ [sp]) r =
  pick_row done (r mod total_points done) ++ [nth (r / total_points done) sp NaN].
Proof.
  revert r. induction done as [|a done IH]; intros r Hr.
  - change (total_points []) with 1%nat in *.
    cbn [app pick_row]. rewrite Nat.div_1_r, Nat.mod_small by lia. reflexivity.
  - change (total_points (a :: done)) with (length a * total_points done)%nat in *.
    assert (length a <> 0)%nat by lia.
    assert (total_points done <> 0)%nat by lia.
    pose proof (Nat.mod_upper_bound r (length a)) as Hx.
    assert (E : (r mod (length a * total_points done)
                 = r mod length a + (r / length a) mod total_points done * length a)%nat).
    { rewrite Nat.Div0.mod_mul_r. lia. }
    assert (E1 : ((r mod (length a * total_points done)) mod length a
                  = r mod length a)%nat).
    { rewrite E, Nat.Div0.mod_add. apply Nat.mod_small. lia. }
    assert (E2 : ((r mod (length a * total_points done)) / length a
                  = (r / length a) mod total_points done)%nat).
    { rewrite E, Nat.div_add by assumption. rewrite Nat.div_small; lia. }
    cbn [app pick_row].
    rewrite IH by (apply Nat.Div0.div_lt_upper_bound; lia).
    rewrite E1, E2, Nat.Div0.div_div. reflexivity.
Qed.

Lemma nth_map_seq {A} (f : nat -> A) (L k : nat) (d : A) :
  (k < L)%nat -> nth k (map f (seq 0 L)) d = f k.
Proof.
  intros Hk. rewrite (nth_indep _ d (f O)) by now rewrite length_map, length_seq.
  rewrite map_nth, seq_nth by assumption. reflexivity.
Qed.

Lemma map_nth_all {A} (l : list A) (d : A) :
  map (fun i => nth i l d) (seq 0 (length l)) = l.
Proof.
  induction l as [|x l IH]; [reflexivity|].
  cbn [length seq map nth]. f_equal.
  rewrite <- seq_shift, map_map. exact IH.
Qed.

Lemma nth_column (rows : list (list num)) (i k : nat) :
  nth k (map (fun row => nth i row NaN) rows) NaN = nth i (nth k rows []) NaN.
Proof.
  revert k. induction rows as [|row rows IH]; intros [|k]; simpl;
    try (destruct i; reflexivity); try reflexivity.
  apply IH.
Qed.

(** One pass of the loop of [tile_setpoints_grid]: the grid over the arrays
    handled so far is extended by the next array as its slowest column. *)
Lemma tile_step_rows (done : list (list num)) (xn : ndarray2) (sp : list num) :
  arr_ncols xn = length done ->
  arr_rows xn = map (pick_row done) (seq 0 (total_points done)) ->
  tile_step xn sp =
  mkArray2 (length (done ++ [sp]))
    (map (pick_row (done ++ [sp])) (seq 0 (total_points (done ++ [sp])))).
Proof.
  intros Hc Hr.
  assert (HL : length (arr_rows xn) = total_points done)
    by now rewrite Hr, length_map, length_seq.
  unfold tile_step, np_column_stack. rewrite HL, Hc.
  f_equal.
  - now rewrite !length_app, length_map, length_seq.
  - assert (Hn : match map (fun i => np_tile (map (fun r => nth i r NaN) (arr_rows xn))
                                       (length sp)) (seq 0 (length done))
                       ++ [np_repeat sp (total_points done)] with
                 | [] => O
                 | c :: _ => length c
                 end = total_points (done ++ [sp])).
    { rewrite total_points_app. destruct (length done) as [|k]; cbn [seq map app].
      - now rewrite length_np_repeat, Nat.mul_comm.
      - now rewrite length_np_tile, length_map, HL, Nat.mul_comm. }
    rewrite Hn. apply map_ext_in. intros r Hin.
    apply in_seq in Hin. rewrite total_points_app in Hin.
    assert (HT : total_points done <> 0%nat) by lia.
    rewrite pick_row_app by lia.
    rewrite map_app, map_map. cbn [map]. f_equal.
    + rewrite <- (map_nth_all (pick_row done (r mod total_points done)) NaN) at 1.
      rewrite length_pick_row. apply map_ext. intros i.
      rewrite nth_np_tile by (rewrite length_map, HL; lia).
      rewrite length_map, HL, nth_column, Hr.
      rewrite nth_map_seq by (apply Nat.mod_upper_bound; assumption).
      reflexivity.
    + rewrite nth_np_repeat by lia. reflexivity.
Qed.

Lemma fold_tile_step (rest done : list (list num)) (xn : ndarray2) :
  arr_ncols xn = length done ->
  arr_rows xn = map (pick_row done) (seq 0 (total_points done)) ->
  fold_left tile_step rest xn =
  mkArray2 (length (done ++ rest))
    (map (pick_row (done ++ rest)) (seq 0 (total_points (done ++ rest)))).
Proof.
  revert done xn. induction rest as [|sp rest IH]; intros done xn Hc Hr.
  - rewrite app_nil_r. destruct xn as [c rows]. simpl in *. now subst.
  - cbn [fold_left]. rewrite (tile_step_rows done) by assumption.
    replace (done ++ sp :: rest) with ((done ++ [sp]) ++ rest)
      by now rewrite <- app_assoc.
    apply IH; reflexivity.
Qed.

Lemma tile_setpoints_grid_eq (s0 : list num) (rest : list (list num)) :
  tile_setpoints_grid (s0 :: rest) =
  inr (mkArray2 (length (s0 :: rest))
         (map (pick_row (s0 :: rest)) (seq 0 (total_points (s0 :: rest))))).
Proof.
  unfold tile_setpoints_grid. f_equal.
  apply (fold_tile_step rest [s0]); [reflexivity|].
  unfold reshape_column, total_points. cbn [arr_rows map fold_right pick_row].
  rewrite Nat.mul_1_r.
  rewrite <- (map_nth_all s0 NaN) at 1. rewrite map_map.
  apply map_ext_in. intros r Hr%in_seq.
  rewrite Nat.mod_small by lia. reflexivity.
Qed.

Lemma pick_row_digits (setpoints : list (list num)) (r : nat) :
  pick_row setpoints r = row_of_choice setpoints (radix_digits (map length setpoints) r).
Proof.
  revert r. induction setpoints as [|a rest IH]; intros r; [reflexivity|].
  cbn [pick_row map radix_digits]. unfold row_of_choice. cbn [zip_with].
  f_equal. apply IH.
Qed.

Lemma radix_value_digits (lens : list nat) (r : nat) :
  (r < fold_right Nat.mul 1 lens)%nat ->
  radix_value lens (radix_digits lens r) = r.
Proof.
  revert r. induction lens as [|n lens IH]; intros r Hr.
  - simpl in *. lia.
  - cbn [fold_right radix_digits radix_value] in *.
    assert (n <> 0)%nat by lia.
    rewrite IH by (apply Nat.Div0.div_lt_upper_bound; lia).
    pose proof (Nat.div_mod_eq r n). lia.
Qed.

Lemma radix_digits_value (lens choice : list nat) :
  Forall2 lt choice lens ->
  radix_digits lens (radix_value lens choice) = choice /\
  (radix_value lens choice < fold_right Nat.mul 1 lens)%nat.
Proof.
  intros H. induction H as [|i n choice lens Hi _ [IHd IHv]].
  - simpl. split; [reflexivity | lia].
  - cbn [radix_digits radix_value fold_right].
    assert (n <> 0)%nat by lia.
    replace (i + n * radix_value lens choice)%nat
      with (i + radix_value lens choice * n)%nat by lia.
    rewrite Nat.Div0.mod_add, Nat.div_add by assumption.
    rewrite Nat.mod_small, Nat.div_small by assumption.
    cbn [Nat.add]. rewrite IHd. split; [reflexivity | nia].
Qed.

Example tile_3_by_2 :
  tile_setpoints_grid [[Num 1; Num 2; Num 3]; [Num 10; Num 20]] =
  inr (mkArray2 2 [[Num 1; Num 10]; [Num 2; Num 10]; [Num 3; Num 10];
                   [Num 1; Num 20]; [Num 2; Num 20]; [Num 3; Num 20]]).
Proof. reflexivity. Qed.

(** C10. For k >= 1 arrays of lengths n1, ..., nk, [tile_setpoints_grid]
    returns a grid of n1 * ... * nk rows and k columns. Row [r] takes from
    array [j] the position given by the [j]-th mixed-radix digit of [r],
    the first array being the least significant digit: its values vary
    fastest, and every later column repeats its array's values over all
    combinations of the earlier ones. Every choice of one position per
    array is taken by exactly one row. *)
Theorem tile_setpoints_grid_combinations (setpoints : list (list num)) :
  setpoints <> [] ->
  exists grid,
    tile_setpoints_grid setpoints = inr grid /\
    arr_ncols grid = length setpoints /\
    length (arr_rows grid) = total_points setpoints /\
    arr_wf grid /\
    (forall r, (r < total_points setpoints)%nat ->
       arr_rows grid !! r =
       Some (row_of_choice setpoints (radix_digits (map length setpoints) r))) /\
    (forall choice, Forall2 (fun i a => (i < length a)%nat) choice setpoints ->
       exists r, (r < total_points setpoints)%nat /\
         arr_rows grid !! r = Some (row_of_choice setpoints choice) /\
         forall r', (r' < total_points setpoints)%nat ->
           radix_digits (map length setpoints) r' = choice -> r' = r).
Proof.
  intros Hk. destruct setpoints as [|s0 rest]; [congruence|].
  set (sps := s0 :: rest).
  assert (Hrow : forall r, (r < total_points sps)%nat ->
            map (pick_row sps) (seq 0 (total_points sps)) !! r =
            Some (row_of_choice sps (radix_digits (map length sps) r))).
  { intros r Hr. rewrite list_lookup_fmap, lookup_seq_lt by assumption.
    simpl. now rewrite pick_row_digits. }
  eexists. split; [apply tile_setpoints_grid_eq|]. cbn [arr_ncols arr_rows].
  split; [reflexivity|].
  split; [now rewrite length_map, length_seq|].
  split.
  { unfold arr_wf. cbn [arr_ncols arr_rows]. apply Forall_forall. intros row Hrow'.
    apply list_elem_of_fmap in Hrow' as (r & -> & _). apply length_pick_row. }
  split; [exact Hrow|].
  intros choice Hch.
  assert (Hlt : Forall2 lt choice (map length sps)).
  { clearbody sps. clear -Hch. induction Hch; constructor; assumption. }
  destruct (radix_digits_value _ _ Hlt) as [Hd Hv].
  exists (radix_value (map length sps) choice).
  split; [exact Hv|]. split.
  - rewrite Hrow by exact Hv. now rewrite Hd.
  - intros r' Hr' <-. symmetry. now apply radix_value_digits.
Qed.

Lemma tile_setpoints_grid_combinations_witness :
  exists grid,
    tile_setpoints_grid [[Num 1; Num 2; Num 3]; [Num 10; Num 20]] = inr grid /\
    arr_ncols grid = 2%nat /\
    length (arr_rows grid) = 6%nat /\
    arr_wf grid /\
    (forall r, (r < 6)%nat ->
       arr_rows grid !! r =
       Some (row_of_choice [[Num 1; Num 2; Num 3]; [Num 10; Num 20]]
               (radix_digits [3; 2]%nat r))) /\
    (forall choice,
       Forall2 (fun i a => (i < length a)%nat) choice
         [[Num 1; Num 2; Num 3]; [Num 10; Num 20]] ->
       exists r, (r < 6)%nat /\
         arr_rows grid !! r =
         Some (row_of_choice [[Num 1; Num 2; Num 3]; [Num 10; Num 20]] choice) /\
         forall r', (r' < 6)%nat -> radix_digits [3; 2]%nat r' = choice -> r' = r).
Proof.
  apply (tile_setpoints_grid_combinations [[Num 1; Num 2; Num 3]; [Num 10; Num 20]]).
  discriminate.
Defined.

End Tiling.

(** * The acquisition loop *)

Arguments instrument_calls : simpl never.

Section Loop.
Context {dev : Type}.
Implicit Types (w : world dev).

Lemma evolves_trans w1 w2 w3 cs1 cs2 k1 k2 d1 d2 :
  evolves w1 w2 cs1 k1 d1 -> evolves w2 w3 cs2 k2 d2 ->
  evolves w1 w3 (cs1 ++ cs2) (k1 + k2) d2.
Proof.
  intros [] []. constructor; try congruence.
  - lia.
  - rewrite app_assoc. congruence.
Qed.

Lemma instrument_calls_app (cs cs' : list call) :
  instrument_calls (cs ++ cs') = instrument_calls cs ++ instrument_calls cs'.
Proof. apply List.filter_app. Qed.

Lemma _update_ok (dataset : Dataset) (pm : option string) (folder : string) w :
  (sp_len (_setpoints w) * soft_avg w <> 0)%nat ->
  exists w', _update dataset pm folder w = Done tt w' /\ evolves w w' [] 0 (devices w).
Proof.
  intros Htot.
  unfold _update, time_now, bind, gets. cbn -[Qle_bool Nat.eqb].
  destruct (negb _ || _)%bool.
  - unfold print_progress, _get_fracdone, bind, gets, time_now.
    cbn -[Qle_bool Nat.eqb Nat.mul Qmult].
    destruct (Nat.eqb_spec (sp_len (_setpoints w) * soft_avg w) 0); [contradiction|].
    cbn -[Qle_bool Nat.eqb Nat.mul Qmult].
    destruct (on_progress_callback w); cbn -[Qle_bool Nat.eqb Nat.mul Qmult];
      destruct (verbose w); cbn -[Qle_bool Nat.eqb Nat.mul Qmult];
      destruct (has_plotmon pm); cbn -[Qle_bool Nat.eqb Nat.mul Qmult];
      (eexists; split; [reflexivity|]);
      constructor; cbn -[Qle_bool Nat.eqb Nat.mul Qmult]; try reflexivity;
      rewrite ?instrument_calls_app, ?Nat.add_0_r; cbn; now rewrite ?app_nil_r.
  - eexists; split; [reflexivity|].
    constructor; cbn; rewrite ?Nat.add_0_r, ?app_nil_r; reflexivity.
Qed.

Lemma create_exp_folder_ok (tuid name : string) w :
  TUID_is_valid tuid = true ->
  exists folder w',
    create_exp_folder tuid name None w = Done folder w' /\
    evolves w w' [] 0 (devices w) /\
    instr_plotmon w' = instr_plotmon w.
Proof.
  intros Hv. unfold create_exp_folder. rewrite Hv. cbn [negb].
  unfold get_datadir, bind, gets, fs_do, modify, ret.
  destruct (_datadir w); cbn [_datadir];
    (eexists _, _; split; [reflexivity|]; split; [|reflexivity]);
    constructor; cbn; rewrite ?app_nil_r, ?Nat.add_0_r; reflexivity.
Qed.

End Loop.

Section SoftLoopExample.

Import Example.
Implicit Types (w : world num).

Lemma fmt_idx_y0 : fmt_idx "y" 0 = "y0".
Proof. reflexivity. Qed.

Lemma soft_body_example (pm : option string) (folder : string) (b : bool)
    (idx : nat) (z : Z) (X : DataArray) (ys : list num) ay attrs w :
  da_name X <> "y0" ->
  _settable_pars w = [sx] -> _gettable_pars w = [gy b] ->
  (sp_len (_setpoints w) * soft_avg w <> 0)%nat ->
  (idx < length ys)%nat ->
  exists w',
    soft_body pm folder idx [Num z] (xy_dataset X ys ay attrs) w =
      Done (xy_dataset X (<[idx := Num (2 * z)]> ys) ay attrs) w' /\
    evolves w w' [CSet "x" (Num z); CGet "y"] 1 (Num z).
Proof.
  intros HX Hs Hg Htot Hidx.
  unfold soft_body. unfold bind at 1, gets at 1. rewrite Hs.
  cbn [combine for_each fst snd].
  unfold bind at 1. unfold bind at 1.
  unfold settable_set, log_call, on_devices, bind, gets, modify, ret.
  cbn [s_set sx lift ret devices set_calls set_devices calls _gettable_pars].
  rewrite Hg. cbn [for_enum]. rewrite fmt_idx_y0.
  unfold gettable_get, log_call, bind, gets, modify, ret.
  cbn [g_get gy devices set_calls set_devices lift ret fst snd double calls].
  unfold store_value, ds_getitem, ds_set_value, xy_dataset.
  assert (HXb : String.eqb (da_name X) "y0" = false) 
    by (destruct (String.eqb_spec (da_name X) "y0"); [contradiction|reflexivity]).
  cbn [data_vars find_var da_name]. rewrite HXb.
  cbn [String.eqb Ascii.eqb Bool.eqb da_values da_name da_attrs replace_var ds_attrs lift ret].
  destruct (Nat.ltb_spec idx (length ys)); [|lia].
  rewrite HXb.
  cbn [lift ret String.eqb Ascii.eqb Bool.eqb].
  match goal with
  | |- context [_update ?ds pm folder ?w1] =>
      destruct (_update_ok ds pm folder w1) as (w' & Hup & Hfr)
  end.
  { cbn. exact Htot. }
  rewrite Hup. eexists. split; [reflexivity|].
  destruct Hfr as [? ? ? ? ? ? Hc]. cbn in *.
  constructor; cbn; try assumption.
  - lia.
  - rewrite Hc, !instrument_calls_app. cbn.
    rewrite ?app_nil_r, <- ?app_assoc. reflexivity.
Qed.

Lemma soft_loop_example (pm : option string) (folder : string) (b : bool)
    (X : DataArray) ay attrs (zs : list Z) :
  da_name X <> "y0" ->
  forall (idx : nat) (ys : list num) w,
    _settable_pars w = [sx] -> _gettable_pars w = [gy b] ->
    (zs <> [] -> sp_len (_setpoints w) * soft_avg w <> 0)%nat ->
    length ys = (idx + length zs)%nat ->
    exists w',
      for_enum idx (map (fun z => [Num z]) zs) (xy_dataset X ys ay attrs)
        (soft_body pm folder) w =
        Done (xy_dataset X (take idx ys ++ map (fun z => Num (2 * z)) zs) ay attrs) w' /\
      evolves w w' (flat_map (fun z => [CSet "x" (Num z); CGet "y"]) zs) (length zs)
        (fold_left (fun _ z => Num z) zs (devices w)).
Proof.
  intros HX. induction zs as [|z zs IH]; intros idx ys w Hs Hg Htot Hlen.
  - exists w. cbn [map for_enum flat_map fold_left length]. split.
    + unfold ret. rewrite app_nil_r, take_ge by (simpl in Hlen; lia). reflexivity.
    + constructor; rewrite ?app_nil_r, ?Nat.add_0_r; reflexivity.
  - cbn [map for_enum]. simpl in Hlen.
    assert (Htot' : (sp_len (_setpoints w) * soft_avg w <> 0)%nat)
      by (apply Htot; discriminate).
    destruct (soft_body_example pm folder b idx z X ys ay attrs w HX Hs Hg Htot')
      as (w1 & Hbody & Hev1); [lia|].
    unfold bind. rewrite Hbody.
    destruct (IH (S idx) (<[idx := Num (2 * z)]> ys) w1) as (w2 & Hloop & Hev2).
    + rewrite (ev_settables _ _ _ _ _ Hev1). exact Hs.
    + rewrite (ev_gettables _ _ _ _ _ Hev1). exact Hg.
    + intros _. rewrite (ev_setpoints _ _ _ _ _ Hev1), (ev_soft_avg _ _ _ _ _ Hev1).
      exact Htot'.
    + rewrite length_insert. lia.
    + exists w2. split.
      * rewrite Hloop. do 2 f_equal.
        rewrite (take_S_r _ _ (Num (2 * z))) by (apply list_lookup_insert_eq; lia).
        rewrite take_insert_ge by lia. rewrite <- app_assoc. reflexivity.
      * pose proof (evolves_trans _ _ _ _ _ _ _ _ _ Hev1 Hev2) as Hev.
        cbn [flat_map fold_left length]. 
        rewrite (ev_devices _ _ _ _ _ Hev1) in Hev. exact Hev.
Qed.

Lemma fmt_idx_x0 : fmt_idx "x" 0 = "x0".
Proof. reflexivity. Qed.

Ltac mcbn :=
  cbn -[Qle_bool tuid_text path_join String.append TUID_is_valid insert lookup union
        empty singletonM fmt_idx for_enum soft_body _finish _prepare
        create_exp_folder initialize_dataset par_attrs replicate str_take str_drop].

Lemma prepare_example (b : bool) w :
  _settable_pars w = [sx] -> _gettable_pars w = [gy b] -> _prepare w = Done tt w.
Proof.
  intros Hs Hg. unfold _prepare, try_except_AttributeError, bind, gets.
  rewrite Hs. cbn. rewrite Hg. reflexivity.
Qed.

Lemma finish_example (b : bool) w :
  _settable_pars w = [sx] -> _gettable_pars w = [gy b] -> _finish w = Done tt w.
Proof.
  intros Hs Hg. unfold _finish, try_except_AttributeError, bind, gets.
  rewrite Hs, Hg. reflexivity.
Qed.



Lemma run_attrs_tuid (vars : list DataArray) (tuid name : string)
    (pinfo : gmap string attr) :
  pinfo !! "tuid" = None ->
  ds_attr_str (ds_update_attrs (ds_set_attr (mkDataset vars (<["tuid" := AStr tuid]> ∅))
                                  "name" (AStr name)) pinfo) "tuid" = inr tuid.
Proof.
  intros Hp. unfold ds_attr_str, ds_update_attrs, ds_set_attr. cbn [ds_attrs].
  rewrite lookup_union_r by exact Hp.
  rewrite lookup_insert_ne by discriminate. rewrite lookup_insert_eq. reflexivity.
Qed.

Lemma run_attrs_name (vars : list DataArray) (tuid name : string)
    (pinfo : gmap string attr) :
  pinfo !! "name" = None ->
  ds_attr_str (ds_update_attrs (ds_set_attr (mkDataset vars (<["tuid" := AStr tuid]> ∅))
                                  "name" (AStr name)) pinfo) "name" = inr name.
Proof.
  intros Hp. unfold ds_attr_str, ds_update_attrs, ds_set_attr. cbn [ds_attrs].
  rewrite lookup_union_r by exact Hp.
  rewrite lookup_insert_eq. reflexivity.
Qed.

Lemma run_soft_example (zs : list Z) (fuel : nat) (name : string) w :
  _settable_pars w = [sx] ->
  _setpoints w = SpArray (reshape_column (map Num zs)) ->
  _gettable_pars w = [gy true] ->
  soft_avg w <> 0%nat ->
  _plot_info w !! "tuid" = None ->
  _plot_info w !! "name" = None ->
  1000 <= year (datetime_now w (n_now w)) ->
  (6 <= String.length (uuid4 w (n_uuid w)))%nat ->
  exists dataset w' x0 y0,
    run fuel name w = Done dataset w' /\
    ds_getitem dataset "x0" = inr x0 /\ da_values x0 = map Num zs /\
    ds_getitem dataset "y0" = inr y0 /\ da_values y0 = map (fun z => Num (2 * z)) zs /\
    instrument_calls (calls w') =
      instrument_calls (calls w) ++ flat_map (fun z => [CSet "x" (Num z); CGet "y"]) zs /\
    _nr_acquired_values w' = length zs.
Proof.
  intros Hs Hsp Hg Havg Hpt Hpn Hy Hu.
  destruct w as [dd dflt spars sp gpars acq bt lu pinfo vb cb avg pmon ivl dv cs dk tt nt
                   nowf nn uu nu].
  cbn in Hs, Hsp, Hg, Havg, Hpt, Hpn, Hy, Hu. subst spars sp gpars.
  unfold run, bind, first_gettable, modify, gets, time_now, ret. mcbn.
  rewrite initialize_dataset_eq by (cbn; lia). mcbn.
  unfold built_dataset.
  rewrite run_attrs_tuid, run_attrs_name by assumption. cbn [lift ret].
  match goal with
  | |- context [create_exp_folder ?t ?n None ?w1] =>
      destruct (create_exp_folder_ok t n w1 (tuid_text_valid _ _ Hy Hu))
        as (folder & w2 & Hfolder & Hev2 & Hpm2)
  end.
  rewrite Hfolder.
  destruct Hev2 as [Hs2 Hsp2 Hg2 Havg2 Hacq2 Hdv2 Hcs2].
  cbn in Hs2, Hsp2, Hg2, Havg2, Hacq2, Hdv2, Hcs2.
  rewrite (prepare_example true) by (cbn; assumption).
  mcbn.
  set (X := x_array (reshape_column (map Num zs)) 0 sx).
  set (ay := par_attrs (g_name (gy true)) (g_label (gy true)) (g_unit (gy true))).
  set (attrs := pinfo ∪ <["name" := AStr name]> (<["tuid" := AStr (tuid_text (nowf nn) (uu nu))]> ∅)).
  rewrite !length_map, map_map.
  destruct (has_plotmon (instr_plotmon w2)); unfold log_call, modify; mcbn.
  all: match goal with
  | |- context [for_enum 0 _ ?ds (soft_body ?pm ?fo) ?w4] =>
      change ds with (xy_dataset X (replicate (length zs) NaN) ay attrs)
  end.
  all: match goal with
  | |- context [for_enum 0 _ _ (soft_body ?pm ?fo) ?w4] =>
      destruct (soft_loop_example pm fo true X ay attrs zs) with (idx := O)
        (ys := replicate (length zs) NaN) (w := w4)
        as (w5 & Hloop & Hev5);
      [ discriminate
      | cbn; exact Hs2
      | cbn; exact Hg2
      | intros Hz; cbn; rewrite Hsp2, Havg2; cbn; rewrite !length_map;
        destruct zs; [congruence | simpl; lia]
      | now rewrite length_replicate
      | ]
  end.
  all: rewrite Hloop.
  all: destruct Hev5 as [Hs5 Hsp5 Hg5 Havg5 Hacq5 Hdv5 Hcs5];
    cbn in Hs5, Hsp5, Hg5, Havg5, Hacq5, Hdv5, Hcs5.
  all: rewrite (finish_example true) by congruence.
  all: eexists _, _, _, _; split; [reflexivity|].
  all: cbn [take app].
  all: split; [reflexivity|]; split;
    [subst X; cbn; rewrite !map_map; reflexivity|].
  all: split; [reflexivity|]; split; [reflexivity|].
  all: split; [|cbn; rewrite Hacq5; cbn; rewrite Hacq2; reflexivity].
  all: cbn; rewrite Hcs5; cbn; rewrite ?instrument_calls_app, Hcs2; cbn;
    rewrite ?app_nil_r; reflexivity.
Qed.

End SoftLoopExample.

(** C1. A fresh measurement control is configured with one settable, the
    set-points 0, 1, 2 and a gettable of the loop in which the measurement
    control itself steps through the set-points (the row loop of [run]),
    whose [get()] returns twice the value last set. Whatever the clock
    (reading a year of four digits), the uuid and the name are, [run] sets
    the settable to the value of each row in row order, reads the gettable
    once after each, stores the result at the row's index and returns a
    dataset with [y0 = [0, 2, 4]], having acquired three values. *)
Theorem run_soft_loop_doubles (default_datadir : string) (d : num)
    (clock : nat -> Q) (nowf : nat -> datetime) (uuidf : nat -> string)
    (fuel : nat) (name : string) :
  1000 <= year (nowf O) ->
  (6 <= String.length (uuidf O))%nat ->
  exists dataset w' x0 y0,
    Example.session true fuel name (fresh_world default_datadir d clock nowf uuidf)
      = Done dataset w' /\
    ds_getitem dataset "x0" = inr x0 /\ da_values x0 = [Num 0; Num 1; Num 2] /\
    ds_getitem dataset "y0" = inr y0 /\ da_values y0 = [Num 0; Num 2; Num 4] /\
    instrument_calls (calls w') =
      [CSet "x" (Num 0); CGet "y"; CSet "x" (Num 1); CGet "y";
       CSet "x" (Num 2); CGet "y"] /\
    _nr_acquired_values w' = 3%nat.
Proof.
  intros Hy Hu.
  apply (run_soft_example [0; 1; 2] fuel name); try reflexivity.
  - cbn. discriminate.
  - exact Hy.
  - exact Hu.
Qed.

Lemma run_soft_loop_doubles_witness :
  exists dataset w' x0 y0,
    Example.session true 0 "exp" (fresh_world "/data" NaN Example.clock
                                    (fun _ => Example.ts_a) (fun _ => Example.uuid_a))
      = Done dataset w' /\
    ds_getitem dataset "x0" = inr x0 /\ da_values x0 = [Num 0; Num 1; Num 2] /\
    ds_getitem dataset "y0" = inr y0 /\ da_values y0 = [Num 0; Num 2; Num 4] /\
    instrument_calls (calls w') =
      [CSet "x" (Num 0); CGet "y"; CSet "x" (Num 1); CGet "y";
       CSet "x" (Num 2); CGet "y"] /\
    _nr_acquired_values w' = 3%nat.
Proof.
  apply (run_soft_loop_doubles "/data" NaN Example.clock
           (fun _ => Example.ts_a) (fun _ => Example.uuid_a) 0 "exp").
  - vm_compute. discriminate.
  - vm_compute. lia.
Defined.

(** * Running without the required configuration *)

Section Unconfigured.

Context {dev : Type}.

(** C5 (as amended). When no gettable is configured, or the set-points were
    never configured (they are still the empty list of a fresh measurement
    control), [run] fails before any I/O: it raises [IndexError],
    respectively [TypeError], having created no directory, written no file
    and called no collaborator. *)
Theorem run_unconfigured_fails_before_io (fuel : nat) (name : string) (w : world dev) :
  _gettable_pars w = [] \/ _setpoints w = SpList ->
  exists e w',
    run fuel name w = Raised e w' /\
    (_gettable_pars w = [] /\ e = IndexError \/
     _gettable_pars w <> [] /\ e = TypeError) /\
    disk w' = disk w /\
    calls w' = calls w.
Proof.
  intros H.
  destruct w as [dd dflt spars sp gpars acq bt lu pinfo vb cb avg pmon ivl dv cs dk tt nt
                   nowf nn uu nu].
  cbn in H.
  unfold run, bind, first_gettable, modify, gets, time_now, ret.
  cbn [_gettable_pars set_begintime set_n_time set_nr_acquired_values n_time time_time].
  destruct gpars as [|g gpars].
  - eexists _, _. split; [reflexivity|]. split; [left; now split|]. split; reflexivity.
  - destruct H as [H|H]; [discriminate|]. subst sp.
    cbn [_settable_pars _setpoints _gettable_pars].
    unfold initialize_dataset, bind.
    destruct spars as [|s spars]; cbn [settable_darrs sp_col lift raise ret];
      (eexists _, _; split; [reflexivity|]; split; [right; now split|]; split; reflexivity).
Qed.

End Unconfigured.

Lemma run_unconfigured_fails_before_io_witness :
  exists e w',
    run 0 "exp" (Example.lab NaN Example.uuid_a) = Raised e w' /\
    (_gettable_pars (Example.lab NaN Example.uuid_a) = [] /\ e = IndexError \/
     _gettable_pars (Example.lab NaN Example.uuid_a) <> [] /\ e = TypeError) /\
    disk w' = disk (Example.lab NaN Example.uuid_a) /\
    calls w' = calls (Example.lab NaN Example.uuid_a).
Proof.
  apply (run_unconfigured_fails_before_io 0 "exp" (Example.lab NaN Example.uuid_a)).
  left. reflexivity.
Defined.

(** C5 as stated fails: a run with no settable, and a run over a grid with
    no row, are both accepted; each creates the experiment directory and
    writes the dataset and the snapshot, and returns a dataset. *)
Lemma run_accepts_no_settable_and_empty_grid :
  (exists dataset w',
     Example.no_settable_session 0 "" (Example.lab NaN Example.uuid_a) = Done dataset w' /\
     _settable_pars w' = [] /\
     take 3 (disk w') =
       [MakeDirs "/data/20200430/170837-000-315f36";
        WriteDataset "/data/20200430/170837-000-315f36/dataset.hdf5"
          (mkDataset [mkDataArray "y0" [NaN] (par_attrs "y" "Signal amplitude" "V")]
             (<["2D-grid" := ABool false]>
                (<["name" := AStr ""]>
                   (<["tuid" := AStr "20200430-170837-000-315f36"]> ∅))));
        WriteSnapshot "/data/20200430/170837-000-315f36/snapshot.json"]) /\
  (exists dataset w',
     Example.empty_grid_session 0 "" (Example.lab NaN Example.uuid_a) = Done dataset w' /\
     sp_len (_setpoints w') = 0%nat /\
     map da_values (data_vars dataset) = [[]; []] /\
     length (disk w') = 4%nat).
Proof.
  split.
  - vm_compute. eexists _, _. split; [reflexivity|]. split; reflexivity.
  - vm_compute. eexists _, _. split; [reflexivity|]. repeat split; reflexivity.
Qed.

(** * The optional hooks *)

Section Hooks.

Context {dev : Type}.
Implicit Types (w : world dev).

Lemma settable_finish_eq (p : Settable dev) w :
  settable_finish p w =
  match s_finish p with
  | None => Raised AttributeError w
  | Some f =>
      let w1 := set_calls (calls w ++ [CFinish RSettable (s_name p)]) w in
      match f (devices w) with
      | inl e => Raised e w1
      | inr d' => Done tt (set_devices d' w1)
      end
  end.
Proof.
  unfold settable_finish. destruct (s_finish p) as [f|]; [|reflexivity].
  unfold log_call, on_devices, bind, modify, gets. cbn [devices set_calls].
  destruct (f (devices w)); reflexivity.
Qed.

Lemma settable_finish_calls (ps : list (Settable dev)) w :
  ends_in (for_each ps settable_finish w) (fun w' =>
    exists cs, calls w' = calls w ++ cs /\
               Forall (fun c => is_gettable_finish c = false) cs).
Proof.
  revert w. induction ps as [|p ps IH]; intros w.
  - cbn. exists []. now rewrite app_nil_r.
  - cbn [for_each]. unfold bind at 1. rewrite settable_finish_eq.
    destruct (s_finish p) as [f|].
    + cbn zeta. destruct (f (devices w)) as [e|d'].
      * cbn. exists [CFinish RSettable (s_name p)]. split; [reflexivity|].
        repeat constructor.
      * specialize (IH (set_devices d'
                          (set_calls (calls w ++ [CFinish RSettable (s_name p)]) w))).
        destruct (for_each ps settable_finish _) as [? w'|? w'|]; cbn in IH |- *;
          try contradiction;
          destruct IH as (cs & Hcs & Hall);
          (exists (CFinish RSettable (s_name p) :: cs); split;
           [rewrite Hcs, <- app_assoc; reflexivity | constructor; [reflexivity | exact Hall]]).
    + cbn. exists []. now rewrite app_nil_r.
Qed.

(** With a gettable configured, [_finish] invokes no gettable's hook. *)
Lemma finish_skips_gettables w :
  _gettable_pars w <> [] ->
  ends_in (_finish w) (fun w' =>
    exists cs, calls w' = calls w ++ cs /\
               Forall (fun c => is_gettable_finish c = false) cs).
Proof.
  intros Hg. unfold _finish, try_except_AttributeError, bind, gets.
  destruct (_gettable_pars w) as [|g gs]; [congruence|]. cbn [py_and].
  pose proof (settable_finish_calls (_settable_pars w) w) as H.
  destruct (for_each (_settable_pars w) settable_finish w) as [? w'|e w'|];
    cbn in H |- *; [exact H | destruct e; exact H | exact H].
Qed.

End Hooks.

(** C4 (the code differs). [_finish] goes through the settables only: the
    [finish] hook of a gettable is never invoked. And because one [try]
    encloses each whole loop, the first target that lacks a hook ends the
    loop: the hooks of the targets after it are not invoked. *)
Theorem hooks_skipped :
  (exists w',
     _finish (Example.with_pars [Example.s_hooked "a"] [Example.g_hooked "y"]
                (Example.lab NaN Example.uuid_a)) = Done tt w' /\
     calls w' = [CFinish RSettable "a"]) /\
  (exists w',
     _prepare (Example.with_pars [Example.s_bare "a"; Example.s_hooked "b"]
                 [Example.g_hooked "y"] (Example.lab NaN Example.uuid_a)) = Done tt w' /\
     calls w' = [CPrepare RGettable "y"]) /\
  (exists w',
     _finish (Example.with_pars [Example.s_bare "a"; Example.s_hooked "b"]
                [Example.g_hooked "y"] (Example.lab NaN Example.uuid_a)) = Done tt w' /\
     calls w' = []).
Proof.
  repeat split; vm_compute; eexists; split; reflexivity.
Qed.

(** * The bulk-read loop *)

Section BulkRead.

Context {dev : Type}.
Implicit Types (w : world dev).

(** The loop condition holds as long as fewer than a hundred times the
    expected number of values have been acquired. *)
Lemma hard_loop_continues (fuel : nat) (pm : option string) (folder : string)
    (dataset : Dataset) w :
  (sp_len (_setpoints w) * soft_avg w <> 0)%nat ->
  (_nr_acquired_values w < 100 * (sp_len (_setpoints w) * soft_avg w))%nat ->
  hard_loop (S fuel) pm folder dataset w =
  bind (hard_body pm folder dataset) (hard_loop fuel pm folder) w.
Proof.
  intros Htot Hacq. cbn [hard_loop].
  unfold bind at 1. unfold _get_fracdone, bind, gets.
  destruct (Nat.eqb_spec (sp_len (_setpoints w) * soft_avg w) 0); [contradiction|].
  unfold ret.
  assert (Hq : Qle_bool 100 (Z.of_nat (_nr_acquired_values w)
                              # Pos.of_nat (sp_len (_setpoints w) * soft_avg w)) = false).
  { unfold Qle_bool. cbn [Qnum Qden]. apply Z.leb_gt.
    rewrite Z.mul_1_r.
    assert (Z.pos (Pos.of_nat (sp_len (_setpoints w) * soft_avg w))
            = Z.of_nat (sp_len (_setpoints w) * soft_avg w)) as ->.
    { destruct (sp_len (_setpoints w) * soft_avg w)%nat as [|k] eqn:E; [congruence|].
      rewrite <- Pos.of_nat_succ. lia. }
    lia. }
  rewrite Hq. reflexivity.
Qed.

(** It fails as soon as that many values are in. *)
Lemma hard_loop_stops (fuel : nat) (pm : option string) (folder : string)
    (dataset : Dataset) w :
  (sp_len (_setpoints w) * soft_avg w <> 0)%nat ->
  (100 * (sp_len (_setpoints w) * soft_avg w) <= _nr_acquired_values w)%nat ->
  hard_loop fuel pm folder dataset w = Done dataset w.
Proof.
  intros Htot Hacq.
  assert (Hq : Qle_bool 100 (Z.of_nat (_nr_acquired_values w)
                              # Pos.of_nat (sp_len (_setpoints w) * soft_avg w)) = true).
  { unfold Qle_bool. cbn [Qnum Qden]. apply Z.leb_le.
    rewrite Z.mul_1_r.
    assert (Z.pos (Pos.of_nat (sp_len (_setpoints w) * soft_avg w))
            = Z.of_nat (sp_len (_setpoints w) * soft_avg w)) as ->.
    { destruct (sp_len (_setpoints w) * soft_avg w)%nat as [|k] eqn:E; [congruence|].
      rewrite <- Pos.of_nat_succ. lia. }
    lia. }
  destruct fuel; cbn [hard_loop]; unfold bind, _get_fracdone, bind, gets;
    destruct (Nat.eqb_spec (sp_len (_setpoints w) * soft_avg w) 0); try contradiction;
    unfold ret; rewrite Hq; reflexivity.
Qed.

Lemma ds_set_value_y0 (X : DataArray) (ys : list num) ay attrs (j : nat) (dp : num) :
  da_name X <> "y0" ->
  (j < length ys)%nat ->
  ds_set_value (xy_dataset X ys ay attrs) (fmt_idx "y" 0) j dp =
  inr (xy_dataset X (<[j := dp]> ys) ay attrs).
Proof.
  intros HX Hj.
  assert (HXb : String.eqb (da_name X) "y0" = false)
    by (destruct (String.eqb_spec (da_name X) "y0"); [contradiction|reflexivity]).
  change (fmt_idx "y" 0) with "y0".
  unfold ds_set_value, xy_dataset.
  cbn [data_vars find_var da_name replace_var]. rewrite ?HXb.
  cbn [String.eqb Ascii.eqb Bool.eqb da_values].
  destruct (Nat.ltb_spec j (length ys)); [|lia].
  rewrite ?HXb. reflexivity.
Qed.

(** Writing a row of a block: the values go to the indices counted from
    the start of the row's enumeration, whatever has been acquired before. *)
Lemma write_row_at (X : DataArray) ay attrs (row : list num) :
  da_name X <> "y0" ->
  forall (j : nat) (ys : list num) w,
    (j + length row <= length ys)%nat ->
    for_enum j row (xy_dataset X ys ay attrs)
      (fun j dp ds => lift (ds_set_value ds (fmt_idx "y" 0) j dp)) w =
    Done (xy_dataset X (take j ys ++ row ++ drop (j + length row) ys) ay attrs) w.
Proof.
  intros HX.
  induction row as [|dp row IH]; intros j ys w Hlen.
  - cbn [for_enum length app]. rewrite Nat.add_0_r, take_drop. reflexivity.
  - cbn [for_enum length] in *. unfold bind at 1.
    rewrite ds_set_value_y0 by (assumption || lia). cbn [lift ret].
    rewrite IH by (rewrite length_insert; lia).
    do 2 f_equal.
    rewrite (take_S_r _ _ dp) by (apply list_lookup_insert_eq; lia).
    rewrite take_insert_ge by lia.
    rewrite drop_insert_lt by lia.
    rewrite <- app_assoc. cbn [app].
    now replace (S j + length row)%nat with (j + S (length row))%nat by lia.
Qed.

(** A one-row block overwrites the array from index 0 and counts its
    length, independently of the acquired-count of the world. *)
Lemma write_block_from_index_0 (X : DataArray) (ys : list num) ay attrs
    (row : list num) w :
  da_name X <> "y0" ->
  (length row <= length ys)%nat ->
  write_block [row] (xy_dataset X ys ay attrs) w =
  Done (xy_dataset X (row ++ drop (length row) ys) ay attrs, length row) w.
Proof.
  intros HX Hlen. unfold write_block. cbn [for_enum fst].
  unfold bind. rewrite (write_row_at X ay attrs row HX 0 ys w) by (simpl; lia).
  reflexivity.
Qed.

End BulkRead.

(** C2 (the code differs). Every block of a bulk read is written from index
    0 of the gettable array, not from the number of points already
    acquired: after two reads of the counting source the second point has
    replaced the first and index 1 is still not-a-number, and at the end of
    the run over two set-points the array holds the last of the 200 points
    delivered, and nothing else. The acquired-count does add up the points
    of all blocks. *)
Theorem hard_loop_writes_from_index_0 :
  (exists dataset w',
     Example.two_bulk_reads (Example.lab NaN Example.uuid_a) = Done dataset w' /\
     dataset = xy_dataset (mkDataArray "x0" [Num 0; Num 1] ∅) [Num 2; NaN] ∅ ∅ /\
     _nr_acquired_values w' = 2%nat /\
     instrument_calls (calls w') = [CGet "y"; CGet "y"]) /\
  (exists dataset w' y0,
     Example.counting_session 200 "" (Example.lab NaN Example.uuid_a) = Done dataset w' /\
     ds_getitem dataset "y0" = inr y0 /\
     da_values y0 = [Num 200; NaN] /\
     _nr_acquired_values w' = 200%nat /\
     instrument_calls (calls w') = replicate 200 (CGet "y")).
Proof.
  split.
  - vm_compute. eexists _, _. repeat split; reflexivity.
  - vm_compute. eexists _, _, _. repeat split; reflexivity.
Qed.

(** C3 (the code differs). The loop compares the fraction done, which is 1
    when every point is in, with 100. Over one set-point, with a source
    that delivers one point per read, the loop does not stop after the
    first read: 99 more reads are made, and the run ends with 100 values
    acquired where one was expected. *)
Theorem hard_loop_runs_to_hundredfold :
  Example.one_point_session 99 "" (Example.lab NaN Example.uuid_a) = OutOfFuel /\
  exists dataset w',
    Example.one_point_session 100 "" (Example.lab NaN Example.uuid_a) = Done dataset w' /\
    sp_len (_setpoints w') = 1%nat /\ soft_avg w' = 1%nat /\
    _nr_acquired_values w' = 100%nat /\
    instrument_calls (calls w') = replicate 100 (CGet "y").
Proof.
  split.
  - vm_compute. reflexivity.
  - vm_compute. eexists _, _. repeat split; reflexivity.
Qed.

(** * Further properties of the data handling functions *)

Section DatadirAccessors.

Context {dev : Type}.
Implicit Types (w : world dev).

(** X1. [get_datadir] never fails and is idempotent: what it returned once
    it returns again, without changing the state any further. After
    [set_datadir(d)] it returns [d]; after [set_datadir(None)] it returns
    the default directory. *)
Theorem datadir_get_after_set w (d : string) :
  (exists d0 w', get_datadir w = Done d0 w' /\ get_datadir w' = Done d0 w') /\
  (set_datadir (Some d) ;;; get_datadir) w = Done d (set_datadir_field (Some d) w) /\
  (set_datadir None ;;; get_datadir) w =
    Done (_default_datadir w) (set_datadir_field (Some (_default_datadir w)) w).
Proof.
  split; [|split; reflexivity].
  unfold get_datadir, bind, gets, modify, ret.
  destruct (_datadir w) as [d0|] eqn:E.
  - exists d0, w. rewrite E. split; reflexivity.
  - eexists _, _. split; reflexivity.
Qed.

End DatadirAccessors.

Section TuidCollisions.

Context {dev : Type}.
Implicit Types (w : world dev).

Lemma str_app_inj_length (a c b d : string) :
  String.length a = String.length c -> a +:+ b = c +:+ d -> a = c /\ b = d.
Proof.
  revert c. induction a as [|x a IH]; intros [|y c] Hlen H; try discriminate Hlen.
  - now rewrite !append_nil in H.
  - rewrite !append_cons in H. injection H as -> H.
    simpl in Hlen. destruct (IH c) as [-> ->]; [congruence | exact H | split; reflexivity].
Qed.

Lemma zpad_inj (k : nat) (n m : Z) :
  0 <= n < 10 ^ Z.of_nat k -> 0 <= m < 10 ^ Z.of_nat k ->
  zpad k n = zpad k m -> n = m.
Proof.
  intros Hn Hm H. apply Z.compare_eq.
  rewrite <- (zpad_compare_small k n m Hn Hm), H.
  clear. induction (zpad k m) as [|c s IH]; [reflexivity|].
  simpl. unfold Ascii.compare. now rewrite N.compare_refl.
Qed.

(** X2. Two identifiers generated from valid timestamps with years of
    four digits are equal only if the wall-clock fields of the timestamps
    agree down to the millisecond and the first six characters of their
    uuids agree: nothing else of the inputs can make two identifiers
    collide. (The offset of an aware timestamp is not part of its
    identifier.) *)
Theorem gen_tuid_collision (t1 t2 : datetime) (w1 w2 : world dev) (id : string)
    (w1' w2' : world dev) :
  valid_datetime t1 = true ->
  valid_datetime t2 = true ->
  1000 <= year t1 ->
  1000 <= year t2 ->
  gen_tuid (Some t1) w1 = Done id w1' ->
  gen_tuid (Some t2) w2 = Done id w2' ->
  ms_fields t1 = ms_fields t2 /\
  str_take 6 (uuid4 w1 (n_uuid w1)) = str_take 6 (uuid4 w2 (n_uuid w2)).
Proof.
  intros V1 V2 Y1 Y2 H1 H2.
  rewrite gen_tuid_at in H1, H2.
  injection H1 as H1 _. injection H2 as H2 _. rewrite <- H2 in H1. clear H2.
  apply valid_datetime_ranges in V1 as (Hy1 & Hm1 & Hd1 & Hh1 & Hmi1 & Hs1 & Hus1).
  apply valid_datetime_ranges in V2 as (Hy2 & Hm2 & Hd2 & Hh2 & Hmi2 & Hs2 & Hus2).
  assert (Hms1 : 0 <= microsecond t1 / 1000 < 1000)
    by (split; [apply Z.div_pos; lia | apply Z.div_lt_upper_bound; lia]).
  assert (Hms2 : 0 <= microsecond t2 / 1000 < 1000)
    by (split; [apply Z.div_pos; lia | apply Z.div_lt_upper_bound; lia]).
  unfold tuid_text, tuid_head in H1.
  rewrite (decimal_width_4 _ Y1), (decimal_width_4 _ Y2) in H1.
  rewrite !(Z.mod_small (microsecond _) 1000000) in H1 by assumption.
  rewrite ?str_app_assoc in H1.
  repeat match type of H1 with
         | zpad ?k ?n +:+ _ = zpad ?k ?m +:+ _ =>
             let E := fresh "E" in
             apply str_app_inj_length in H1 as [E H1];
             [apply zpad_inj in E; [|simpl; lia..] | now rewrite !zpad_length]
         | "-" +:+ _ = "-" +:+ _ =>
             apply str_app_inj_length in H1 as [_ H1]; [|reflexivity]
         end.
  unfold ms_fields. split; [congruence | exact H1].
Qed.

End TuidCollisions.

Lemma gen_tuid_collision_witness :
  ms_fields Example.ts_a = ms_fields Scenario.ts_same_ms /\
  str_take 6 Example.uuid_a = str_take 6 Scenario.uuid_same_prefix.
Proof.
  apply (gen_tuid_collision Example.ts_a Scenario.ts_same_ms
           (Example.lab tt Example.uuid_a) (Example.lab tt Scenario.uuid_same_prefix)
           "20200430-170837-000-315f36"
           (set_n_uuid 1 (Example.lab tt Example.uuid_a))
           (set_n_uuid 1 (Example.lab tt Scenario.uuid_same_prefix)));
    first [reflexivity | vm_compute; discriminate].
Defined.

Section ExperimentFolder.

Context {dev : Type}.
Implicit Types (w : world dev).

Lemma digit_char_not_slash (d : Z) :
  0 <= d < 10 -> Ascii.eqb (digit_char d) "/" = false.
Proof.
  intros H. destruct (digit_cases d H) as [->|[->|[->|[->|[->|[->|[->|[->|[->| ->]]]]]]]]];
    reflexivity.
Qed.

Lemma str_ends_with_app (c : ascii) (a s : string) :
  s <> "" -> str_ends_with c (a +:+ s) = str_ends_with c s.
Proof.
  intros Hs. induction a as [|x a IH]; [reflexivity|].
  rewrite append_cons. cbn [str_ends_with]. rewrite IH.
  destruct (a +:+ s) eqn:E; [|reflexivity].
  destruct a; [rewrite append_nil in E; contradiction | rewrite append_cons in E; discriminate].
Qed.

(** The date segment and the rest of a generated identifier. *)
Lemma tuid_text_date (t : datetime) (u : string) :
  1000 <= year t ->
  str_take 8 (tuid_text t u) = zpad 4 (year t) +:+ zpad 2 (month t) +:+ zpad 2 (day t).
Proof.
  intros Hy. unfold tuid_text, tuid_head. rewrite (decimal_width_4 _ Hy). cbn [zpad].
  repeat (rewrite append_cons || rewrite append_nil). reflexivity.
Qed.

Lemma tuid_text_rest (t : datetime) (u : string) :
  1000 <= year t ->
  str_drop 9 (tuid_text t u) =
  zpad 2 (hour t) +:+ zpad 2 (minute t) +:+ zpad 2 (second t) +:+ "-" +:+
  zpad 3 (microsecond t mod 1000000 / 1000) +:+ "-" +:+ str_take 6 u.
Proof.
  intros Hy. unfold tuid_text, tuid_head. rewrite (decimal_width_4 _ Hy). cbn [zpad].
  repeat (rewrite append_cons || rewrite append_nil). reflexivity.
Qed.

Lemma path_join2_plain (a b : string) :
  a <> "" -> str_ends_with "/" a = false -> str_starts_with "/" b = false ->
  path_join2 a b = a +:+ "/" +:+ b.
Proof.
  intros Ha He Hb. unfold path_join2. rewrite Hb, He.
  destruct a; [contradiction | reflexivity].
Qed.

Lemma zpad_starts_with_digit (k : nat) (n : Z) (s : string) :
  str_starts_with "/" (zpad (S k) n +:+ s) = false.
Proof.
  cbn [zpad]. rewrite append_cons. cbn [str_starts_with].
  apply digit_char_not_slash, Z.mod_pos_bound. lia.
Qed.

Lemma zpad_ends_with_digit (k : nat) (n : Z) :
  str_ends_with "/" (zpad (S k) n) = false.
Proof.
  induction k as [|k IH].
  - cbn [zpad str_ends_with]. apply digit_char_not_slash, Z.mod_pos_bound. lia.
  - change (zpad (S (S k)) n)
      with (String (digit_char ((n / 10 ^ Z.of_nat (S k)) mod 10)) (zpad (S k) n)).
    cbn [str_ends_with]. destruct (zpad (S k) n) eqn:E; [discriminate E | exact IH].
Qed.

Lemma zpad_nonempty (k : nat) (n : Z) : zpad (S k) n <> "".
Proof. discriminate. Qed.

Lemma str_app_nonempty_r (a s : string) : s <> "" -> a +:+ s <> "".
Proof.
  intros Hs. destruct a; [now rewrite append_nil | rewrite append_cons; discriminate].
Qed.

(** X3. The folder made for an identifier freshly generated from a valid
    timestamp with a year of four digits, under a data directory given as
    a non-empty path without trailing slash, is
    [datadir/YYYYMMDD/HHMMSS-mmm-xxxxxx], followed by [-name] when a name is
    given. Creating it is the only thing done to the file system, and the
    process-wide data directory is neither read nor set. *)
Theorem exp_folder_of_generated_tuid (t : datetime) (name datadir : string) w :
  valid_datetime t = true ->
  1000 <= year t ->
  (6 <= String.length (uuid4 w (n_uuid w)))%nat ->
  datadir <> "" ->
  str_ends_with "/" datadir = false ->
  exists w',
    (tuid <- gen_tuid (Some t) ;; create_exp_folder tuid name (Some datadir)) w =
    Done (datadir +:+ "/" +:+
          zpad 4 (year t) +:+ zpad 2 (month t) +:+ zpad 2 (day t) +:+ "/" +:+
          zpad 2 (hour t) +:+ zpad 2 (minute t) +:+ zpad 2 (second t) +:+ "-" +:+
          zpad 3 (microsecond t / 1000) +:+ "-" +:+ str_take 6 (uuid4 w (n_uuid w)) +:+
          (if String.eqb name "" then "" else "-" +:+ name)) w' /\
    disk w' =
      disk w ++ [MakeDirs (datadir +:+ "/" +:+
          zpad 4 (year t) +:+ zpad 2 (month t) +:+ zpad 2 (day t) +:+ "/" +:+
          zpad 2 (hour t) +:+ zpad 2 (minute t) +:+ zpad 2 (second t) +:+ "-" +:+
          zpad 3 (microsecond t / 1000) +:+ "-" +:+ str_take 6 (uuid4 w (n_uuid w)) +:+
          (if String.eqb name "" then "" else "-" +:+ name))] /\
    _datadir w' = _datadir w.
Proof.
  intros V Hy Hu Hne Hslash.
  assert (Hd : String.eqb datadir "" = false)
    by (destruct (String.eqb_spec datadir ""); [contradiction|reflexivity]).
  set (folder := datadir +:+ "/" +:+ _).
  assert (Hpath :
    (let exp_folder :=
       path_join datadir [str_take 8 (tuid_text t (uuid4 w (n_uuid w)));
                          str_drop 9 (tuid_text t (uuid4 w (n_uuid w)))] in
     if negb (String.eqb name "") then exp_folder +:+ "-" +:+ name else exp_folder)
    = folder).
  { subst folder. cbn zeta.
    rewrite tuid_text_date, tuid_text_rest by exact Hy.
    rewrite Z.mod_small by (apply valid_datetime_ranges in V; tauto).
    unfold path_join. cbn [fold_left].
    rewrite (path_join2_plain datadir)
      by (assumption || apply zpad_starts_with_digit).
    rewrite path_join2_plain.
    - destruct (String.eqb name ""); cbn [negb];
        rewrite ?str_app_assoc, ?append_nil_r; reflexivity.
    - now apply str_app_nonempty_r, str_app_nonempty_r, str_app_nonempty_r.
    - rewrite <- !str_app_assoc. rewrite str_ends_with_app by apply zpad_nonempty.
      apply zpad_ends_with_digit.
    - apply zpad_starts_with_digit. }
  unfold bind at 1. rewrite gen_tuid_at.
  unfold create_exp_folder. rewrite tuid_text_valid by assumption. cbn [negb].
  unfold bind at 1. cbn [ret]. cbn zeta in Hpath. rewrite Hpath.
  eexists. split; [reflexivity|]. split; reflexivity.
Qed.

End ExperimentFolder.

Lemma exp_folder_of_generated_tuid_witness :
  exists w',
    (tuid <- gen_tuid (Some Example.ts_a) ;;
     create_exp_folder tuid "T1" (Some "/tmp/data")) (Example.lab tt Example.uuid_a) =
    Done "/tmp/data/20200430/170837-000-315f36-T1" w' /\
    disk w' = [MakeDirs "/tmp/data/20200430/170837-000-315f36-T1"] /\
    _datadir w' = None.
Proof.
  apply (exp_folder_of_generated_tuid Example.ts_a "T1" "/tmp/data"
           (Example.lab tt Example.uuid_a)).
  - reflexivity.
  - vm_compute. discriminate.
  - vm_compute. lia.
  - discriminate.
  - reflexivity.
Defined.

(** * What the acquisition loop keeps *)

Section Triples.

Context {dev : Type}.
Implicit Types (w : world dev) (Inv : world dev -> Prop).

Lemma triple_bind {A B} Pre (Mid : A -> world dev -> Prop) (Post : B -> world dev -> Prop)
    Exc (m : M dev A) (k : A -> M dev B) :
  triple Pre m Mid Exc -> (forall a, triple (Mid a) (k a) Post Exc) ->
  triple Pre (bind m k) Post Exc.
Proof.
  intros Hm Hk w Hw. unfold bind. specialize (Hm w Hw).
  destruct (m w) as [a w1|e w1|]; [apply Hk, Hm | exact Hm | exact I].
Qed.

Lemma triple_weaken {A} (Pre Pre' : world dev -> Prop) (Post Post' : A -> world dev -> Prop)
    (Exc Exc' : world dev -> Prop) (m : M dev A) :
  triple Pre m Post Exc ->
  (forall w, Pre' w -> Pre w) -> (forall a w, Post a w -> Post' a w) ->
  (forall w, Exc w -> Exc' w) ->
  triple Pre' m Post' Exc'.
Proof.
  intros H H1 H2 H3 w Hw. specialize (H w (H1 w Hw)).
  destruct (m w); auto.
Qed.

Lemma keeps_bind {A B} Inv (m : M dev A) (k : A -> M dev B) :
  keeps Inv m -> (forall a, keeps Inv (k a)) -> keeps Inv (bind m k).
Proof. intros Hm Hk. exact (triple_bind _ _ _ _ _ _ Hm Hk). Qed.

Lemma keeps_ret {A} Inv (a : A) : keeps Inv (ret a).
Proof. intros w Hw. exact Hw. Qed.

Lemma keeps_raise {A} Inv (e : pyerr) : keeps Inv (@raise dev A e).
Proof. intros w Hw. exact Hw. Qed.

Lemma keeps_gets {A} Inv (f : world dev -> A) : keeps Inv (gets f).
Proof. intros w Hw. exact Hw. Qed.

Lemma keeps_lift {A} Inv (r : pyerr + A) : keeps Inv (lift r).
Proof. destruct r; [apply keeps_raise | apply keeps_ret]. Qed.

Lemma keeps_modify Inv (f : world dev -> world dev) :
  (forall w, Inv w -> Inv (f w)) -> keeps Inv (modify f).
Proof. intros H w Hw. exact (H w Hw). Qed.

Lemma keeps_try Inv (m : M dev unit) :
  keeps Inv m -> keeps Inv (try_except_AttributeError m).
Proof.
  intros H w Hw. specialize (H w Hw). unfold try_except_AttributeError.
  destruct (m w) as [a w1|e w1|]; [exact H | destruct e; exact H | exact I].
Qed.

Lemma keeps_for_each {A} Inv (l : list A) (body : A -> M dev unit) :
  (forall x, keeps Inv (body x)) -> keeps Inv (for_each l body).
Proof.
  intros H. induction l as [|x l IH]; cbn [for_each]; [apply keeps_ret|].
  apply keeps_bind; [apply H | intros _; exact IH].
Qed.

Lemma keeps_for_enum {A St} Inv (l : list A) (body : nat -> A -> St -> M dev St) :
  (forall i x acc, keeps Inv (body i x acc)) ->
  forall i acc, keeps Inv (for_enum i l acc body).
Proof.
  intros H. induction l as [|x l IH]; intros i acc; cbn [for_enum]; [apply keeps_ret|].
  apply keeps_bind; [apply H | intros acc'; apply IH].
Qed.

End Triples.

Create HintDb keeps.

Ltac ext_field :=
  let H := fresh in
  intros ? H; destruct H; constructor; cbn; assumption.

Ltac keeps_step :=
  match goal with
  | |- keeps _ (bind _ _) => apply keeps_bind; [|intros ?]
  | |- keeps _ (ret _) => apply keeps_ret
  | |- keeps _ (raise _) => apply keeps_raise
  | |- keeps _ (gets _) => apply keeps_gets
  | |- keeps _ (lift _) => apply keeps_lift
  | |- keeps _ (modify _) => apply keeps_modify; ext_field
  | |- keeps _ (try_except_AttributeError _) => apply keeps_try
  | |- keeps _ (for_each _ _) => apply keeps_for_each; intros ?
  | |- keeps _ (for_enum _ _ _ _) => apply keeps_for_enum; intros ? ? ?
  | |- keeps _ (match ?x with _ => _ end) => destruct x
  | |- keeps _ _ => solve [eauto with keeps]
  end.

Section Keeps.

Context {dev : Type} (P : call -> Prop) (D : fsop -> Prop) (w0 : world dev).
Implicit Types (w : world dev).

(** Calls other than [set] are always allowed here. *)
Hypothesis P_other : forall c, is_set_call c = false -> P c.

Lemma extends_refl (Q : call -> Prop) (E : fsop -> Prop) w : extends Q E w w.
Proof.
  constructor; try reflexivity.
  - exists []. now rewrite app_nil_r.
  - exists []. now rewrite app_nil_r.
Qed.

Lemma keeps_log_call (c : call) : P c -> keeps (extends P D w0) (log_call c).
Proof.
  intros Hc. apply keeps_modify. intros w [? ? ? ? ? ? ? ? ? (cs & Hcs & Hall) ?].
  constructor; cbn; try assumption.
  exists (cs ++ [c]). split; [now rewrite Hcs, app_assoc|].
  apply Forall_app. split; [exact Hall | now constructor].
Qed.

Lemma keeps_fs_do (op : fsop) : D op -> keeps (extends P D w0) (fs_do op).
Proof.
  intros Hop. apply keeps_modify. intros w [? ? ? ? ? ? ? ? ? ? (ops & Hops & Hall)].
  constructor; cbn; try assumption.
  exists (ops ++ [op]). split; [now rewrite Hops, app_assoc|].
  apply Forall_app. split; [exact Hall | now constructor].
Qed.

Lemma keeps_time_now : keeps (extends P D w0) time_now.
Proof. intros w Hw. cbn. revert w Hw. ext_field. Qed.

Lemma keeps_now : keeps (extends P D w0) now.
Proof. intros w Hw. cbn. revert w Hw. ext_field. Qed.

Lemma keeps_uuid4_str : keeps (extends P D w0) uuid4_str.
Proof. intros w Hw. cbn. revert w Hw. ext_field. Qed.

#[local] Hint Resolve keeps_time_now keeps_now keeps_uuid4_str : keeps.
#[local] Hint Extern 1 (keeps _ (log_call _)) =>
  apply keeps_log_call, P_other; reflexivity : keeps.
#[local] Hint Extern 1 (keeps _ (fs_do _)) =>
  apply keeps_fs_do; solve [auto] : keeps.
#[local] Hint Extern 1 (keeps _ (to_netcdf _ _)) =>
  apply keeps_fs_do; solve [auto] : keeps.

Lemma keeps_on_devices (f : dev -> pyerr + dev) : keeps (extends P D w0) (on_devices f).
Proof. unfold on_devices. repeat keeps_step. Qed.

#[local] Hint Resolve keeps_on_devices : keeps.

Lemma keeps_gen_tuid (ts : option datetime) : keeps (extends P D w0) (gen_tuid ts).
Proof. unfold gen_tuid. repeat keeps_step. Qed.

Lemma keeps_get_datadir : keeps (extends P D w0) get_datadir.
Proof. unfold get_datadir. repeat keeps_step. Qed.

#[local] Hint Resolve keeps_gen_tuid keeps_get_datadir : keeps.

Lemma keeps_create_exp_folder (tuid name : string) (datadir : option string) :
  (forall path, D (MakeDirs path)) ->
  keeps (extends P D w0) (create_exp_folder tuid name datadir).
Proof. intros HD. unfold create_exp_folder. repeat keeps_step. Qed.

Lemma keeps_initialize_dataset (spars : list (Settable dev)) (sp : setpoints_t)
    (gpars : list (Gettable dev)) :
  keeps (extends P D w0) (initialize_dataset spars sp gpars).
Proof. unfold initialize_dataset. repeat keeps_step. Qed.

Lemma keeps_get_fracdone : keeps (extends P D w0) _get_fracdone.
Proof. unfold _get_fracdone. repeat keeps_step. Qed.

#[local] Hint Resolve keeps_initialize_dataset keeps_get_fracdone : keeps.

Lemma keeps_print_progress : keeps (extends P D w0) print_progress.
Proof. unfold print_progress. repeat keeps_step. Qed.

#[local] Hint Resolve keeps_print_progress : keeps.

Lemma keeps_update (dataset : Dataset) (pm : option string) (folder : string) :
  D (WriteDataset (path_join folder ["dataset.hdf5"]) dataset) ->
  keeps (extends P D w0) (_update dataset pm folder).
Proof. intros HD. unfold _update. repeat keeps_step. Qed.

Lemma keeps_prepare : keeps (extends P D w0) _prepare.
Proof. unfold _prepare, settable_prepare, gettable_prepare. repeat keeps_step. Qed.

Lemma keeps_finish : keeps (extends P D w0) _finish.
Proof. unfold _finish, settable_finish, gettable_finish. repeat keeps_step. Qed.

Lemma keeps_gettable_get (g : Gettable dev) : keeps (extends P D w0) (gettable_get g).
Proof. unfold gettable_get. repeat keeps_step. Qed.

Lemma keeps_first_gettable : keeps (extends P D w0) first_gettable.
Proof. unfold first_gettable. repeat keeps_step. Qed.

#[local] Hint Resolve keeps_prepare keeps_finish keeps_gettable_get
  keeps_first_gettable : keeps.

Lemma keeps_write_block (rows : list (list num)) (dataset : Dataset) :
  keeps (extends P D w0) (write_block rows dataset).
Proof. unfold write_block. repeat keeps_step. Qed.

#[local] Hint Resolve keeps_write_block : keeps.

Section InFolder.

(** The loops write the dataset file of the experiment folder, and nothing
    else. *)
Variables (pm : option string) (folder : string).
Hypothesis D_dataset :
  forall dataset, D (WriteDataset (path_join folder ["dataset.hdf5"]) dataset).

Lemma keeps_hard_body (dataset : Dataset) :
  keeps (extends P D w0) (hard_body pm folder dataset).
Proof. unfold hard_body. repeat keeps_step. apply keeps_update, D_dataset. Qed.

Lemma keeps_hard_loop (fuel : nat) :
  forall dataset, keeps (extends P D w0) (hard_loop fuel pm folder dataset).
Proof.
  induction fuel as [|fuel IH]; intros dataset; cbn [hard_loop].
  - apply keeps_bind; [apply keeps_get_fracdone|]. intros frac.
    destruct (negb _); [|apply keeps_ret]. intros w Hw. exact I.
  - apply keeps_bind; [apply keeps_get_fracdone|]. intros frac.
    destruct (negb _); [|apply keeps_ret].
    apply keeps_bind; [apply keeps_hard_body | exact IH].
Qed.

(** The loop over the set-points calls [set]: it needs those calls to be
    allowed. *)
Lemma keeps_soft_body (idx : nat) (spts : list num) (dataset : Dataset) :
  (forall n v, P (CSet n v)) ->
  keeps (extends P D w0) (soft_body pm folder idx spts dataset).
Proof.
  intros Hset. unfold soft_body, settable_set. repeat keeps_step.
  - apply keeps_log_call, Hset.
  - apply keeps_update, D_dataset.
Qed.

(** The part of [run] from the loop on. *)
Lemma keeps_acquire (internal : bool) (fuel : nat) (rows : list (list num))
    (dataset : Dataset) :
  (internal = true -> forall n v, P (CSet n v)) ->
  keeps (extends P D w0)
    (if internal
     then for_enum 0 rows dataset (soft_body pm folder)
     else hard_loop fuel pm folder dataset).
Proof.
  intros Hset. destruct internal.
  - apply keeps_for_enum. intros idx spts ds. apply keeps_soft_body, Hset. reflexivity.
  - apply keeps_hard_loop.
Qed.

End InFolder.

Lemma first_gettable_head :
  triple (extends P D w0) first_gettable
    (fun g w => extends P D w0 w /\ exists gs, _gettable_pars w0 = g :: gs)
    (extends P D w0).
Proof.
  intros w Hw. unfold first_gettable, bind, gets.
  destruct (_gettable_pars w) as [|g gs] eqn:E; cbn; [exact Hw|].
  split; [exact Hw|]. exists gs. rewrite <- E. symmetry. apply Hw.
Qed.

Lemma triple_pure {A} (Inv : world dev -> Prop) (F : Prop) (m : M dev A) :
  (F -> keeps Inv m) -> triple (fun w => Inv w /\ F) m (fun _ => Inv) Inv.
Proof. intros H w [Hw HF]. exact (H HF w Hw). Qed.

(** [run] calls [set] only in the loop over the set-points, which it enters
    only for a first gettable that is internally controlled. *)
Lemma keeps_run (fuel : nat) (name : string) :
  (forall op, D op) ->
  (forall n v, P (CSet n v)) \/
  (exists g gs, _gettable_pars w0 = g :: gs /\ g_internal g = false) ->
  keeps (extends P D w0) (run fuel name).
Proof.
  intros HD Hmode. unfold run.
  do 3 (apply keeps_bind; [solve [repeat keeps_step] | intros ?]).
  eapply triple_bind; [apply first_gettable_head|]. intros g0.
  apply triple_pure. intros [gs0 Hg0].
  do 7 (apply keeps_bind; [solve [repeat keeps_step] | intros ?]).
  apply keeps_bind; [apply keeps_create_exp_folder; auto | intros ?].
  do 5 (apply keeps_bind; [solve [repeat keeps_step] | intros ?]).
  apply keeps_bind; [|intros ?; repeat keeps_step].
  apply keeps_acquire; [auto|]. intros E.
  destruct Hmode as [Hset|(g & gs & Hg & Hext)]; [exact Hset|].
  rewrite Hg0 in Hg. injection Hg as <- _.
  unfold is_internally_controlled in E. congruence.
Qed.

End Keeps.

Section RunInvariants.

Context {dev : Type}.
Implicit Types (w : world dev).

(** X4. However a run ends, by returning or by raising, it leaves the
    configuration of the measurement control as it was: the settables, the
    set-points, the gettables, the number of averages, the plot monitor,
    the update interval and the verbosity. The calls made and the file
    operations done before the run are still there, followed by those of
    the run: nothing is removed or reordered. *)
Theorem run_keeps_configuration (fuel : nat) (name : string) w :
  whenever (run fuel name w) (extends any any w).
Proof.
  exact (keeps_run any any w (fun _ _ => I) fuel name (fun _ => I)
           (or_introl (fun _ _ => I)) w (extends_refl _ _ w)).
Qed.

(** X5. When the first gettable is not internally controlled, a run never
    calls [set] on any settable, however it ends: the set-points are not
    applied to the instruments. *)
Theorem run_external_never_sets (fuel : nat) (name : string) w
    (g : Gettable dev) (gs : list (Gettable dev)) :
  _gettable_pars w = g :: gs ->
  g_internal g = false ->
  whenever (run fuel name w) (extends (fun c => is_set_call c = false) any w).
Proof.
  intros Hg Hext.
  assert (Hmode : (forall n v, is_set_call (CSet n v) = false) \/
                  (exists g gs, _gettable_pars w = g :: gs /\ g_internal g = false))
    by (right; now exists g, gs).
  exact (keeps_run (fun c => is_set_call c = false) any w (fun _ H => H) fuel name
           (fun _ => I) Hmode w (extends_refl _ _ w)).
Qed.

End RunInvariants.

Section RunFiles.

Context {dev : Type}.
Implicit Types (w : world dev).

Lemma bind_Done {A B} (m : M dev A) (k : A -> M dev B) w (b : B) w' :
  bind m k w = Done b w' -> exists a w1, m w = Done a w1 /\ k a w1 = Done b w'.
Proof.
  unfold bind. destruct (m w) as [a w1|e w1|]; try discriminate. intros H. now exists a, w1.
Qed.

Lemma keeps_Done {A} (Inv : world dev -> Prop) (m : M dev A) w (a : A) w' :
  m w = Done a w' -> Inv w -> keeps Inv m -> Inv w'.
Proof. intros H Hw Hk. specialize (Hk w Hw). now rewrite H in Hk. Qed.

Lemma extends_none (P : call -> Prop) w w' : extends P none w w' -> disk w' = disk w.
Proof.
  intros [_ _ _ _ _ _ _ _ _ _ (ops & -> & Hall)].
  destruct Hall as [|op ops []]. apply app_nil_r.
Qed.

Lemma create_exp_folder_Done (tuid name : string) (datadir : option string)
    (folder : string) w w' :
  create_exp_folder tuid name datadir w = Done folder w' ->
  disk w' = disk w ++ [MakeDirs folder].
Proof.
  unfold create_exp_folder. destruct (negb _); [discriminate|].
  intros H. apply bind_Done in H as (dd & w1 & H1 & H). cbn beta zeta in H.
  assert (Hd : disk w1 = disk w).
  { destruct datadir; [injection H1 as _ <-; reflexivity|].
    unfold get_datadir, bind, gets in H1.
    destruct (_datadir w); injection H1 as _ <-; reflexivity. }
  unfold bind, fs_do, modify, ret in H. injection H as <- <-. cbn. now rewrite Hd.
Qed.

Lemma fs_do_Done (op : fsop) w (a : unit) w' :
  fs_do op w = Done a w' -> disk w' = disk w ++ [op].
Proof. intros H. injection H as _ <-. reflexivity. Qed.

End RunFiles.

Ltac step_keeping Hinv H tac :=
  let H1 := fresh "Hstep" in
  let Hn := fresh "Hinv" in
  apply bind_Done in H as (? & ? & H1 & H); cbn beta zeta in H;
  pose proof (keeps_Done _ _ _ _ _ H1 Hinv) as Hn;
  lapply Hn; [clear Hn Hinv H1; intro Hinv | clear Hn; tac].

Ltac step_inv Hinv H tac :=
  let H1 := fresh "Hstep" in
  let Hn := fresh "Hinv" in
  apply bind_Done in H as (? & ? & H1 & H); cbn beta zeta in H;
  match type of Hinv with
  | ?Inv ?wc => pose proof (keeps_Done Inv _ _ _ _ H1 Hinv) as Hn
  end;
  lapply Hn; [clear Hn Hinv H1; intro Hinv | clear Hn; tac].

Ltac use_keeps L := eapply L; try solve [intros; exact I | auto].

Section RunFilesTheorem.

Context {dev : Type}.
Implicit Types (w : world dev).


End RunFilesTheorem.


Lemma run_external_never_sets_witness :
  whenever (run 200 "" Scenario.counting_lab)
    (extends (fun c => is_set_call c = false) any Scenario.counting_lab).
Proof.
  apply (run_external_never_sets 200 "" Scenario.counting_lab Example.g_counter []);
    reflexivity.
Defined.

(** * The bulk-read loop in general *)

Section BulkLoop.

Context {dev : Type}.
Implicit Types (w : world dev).

Lemma get_fracdone_eq w :
  _get_fracdone w =
  if (sp_len (_setpoints w) * soft_avg w =? 0)%nat then Raised ZeroDivisionError w
  else Done (Z.of_nat (_nr_acquired_values w)
             # Pos.of_nat (sp_len (_setpoints w) * soft_avg w)) w.
Proof.
  unfold _get_fracdone, bind, gets.
  destruct (sp_len (_setpoints w) * soft_avg w =? 0)%nat; reflexivity.
Qed.

Lemma hundredfold_test (acquired total : nat) :
  total <> 0%nat ->
  Qle_bool 100 (Z.of_nat acquired # Pos.of_nat total) = (100 * total <=? acquired)%nat.
Proof.
  intros Htot. unfold Qle_bool. cbn [Qnum Qden]. rewrite Z.mul_1_r.
  assert (Z.pos (Pos.of_nat total) = Z.of_nat total) as ->.
  { destruct total as [|k]; [congruence|]. rewrite <- Pos.of_nat_succ. lia. }
  destruct (Nat.leb_spec (100 * total) acquired).
  - apply Z.leb_le. lia.
  - apply Z.leb_gt. lia.
Qed.

Lemma hard_loop_exit (fuel : nat) (pm : option string) (folder : string) :
  forall (dataset dataset' : Dataset) w w',
    hard_loop fuel pm folder dataset w = Done dataset' w' ->
    (sp_len (_setpoints w') * soft_avg w' <> 0)%nat /\
    (100 * (sp_len (_setpoints w') * soft_avg w') <= _nr_acquired_values w')%nat.
Proof.
  induction fuel as [|fuel IH]; intros ds ds' w w' H; cbn [hard_loop] in H;
    unfold bind at 1 in H; rewrite get_fracdone_eq in H;
    destruct (Nat.eqb_spec (sp_len (_setpoints w) * soft_avg w) 0) as [|Htot];
    try discriminate H;
    rewrite hundredfold_test in H by exact Htot;
    destruct (Nat.leb_spec (100 * (sp_len (_setpoints w) * soft_avg w))
                (_nr_acquired_values w)) as [Hle|Hlt]; cbn [negb] in H.
  - injection H as <- <-. now split.
  - discriminate H.
  - injection H as <- <-. now split.
  - unfold bind at 1 in H.
    destruct (hard_body pm folder ds w) as [ds1 w1|e w1|]; try discriminate H.
    exact (IH _ _ _ _ H).
Qed.

(** X6. The bulk-read loop only returns once the number of acquired values
    has reached a hundred times the expected number, the number of rows of
    the set-points times the number of averages (which the loop does not
    change); the expected number cannot be zero then. *)
Theorem hard_loop_returns_at_hundredfold (fuel : nat) (pm : option string)
    (folder : string) (dataset dataset' : Dataset) w w' :
  hard_loop fuel pm folder dataset w = Done dataset' w' ->
  _setpoints w' = _setpoints w /\
  soft_avg w' = soft_avg w /\
  (sp_len (_setpoints w) * soft_avg w <> 0)%nat /\
  (100 * (sp_len (_setpoints w) * soft_avg w) <= _nr_acquired_values w')%nat.
Proof.
  intros H.
  pose proof (keeps_hard_loop any any w (fun _ _ => I) pm folder (fun _ => I) fuel
                dataset w (extends_refl _ _ w)) as Hk.
  rewrite H in Hk. destruct Hk as [_ Hsp _ Havg _ _ _ _ _ _ _].
  apply hard_loop_exit in H. rewrite Hsp, Havg in H.
  destruct H. auto.
Qed.

Lemma write_block_empty_rows (rows : list (list num)) (dataset : Dataset) w :
  Forall (fun row => row = []) rows ->
  write_block rows dataset w = Done (dataset, 0%nat) w.
Proof.
  intros Hrows. unfold write_block. generalize 0%nat at 1 as i.
  induction Hrows as [|row rows -> _ IH]; intros i; [reflexivity|].
  cbn [for_enum]. unfold bind at 1. cbn. apply IH.
Qed.

Lemma hard_body_empty_block (pm : option string) (folder : string) (dataset : Dataset)
    w (g : Gettable dev) (gs : list (Gettable dev)) :
  _gettable_pars w = g :: gs ->
  (exists rows d', g_get g (devices w) = inr (PBlock rows, d') /\
                   Forall (fun row => row = []) rows) ->
  (sp_len (_setpoints w) * soft_avg w <> 0)%nat ->
  exists w1,
    hard_body pm folder dataset w = Done dataset w1 /\
    _gettable_pars w1 = _gettable_pars w /\
    _setpoints w1 = _setpoints w /\
    soft_avg w1 = soft_avg w /\
    _nr_acquired_values w1 = _nr_acquired_values w.
Proof.
  intros Hg (rows & d' & Hget & Hrows) Htot.
  unfold hard_body. unfold bind at 1. unfold first_gettable, bind at 1, gets.
  rewrite Hg. cbn [ret].
  unfold bind at 1. unfold gettable_get, log_call, modify, bind at 1 2 3 4, gets.
  cbn [devices set_calls]. rewrite Hget. cbn [lift ret fst snd].
  unfold bind at 1. cbn [ret].
  unfold bind at 1. rewrite write_block_empty_rows by exact Hrows.
  unfold bind at 1. cbn beta iota. cbn [fst snd]. unfold bind at 1.
  match goal with
  | |- context [_update dataset pm folder ?w2] =>
      destruct (_update_ok dataset pm folder w2) as (w3 & Hupd & Hev);
        [exact Htot | rewrite Hupd]
  end.
  exists w3. split; [reflexivity|].
  destruct Hev as [_ Hsp Hgp Havg Hacq _ _]. cbn in Hsp, Hgp, Havg, Hacq.
  rewrite Hsp, Hgp, Havg, Hacq. repeat split; [exact Hg | lia].
Qed.

(** X7. The bulk-read loop does not end on a source that has nothing to
    deliver: when the first gettable returns only empty blocks (no row, or
    rows without a value), and the target has not been reached, the loop
    is still running after any number of reads. *)
Theorem hard_loop_hangs_on_empty_blocks (pm : option string) (folder : string)
    (g : Gettable dev) (gs : list (Gettable dev)) (fuel : nat) :
  (forall d, exists rows d', g_get g d = inr (PBlock rows, d') /\
                             Forall (fun row => row = []) rows) ->
  forall (dataset : Dataset) w,
    _gettable_pars w = g :: gs ->
    (sp_len (_setpoints w) * soft_avg w <> 0)%nat ->
    (_nr_acquired_values w < 100 * (sp_len (_setpoints w) * soft_avg w))%nat ->
    hard_loop fuel pm folder dataset w = OutOfFuel.
Proof.
  intros Hsilent. induction fuel as [|fuel IH]; intros ds w Hg Htot Hacq.
  - cbn [hard_loop]. unfold bind at 1. rewrite get_fracdone_eq.
    destruct (Nat.eqb_spec (sp_len (_setpoints w) * soft_avg w) 0); [contradiction|].
    rewrite hundredfold_test by exact Htot.
    destruct (Nat.leb_spec (100 * (sp_len (_setpoints w) * soft_avg w))
                (_nr_acquired_values w)); [lia | reflexivity].
  - rewrite hard_loop_continues by assumption. unfold bind at 1.
    destruct (hard_body_empty_block pm folder ds w g gs Hg (Hsilent _) Htot)
      as (w1 & -> & Hgp & Hsp & Havg & Hacq1).
    apply IH; rewrite ?Hgp, ?Hsp, ?Havg, ?Hacq1; assumption.
Qed.

End BulkLoop.

Lemma hard_loop_returns_at_hundredfold_witness :
  _setpoints (world_of (Scenario.one_point_loop 100) Scenario.one_point_lab) =
    _setpoints Scenario.one_point_lab /\
  soft_avg (world_of (Scenario.one_point_loop 100) Scenario.one_point_lab) =
    soft_avg Scenario.one_point_lab /\
  (sp_len (_setpoints Scenario.one_point_lab) * soft_avg Scenario.one_point_lab
   <> 0)%nat /\
  (100 * (sp_len (_setpoints Scenario.one_point_lab) * soft_avg Scenario.one_point_lab)
   <= _nr_acquired_values
        (world_of (Scenario.one_point_loop 100) Scenario.one_point_lab))%nat.
Proof.
  apply (hard_loop_returns_at_hundredfold 100 None "/data/exp" Scenario.one_point_dataset
           (result_of (Scenario.one_point_loop 100) Scenario.one_point_dataset)).
  vm_compute. reflexivity.
Defined.

Lemma hard_loop_hangs_on_empty_blocks_witness :
  hard_loop 1000 None "/data/exp" Scenario.one_point_dataset Scenario.silent_lab
  = OutOfFuel.
Proof.
  apply (hard_loop_hangs_on_empty_blocks None "/data/exp" Scenario.g_silent [] 1000).
  - intros d. exists [], d. split; [reflexivity | constructor].
  - reflexivity.
  - vm_compute. discriminate.
  - vm_compute. lia.
Defined.

(** * The loop over the set-points in general *)

Section Primitives.

Context {dev : Type}.
Implicit Types (w : world dev) (Inv : world dev -> Prop).

Lemma keeps_time_now_if Inv :
  (forall w, Inv w -> Inv (set_n_time (S (n_time w)) w)) -> keeps Inv time_now.
Proof. intros H w Hw. exact (H w Hw). Qed.

Lemma keeps_now_if Inv :
  (forall w, Inv w -> Inv (set_n_now (S (n_now w)) w)) -> keeps Inv now.
Proof. intros H w Hw. exact (H w Hw). Qed.

Lemma keeps_uuid4_str_if Inv :
  (forall w, Inv w -> Inv (set_n_uuid (S (n_uuid w)) w)) -> keeps Inv uuid4_str.
Proof. intros H w Hw. exact (H w Hw). Qed.

Lemma instrument_calls_snoc_other (cs : list call) (c : call) :
  is_instrument_call c = false -> instrument_calls (cs ++ [c]) = instrument_calls cs.
Proof.
  intros H. rewrite instrument_calls_app. unfold instrument_calls at 2.
  cbn. rewrite H. apply app_nil_r.
Qed.

Lemma instrument_calls_snoc (cs : list call) (c : call) :
  is_instrument_call c = true -> instrument_calls (cs ++ [c]) = instrument_calls cs ++ [c].
Proof.
  intros H. rewrite instrument_calls_app. unfold instrument_calls at 2.
  cbn. now rewrite H.
Qed.

Lemma evolved_refl w : evolved w [] 0 w.
Proof. constructor; rewrite ?app_nil_r, ?Nat.add_0_r; reflexivity. Qed.

Lemma evolved_trans w1 w2 w3 (cs1 cs2 : list call) (k1 k2 : nat) :
  evolved w1 cs1 k1 w2 -> evolved w2 cs2 k2 w3 -> evolved w1 (cs1 ++ cs2) (k1 + k2) w3.
Proof. apply evolves_trans. Qed.

End Primitives.

(** Down to the primitive state changes, each of which must keep the
    invariant: [side] proves that. *)
Ltac keeps_prim side :=
  match goal with
  | |- keeps _ (bind _ _) => apply keeps_bind; [|intros ?]
  | |- keeps _ (ret _) => apply keeps_ret
  | |- keeps _ (raise _) => apply keeps_raise
  | |- keeps _ (gets _) => apply keeps_gets
  | |- keeps _ (lift _) => apply keeps_lift
  | |- keeps _ (modify _) => apply keeps_modify; side
  | |- keeps _ time_now => apply keeps_time_now_if; side
  | |- keeps _ now => apply keeps_now_if; side
  | |- keeps _ uuid4_str => apply keeps_uuid4_str_if; side
  | |- keeps _ (try_except_AttributeError _) => apply keeps_try
  | |- keeps _ (for_each _ _) => apply keeps_for_each; intros ?
  | |- keeps _ (for_enum _ _ _ _) => apply keeps_for_enum; intros ? ? ?
  | |- keeps _ (match ?x with _ => _ end) => destruct x
  | |- keeps _ (log_call _) => unfold log_call
  | |- keeps _ (fs_do _) => unfold fs_do
  | |- keeps _ (to_netcdf _ _) => unfold to_netcdf
  | |- keeps _ (on_devices _) => unfold on_devices
  | |- keeps _ (gen_tuid _) => unfold gen_tuid
  | |- keeps _ get_datadir => unfold get_datadir
  | |- keeps _ (create_exp_folder _ _ _) => unfold create_exp_folder
  | |- keeps _ (initialize_dataset _ _ _) => unfold initialize_dataset
  | |- keeps _ _get_fracdone => unfold _get_fracdone
  | |- keeps _ print_progress => unfold print_progress
  | |- keeps _ (_update _ _ _) => unfold _update
  | |- keeps _ _prepare => unfold _prepare
  | |- keeps _ _finish => unfold _finish
  | |- keeps _ (settable_prepare _) => unfold settable_prepare
  | |- keeps _ (gettable_prepare _ _) => unfold gettable_prepare
  | |- keeps _ (settable_finish _) => unfold settable_finish
  | |- keeps _ (gettable_finish _) => unfold gettable_finish
  | |- keeps _ first_gettable => unfold first_gettable
  end.

(** A state change that makes no instrument call and acquires no point. *)
Ltac quiet :=
  let H := fresh in
  intros ? H; destruct H; constructor; cbn;
  rewrite ?instrument_calls_snoc_other by reflexivity;
  solve [assumption | reflexivity].

Section SoftLoop.

Context {dev : Type}.
Implicit Types (w : world dev).

Lemma settable_set_Done (p : Settable dev) (v : num) w (a : unit) w1 :
  settable_set p v w = Done a w1 -> evolved w [CSet (s_name p) v] 0 w1.
Proof.
  unfold settable_set, log_call, on_devices, bind, gets, modify. cbn.
  destruct (s_set p v (devices w)) as [e|d]; cbn; [discriminate|].
  intros H. injection H as _ <-.
  constructor; cbn; rewrite ?instrument_calls_snoc by reflexivity;
    rewrite ?Nat.add_0_r; reflexivity.
Qed.

Lemma gettable_get_Done (g : Gettable dev) w (v : pyval) w1 :
  gettable_get g w = Done v w1 -> evolved w [CGet (g_name g)] 0 w1.
Proof.
  unfold gettable_get, log_call, bind, gets, modify. cbn.
  destruct (g_get g (devices w)) as [e|[v' d]]; cbn; [discriminate|].
  intros H. injection H as _ <-.
  constructor; cbn; rewrite ?instrument_calls_snoc by reflexivity;
    rewrite ?Nat.add_0_r; reflexivity.
Qed.

Lemma set_all_Done (l : list (Settable dev * num)) :
  forall w (a : unit) w1,
    for_each l (fun p => settable_set (fst p) (snd p)) w = Done a w1 ->
    evolved w (map (fun p => CSet (s_name (fst p)) (snd p)) l) 0 w1.
Proof.
  induction l as [|p l IH]; intros w a w1 H; cbn [for_each map] in *.
  - injection H as _ <-. apply evolved_refl.
  - apply bind_Done in H as (? & w2 & H1 & H).
    apply settable_set_Done in H1. apply IH in H.
    exact (evolved_trans _ _ _ _ _ _ _ H1 H).
Qed.

Lemma get_all_Done (idx : nat) (gpars : list (Gettable dev)) :
  forall (j : nat) (dataset dataset' : Dataset) w w1,
    for_enum j gpars dataset
      (fun j gpar ds => val <- gettable_get gpar ;;
                        lift (store_value ds (fmt_idx "y" j) idx val)) w
    = Done dataset' w1 ->
    evolved w (map (fun g => CGet (g_name g)) gpars) 0 w1.
Proof.
  induction gpars as [|g gpars IH]; intros j ds ds' w w1 H; cbn [for_enum map] in *.
  - injection H as _ <-. apply evolved_refl.
  - apply bind_Done in H as (ds1 & w2 & H1 & H).
    apply bind_Done in H1 as (v & w3 & H1 & H2).
    apply gettable_get_Done in H1.
    assert (w2 = w3) as -> by (destruct (store_value _ _ _ _); [discriminate | now injection H2]).
    apply IH in H. exact (evolved_trans _ _ _ _ _ _ _ H1 H).
Qed.

Lemma update_quiet (dataset : Dataset) (pm : option string) (folder : string)
    w0 (cs : list call) (k : nat) :
  keeps (evolved w0 cs k) (_update dataset pm folder).
Proof. repeat keeps_prim quiet. Qed.

Lemma soft_body_Done (pm : option string) (folder : string) (idx : nat)
    (spts : list num) (dataset dataset' : Dataset) w w1 :
  soft_body pm folder idx spts dataset w = Done dataset' w1 ->
  evolved w (row_calls (_settable_pars w) (_gettable_pars w) spts) 1 w1.
Proof.
  unfold soft_body. intros H.
  apply bind_Done in H as (spars & ? & [= <- <-] & H).
  apply bind_Done in H as ([] & w2 & H1 & H).
  apply set_all_Done in H1.
  apply bind_Done in H as (gpars & ? & [= <- <-] & H).
  apply bind_Done in H as (ds1 & w3 & H2 & H).
  apply get_all_Done in H2.
  pose proof (evolved_trans _ _ _ _ _ _ _ H1 H2) as H12.
  rewrite (ev_gettables _ _ _ _ _ H1) in H12.
  apply bind_Done in H as ([] & w4 & [= <-] & H).
  apply bind_Done in H as ([] & w5 & H3 & H).
  injection H as _ <-.
  refine (keeps_Done _ _ _ _ _ H3 _ (update_quiet _ _ _ _ _ _)).
  destruct H12. constructor; cbn; first [assumption | reflexivity | lia].
Qed.

Lemma soft_loop_Done (pm : option string) (folder : string) (rows : list (list num)) :
  forall (i : nat) (dataset dataset' : Dataset) w w1,
    for_enum i rows dataset (soft_body pm folder) w = Done dataset' w1 ->
    evolved w (flat_map (row_calls (_settable_pars w) (_gettable_pars w)) rows)
      (length rows) w1.
Proof.
  induction rows as [|row rows IH]; intros i ds ds' w w1 H; cbn [for_enum flat_map length] in *.
  - injection H as _ <-. apply evolved_refl.
  - apply bind_Done in H as (ds1 & w2 & H1 & H).
    apply soft_body_Done in H1. apply IH in H.
    rewrite (ev_settables _ _ _ _ _ H1), (ev_gettables _ _ _ _ _ H1) in H.
    exact (evolved_trans _ _ _ _ _ _ _ H1 H).
Qed.

Lemma sp_len_rows (sp : setpoints_t) : sp_len sp = length (sp_rows sp).
Proof. now destruct sp. Qed.

(** X9. A run with an internally controlled first gettable that returns
    has gone through the rows of the set-points in order, once each: for
    every row it has set each settable to its value of the row and then
    read each gettable, and it has made no other call to [set] or [get].
    The number of acquired values it ends with is the number of rows. *)
Theorem run_internal_call_sequence (fuel : nat) (name : string) w
    (g : Gettable dev) (gs : list (Gettable dev)) (dataset : Dataset) w' :
  _gettable_pars w = g :: gs ->
  g_internal g = true ->
  run fuel name w = Done dataset w' ->
  _nr_acquired_values w' = sp_len (_setpoints w) /\
  instrument_calls (calls w') =
    instrument_calls (calls w) ++
    flat_map (row_calls (_settable_pars w) (_gettable_pars w)) (sp_rows (_setpoints w)).
Proof.
  intros Hg Hint H. unfold run in H.
  apply bind_Done in H as ([] & ? & [= <-] & H).
  remember (set_nr_acquired_values 0 w) as w1 eqn:Ew1.
  assert (Hinv : evolved w1 [] 0 w1) by apply evolved_refl.
  step_inv Hinv H ltac:(repeat keeps_prim quiet).
  step_inv Hinv H ltac:(repeat keeps_prim quiet).
  apply bind_Done in H as (g0 & ? & Hfg & H). cbn beta zeta in H.
  unfold first_gettable, bind, gets in Hfg.
  rewrite (ev_gettables _ _ _ _ _ Hinv), Ew1 in Hfg.
  cbn [_gettable_pars set_nr_acquired_values] in Hfg.
  rewrite Hg in Hfg. injection Hfg as <- <-.
  unfold is_internally_controlled in H. rewrite Hint in H.
  apply bind_Done in H as (spars & ? & [= <- <-] & H).
  apply bind_Done in H as (sp & ? & [= <- <-] & H).
  apply bind_Done in H as (gpars & ? & [= <- <-] & H).
  rewrite (ev_setpoints _ _ _ _ _ Hinv) in H.
  do 10 (step_inv Hinv H ltac:(repeat keeps_prim quiet)).
  apply bind_Done in H as (ds1 & wL & HL & H). cbn beta zeta in H.
  apply soft_loop_Done in HL.
  rewrite (ev_settables _ _ _ _ _ Hinv), (ev_gettables _ _ _ _ _ Hinv) in HL.
  pose proof (evolved_trans _ _ _ _ _ _ _ Hinv HL) as Hinv'. clear Hinv HL.
  do 3 (step_inv Hinv' H ltac:(repeat keeps_prim quiet)).
  injection H as _ <-.
  destruct Hinv' as [_ _ _ _ Hacq _ Hcalls].
  rewrite Hacq, Hcalls, Ew1. cbn. now rewrite sp_len_rows.
Qed.

End SoftLoop.

Lemma run_internal_call_sequence_witness :
  _nr_acquired_values (world_of (run 0 "exp" Scenario.double_lab) Scenario.double_lab)
    = 3%nat /\
  instrument_calls
    (calls (world_of (run 0 "exp" Scenario.double_lab) Scenario.double_lab)) =
    [CSet "x" (Num 0); CGet "y"; CSet "x" (Num 1); CGet "y"; CSet "x" (Num 2); CGet "y"].
Proof.
  apply (run_internal_call_sequence 0 "exp" Scenario.double_lab (Example.gy true) []
           (result_of (run 0 "exp" Scenario.double_lab) Scenario.no_dataset)).
  - reflexivity.
  - reflexivity.
  - vm_compute. reflexivity.
Defined.

(** * The grid of set-points, by value *)

Section GridValues.

Lemma pick_row_elem (setpoints : list (list num)) (r : nat) :
  (r < total_points setpoints)%nat ->
  Forall2 (fun v a => v ∈ a) (pick_row setpoints r) setpoints.
Proof.
  revert r. induction setpoints as [|a rest IH]; intros r Hr; cbn [pick_row]; [constructor|].
  change (total_points (a :: rest)) with (length a * total_points rest)%nat in Hr.
  assert (length a <> 0)%nat by lia.
  constructor.
  - apply list_elem_of_In, nth_In, Nat.mod_upper_bound. assumption.
  - apply IH. apply Nat.Div0.div_lt_upper_bound. lia.
Qed.

Lemma elem_positions (setpoints : list (list num)) (row : list num) :
  Forall2 (fun v a => v ∈ a) row setpoints ->
  exists choice,
    Forall2 lt choice (map length setpoints) /\
    row_of_choice setpoints choice = row.
Proof.
  induction 1 as [|v a row rest Hv _ (choice & Hch & Hrow)].
  - exists []. split; [constructor | reflexivity].
  - apply list_elem_of_In, (In_nth _ _ NaN) in Hv as (i & Hi & Hnth).
    exists (i :: choice). split; [now constructor|].
    unfold row_of_choice in *. cbn [zip_with]. now rewrite Hnth, Hrow.
Qed.

Lemma pick_row_inj (setpoints : list (list num)) :
  Forall (fun a => NoDup a) setpoints ->
  forall r r', (r < total_points setpoints)%nat -> (r' < total_points setpoints)%nat ->
    pick_row setpoints r = pick_row setpoints r' -> r = r'.
Proof.
  induction 1 as [|a rest Ha _ IH]; intros r r' Hr Hr' E.
  - change (total_points []) with 1%nat in *. lia.
  - change (total_points (a :: rest)) with (length a * total_points rest)%nat in *.
    assert (Hne : length a <> 0%nat) by lia.
    cbn [pick_row] in E. injection E as E0 E1.
    apply (proj1 (List.NoDup_nth a NaN)) in E0;
      [| now apply NoDup_ListNoDup | now apply Nat.mod_upper_bound..].
    apply IH in E1; [| apply Nat.Div0.div_lt_upper_bound; lia..].
    rewrite (Nat.div_mod_eq r (length a)), (Nat.div_mod_eq r' (length a)). congruence.
Qed.

(** X10. The rows of the grid that [tile_setpoints_grid] returns are
    exactly the combinations of one value from each array, in the order of
    the arrays; when no array repeats a value, no row occurs twice. *)
Theorem tile_setpoints_grid_is_product (setpoints : list (list num)) (grid : ndarray2) :
  tile_setpoints_grid setpoints = inr grid ->
  (forall row, row ∈ arr_rows grid <-> Forall2 (fun v a => v ∈ a) row setpoints) /\
  (Forall (fun a => NoDup a) setpoints -> NoDup (arr_rows grid)).
Proof.
  intros H. destruct setpoints as [|s0 rest]; [discriminate|].
  rewrite tile_setpoints_grid_eq in H. injection H as <-. cbn [arr_rows].
  set (sps := s0 :: rest). split.
  - intros row. rewrite list_elem_of_fmap. split.
    + intros (r & -> & Hr). apply elem_of_seq in Hr. apply (pick_row_elem sps r). lia.
    + intros Hrow. apply elem_positions in Hrow as (choice & Hch & <-).
      destruct (radix_digits_value _ _ Hch) as [Hd Hv].
      exists (radix_value (map length sps) choice). split.
      * change (row_of_choice sps choice =
                pick_row sps (radix_value (map length sps) choice)).
        now rewrite pick_row_digits, Hd.
      * apply elem_of_seq. unfold total_points. lia.
  - intros Hnd. apply NoDup_fmap_2_strong; [|apply NoDup_seq].
    intros r r' Hr Hr' E. apply elem_of_seq in Hr, Hr'.
    apply (pick_row_inj sps Hnd); [lia | lia | exact E].
Qed.

End GridValues.

Lemma tile_setpoints_grid_is_product_witness :
  (forall row,
     row ∈ [[Num 1; Num 10]; [Num 2; Num 10]; [Num 3; Num 10];
            [Num 1; Num 20]; [Num 2; Num 20]; [Num 3; Num 20]] <->
     Forall2 (fun v a => v ∈ a) row [[Num 1; Num 2; Num 3]; [Num 10; Num 20]]) /\
  (Forall (fun a => NoDup a) [[Num 1; Num 2; Num 3]; [Num 10; Num 20]] ->
   NoDup [[Num 1; Num 10]; [Num 2; Num 10]; [Num 3; Num 10];
          [Num 1; Num 20]; [Num 2; Num 20]; [Num 3; Num 20]]).
Proof.
  apply (tile_setpoints_grid_is_product [[Num 1; Num 2; Num 3]; [Num 10; Num 20]]
           (mkArray2 2 [[Num 1; Num 10]; [Num 2; Num 10]; [Num 3; Num 10];
                        [Num 1; Num 20]; [Num 2; Num 20]; [Num 3; Num 20]])).
  reflexivity.
Defined.

(** * Configuring the set-points *)

Section SetpointsGrid.

Context {dev : Type}.
Implicit Types (w : world dev).

(** X11. [set_setpoints_grid] on two arrays stores the grid of their
    combinations, first array varying fastest, and describes it in the plot
    info: [xlen] and [ylen] are the lengths of the two arrays, their
    product is the number of rows, and the grid is flagged as 2-D. *)
Theorem set_setpoints_grid_two (s0 s1 : list num) w :
  exists w' grid,
    set_setpoints_grid [s0; s1] w = Done tt w' /\
    _setpoints w' = SpArray grid /\
    _plot_info w' !! "xlen" = Some (AInt (length s0)) /\
    _plot_info w' !! "ylen" = Some (AInt (length s1)) /\
    _plot_info w' !! "2D-grid" = Some (ABool true) /\
    arr_ncols grid = 2%nat /\
    length (arr_rows grid) = (length s0 * length s1)%nat /\
    forall r, (r < length s0 * length s1)%nat ->
      arr_rows grid !! r =
      Some [nth (r mod length s0) s0 NaN; nth (r / length s0) s1 NaN].
Proof.
  unfold set_setpoints_grid. unfold bind at 1. cbn [modify].
  unfold bind at 1. rewrite tile_setpoints_grid_eq. cbn [lift ret modify].
  eexists _, _. split; [reflexivity|]. cbn [_setpoints _plot_info set_setpoints_field
    set_plot_info arr_ncols arr_rows].
  split; [reflexivity|].
  split; [now rewrite !lookup_insert_ne, lookup_insert_eq by discriminate|].
  split; [now rewrite lookup_insert_ne, lookup_insert_eq by discriminate|].
  split; [now rewrite lookup_insert_eq|].
  split; [reflexivity|].
  assert (Htot : total_points [s0; s1] = (length s0 * length s1)%nat)
    by (unfold total_points; cbn; lia).
  unfold arr_rows.
  split; [now rewrite length_map, length_seq|].
  intros r Hr. rewrite Htot, list_lookup_fmap, lookup_seq_lt by exact Hr.
  cbn [fmap option_fmap option_map pick_row Nat.add].
  assert (length s0 <> 0)%nat by lia.
  rewrite (Nat.mod_small (r / length s0)) by (apply Nat.Div0.div_lt_upper_bound; lia).
  reflexivity.
Qed.

(** X12. On any other number of arrays [set_setpoints_grid] leaves the
    plot info as it is, so that a 2-D flag and the lengths of an earlier
    two-array grid stay in force for the new grid. On no array at all it
    raises [IndexError] and changes nothing. *)
Theorem set_setpoints_grid_keeps_plot_info (setpoints : list (list num)) w :
  length setpoints <> 2%nat ->
  match setpoints with
  | [] => set_setpoints_grid setpoints w = Raised IndexError w
  | _ :: _ =>
      exists w' grid,
        set_setpoints_grid setpoints w = Done tt w' /\
        _setpoints w' = SpArray grid /\
        arr_ncols grid = length setpoints /\
        length (arr_rows grid) = total_points setpoints /\
        _plot_info w' = _plot_info w
  end.
Proof.
  intros Hlen. destruct setpoints as [|s0 rest]; [reflexivity|].
  assert (Hgrid : forall pre : M dev unit,
            pre w = Done tt w ->
            exists w' grid,
              (pre ;;; grid <- lift (tile_setpoints_grid (s0 :: rest)) ;;
               modify (set_setpoints_field (SpArray grid))) w = Done tt w' /\
              _setpoints w' = SpArray grid /\
              arr_ncols grid = length (s0 :: rest) /\
              length (arr_rows grid) = total_points (s0 :: rest) /\
              _plot_info w' = _plot_info w).
  { intros pre Hpre. unfold bind at 1. rewrite Hpre.
    unfold bind at 1. rewrite tile_setpoints_grid_eq. cbn [lift ret modify].
    eexists _, _. split; [reflexivity|]. cbn [_setpoints set_setpoints_field arr_ncols arr_rows].
    split; [reflexivity|]. split; [reflexivity|]. unfold arr_rows.
    split; [now rewrite length_map, length_seq | reflexivity]. }
  unfold set_setpoints_grid.
  destruct rest as [|s1 [|s2 rest]]; [apply Hgrid; reflexivity | | apply Hgrid; reflexivity].
  cbn in Hlen. congruence.
Qed.

(** X13. [set_setpoints] on a 1-D array of N values stores an N x 1 array
    whose only column is the array given; it clears the 2-D flag of the
    plot info and leaves its other entries. *)
Theorem set_setpoints_column (a : list num) w :
  exists w',
    set_setpoints (Arg1D a) w = Done tt w' /\
    sp_len (_setpoints w') = length a /\
    sp_col (_setpoints w') 0 = inr a /\
    (forall i, sp_col (_setpoints w') (S i) = inl IndexError) /\
    _plot_info w' !! "2D-grid" = Some (ABool false) /\
    (forall k, k <> "2D-grid" -> _plot_info w' !! k = _plot_info w !! k).
Proof.
  eexists. split; [reflexivity|].
  cbn [_setpoints _plot_info set_plot_info set_setpoints_field sp_len sp_col
       reshape_column arr_rows].
  split; [apply length_map|].
  split; [|split; [reflexivity|split]].
  - unfold arr_col. cbn. rewrite map_map. cbn. now rewrite map_id.
  - apply lookup_insert_eq.
  - intros k Hk. now rewrite lookup_insert_ne.
Qed.

End SetpointsGrid.

Lemma set_setpoints_grid_keeps_plot_info_witness :
  exists w' grid,
    set_setpoints_grid [[Num 1; Num 2]; [Num 10; Num 20]; [Num 5; Num 6]]
      (Example.lab tt Example.uuid_a) = Done tt w' /\
    _setpoints w' = SpArray grid /\
    arr_ncols grid = 3%nat /\
    length (arr_rows grid) = 8%nat /\
    _plot_info w' = _plot_info (Example.lab tt Example.uuid_a).
Proof.
  apply (set_setpoints_grid_keeps_plot_info
           [[Num 1; Num 2]; [Num 10; Num 20]; [Num 5; Num 6]]
           (Example.lab tt Example.uuid_a)).
  discriminate.
Defined.

(** * Set-points with too few columns *)

Section Columns.

Context {dev : Type}.
Implicit Types (w : world dev).

Lemma settable_darrs_short (a : ndarray2) (spars : list (Settable dev)) :
  forall i, spars <> [] -> (arr_ncols a < i + length spars)%nat ->
    settable_darrs i spars (SpArray a) = inl IndexError.
Proof.
  induction spars as [|s rest IH]; intros i Hne Hlen; [congruence|].
  cbn [settable_darrs sp_col]. unfold arr_col.
  destruct (Nat.ltb_spec i (arr_ncols a)) as [Hi|Hi]; [|reflexivity].
  rewrite IH; [reflexivity | | cbn [length] in Hlen; lia].
  destruct rest; [cbn in Hlen; lia | discriminate].
Qed.

Lemma initialize_dataset_short (a : ndarray2) (spars : list (Settable dev))
    (gpars : list (Gettable dev)) w :
  (arr_ncols a < length spars)%nat \/ arr_ncols a = 0%nat ->
  initialize_dataset spars (SpArray a) gpars w = Raised IndexError w.
Proof.
  intros Hcols. unfold initialize_dataset, bind.
  destruct spars as [|s spars].
  - cbn [settable_darrs lift ret sp_col]. unfold arr_col.
    destruct Hcols as [Hc|Hc]; [cbn in Hc; lia|]. now rewrite Hc.
  - rewrite settable_darrs_short; [reflexivity | discriminate |].
    destruct Hcols as [Hc|Hc]; cbn [length] in *; lia.
Qed.

(** X14. When the set-points have fewer columns than there are settables,
    or no column at all, [run] raises [IndexError] before anything is done:
    no identifier is generated, no directory is created, no file is written
    and no collaborator is called. *)
Theorem run_too_few_columns (fuel : nat) (name : string) w (a : ndarray2)
    (g : Gettable dev) (gs : list (Gettable dev)) :
  _gettable_pars w = g :: gs ->
  _setpoints w = SpArray a ->
  (arr_ncols a < length (_settable_pars w))%nat \/ arr_ncols a = 0%nat ->
  exists w',
    run fuel name w = Raised IndexError w' /\
    disk w' = disk w /\
    calls w' = calls w /\
    n_uuid w' = n_uuid w.
Proof.
  intros Hg Hsp Hcols.
  destruct w as [dd dflt spars sp gpars acq bt lu pinfo vb cb avg pmon ivl dv cs dk tt nt
                   nowf nn uu nu].
  cbn in Hg, Hsp, Hcols. subst sp gpars.
  unfold run, bind, first_gettable, modify, gets, time_now, ret.
  cbn -[initialize_dataset].
  rewrite initialize_dataset_short by exact Hcols.
  eexists. repeat split; reflexivity.
Qed.

Lemma imap_names {A} (pre : string) (f : nat -> A -> DataArray) (l : list A) :
  (forall k x, da_name (f k x) = fmt_idx pre k) ->
  map da_name (imap f l) = map (fmt_idx pre) (seq 0 (length l)).
Proof.
  intros Hf. apply list_eq. intros i.
  rewrite !list_lookup_fmap, list_lookup_imap.
  destruct (l !! i) as [x|] eqn:E.
  - rewrite lookup_seq_lt by (now apply lookup_lt_Some in E). cbn. now rewrite Hf.
  - rewrite lookup_seq_ge by (now apply lookup_ge_None in E). reflexivity.
Qed.

(** X23. [initialize_dataset] returns a dataset exactly when the
    set-points have at least one column and at least as many columns as
    there are settables; otherwise it raises [IndexError] and changes
    nothing. The dataset it returns holds the arrays [x0], ..., one per
    settable, followed by [y0], ..., one per gettable: columns of the
    set-points beyond the settables are not stored. *)
Theorem initialize_dataset_succeeds_iff (a : ndarray2) (spars : list (Settable dev))
    (gpars : list (Gettable dev)) w :
  ((exists dataset w', initialize_dataset spars (SpArray a) gpars w = Done dataset w') <->
   (length spars <= arr_ncols a)%nat /\ (0 < arr_ncols a)%nat) /\
  (forall dataset w',
     initialize_dataset spars (SpArray a) gpars w = Done dataset w' ->
     map da_name (data_vars dataset) =
       map (fmt_idx "x") (seq 0 (length spars)) ++
       map (fmt_idx "y") (seq 0 (length gpars))) /\
  ((arr_ncols a < length spars)%nat \/ arr_ncols a = 0%nat ->
   initialize_dataset spars (SpArray a) gpars w = Raised IndexError w).
Proof.
  destruct (Nat.le_gt_cases (length spars) (arr_ncols a)) as [HM|HM];
    [destruct (Nat.eq_dec (arr_ncols a) 0%nat) as [Hc|Hc]|].
  - rewrite (initialize_dataset_short a spars gpars w) by now right.
    split; [|split; [discriminate | reflexivity]].
    split; [intros (? & ? & [=]) | lia].
  - rewrite initialize_dataset_eq by lia.
    split; [split; [lia | eauto]|]. split; [|lia].
    intros ds w' [= <- _]. unfold built_dataset. cbn [data_vars].
    rewrite map_app. f_equal; now apply imap_names.
  - rewrite (initialize_dataset_short a spars gpars w) by now left.
    split; [|split; [discriminate | reflexivity]].
    split; [intros (? & ? & [=]) | lia].
Qed.

End Columns.

Lemma run_too_few_columns_witness :
  exists w',
    run 0 "exp" (Example.with_pars [Example.sx; Example.s_bare "z"] [Example.gy true]
                   Scenario.double_lab) = Raised IndexError w' /\
    disk w' = [] /\
    calls w' = [] /\
    n_uuid w' = 0%nat.
Proof.
  apply (run_too_few_columns 0 "exp"
           (Example.with_pars [Example.sx; Example.s_bare "z"] [Example.gy true]
              Scenario.double_lab)
           (mkArray2 1 [[Num 0]; [Num 1]; [Num 2]]) (Example.gy true) []).
  - reflexivity.
  - reflexivity.
  - left. vm_compute. lia.
Defined.

(** * The optional hooks in general *)

Section HooksInGeneral.

Context {dev : Type}.
Implicit Types (w : world dev).

(** A loop that calls an optional method on each element of a list. *)
Lemma hook_loop_calls {A} (hook : A -> option (dev -> pyerr + dev)) (c : A -> call)
    (body : A -> M dev unit) (l : list A) :
  (forall x, body x = match hook x with
                      | None => raise AttributeError
                      | Some f => log_call (c x) ;;; on_devices f
                      end) ->
  forall w,
    whenever (try_except_AttributeError (for_each l body) w) (fun w' =>
      _settable_pars w' = _settable_pars w /\
      _gettable_pars w' = _gettable_pars w /\
      _setpoints w' = _setpoints w /\
      exists k, calls w' = calls w ++ map c (take k l)).
Proof.
  intros Hbody. unfold try_except_AttributeError.
  assert (H : forall w,
    whenever (for_each l body w) (fun w' =>
      _settable_pars w' = _settable_pars w /\
      _gettable_pars w' = _gettable_pars w /\
      _setpoints w' = _setpoints w /\
      exists k, calls w' = calls w ++ map c (take k l))).
  { induction l as [|x l IH]; intros w.
    - cbn. repeat split. exists 0%nat. now rewrite app_nil_r.
    - cbn [for_each]. unfold bind at 1. rewrite Hbody.
      destruct (hook x) as [f|].
      + unfold bind, log_call, on_devices, bind, gets, modify. cbn [devices set_calls].
        destruct (f (devices w)) as [e|d']; cbn [lift raise ret].
        * cbn. repeat split. now exists 1%nat.
        * match goal with
          | |- context [for_each l body ?w1] =>
              specialize (IH w1); destruct (for_each l body w1) as [? w'|? w'|];
                cbn in IH |- *; [| |exact I];
                destruct IH as (-> & -> & -> & k & ->);
                (repeat split; exists (S k); now rewrite <- app_assoc)
          end.
      + cbn. repeat split. exists 0%nat. now rewrite app_nil_r. }
  intros w. specialize (H w).
  destruct (for_each l body w) as [? w'|e w'|]; [exact H | destruct e; exact H | exact I].
Qed.

Lemma try_never_AttributeError (m : M dev unit) w w' :
  try_except_AttributeError m w <> Raised AttributeError w'.
Proof.
  unfold try_except_AttributeError.
  destruct (m w) as [| e w1 |]; [discriminate | destruct e; discriminate | discriminate].
Qed.

(** A loop that calls an optional method on each element of a list ends
    in one of three ways: every element had the method and every call
    returned; or it reached an element without the method; or the call on
    an element raised. The calls made are those on the elements before
    the stop, and on the element whose call raised. *)
Lemma hook_loop_stops {A} (hook : A -> option (dev -> pyerr + dev)) (c : A -> call)
    (body : A -> M dev unit) (l : list A) :
  (forall x, body x = match hook x with
                      | None => raise AttributeError
                      | Some f => log_call (c x) ;;; on_devices f
                      end) ->
  forall w,
    exists (k : nat) w',
      calls w' = calls w ++ map c (take k l) /\
      Forall (fun x => hook x <> None) (take k l) /\
      (k = length l /\ for_each l body w = Done tt w' \/
       (exists x, l !! k = Some x /\ hook x = None) /\
         for_each l body w = Raised AttributeError w' \/
       (exists j x f d e, k = S j /\ l !! j = Some x /\ hook x = Some f /\
                          f d = inl e /\ for_each l body w = Raised e w')).
Proof.
  intros Hbody. induction l as [|x l IH]; intros w.
  - exists 0%nat, w. cbn. rewrite app_nil_r. repeat split; auto.
  - cbn [for_each]. unfold bind at 1. rewrite Hbody.
    destruct (hook x) as [f|] eqn:Hx.
    + unfold bind, log_call, on_devices, bind, gets, modify. cbn [devices set_calls].
      destruct (f (devices w)) as [e|d'] eqn:Hf; cbn [lift raise ret].
      * exists 1%nat, (set_calls (calls w ++ [c x]) w). cbn [take map calls set_calls].
        split; [reflexivity|]. split; [constructor; [congruence | constructor]|].
        right. right. exists 0%nat, x, f, (devices w), e. repeat split; assumption.
      * match goal with
        | |- context [for_each l body ?w1] =>
            destruct (IH w1) as (k & w' & Hc & Hall & Hstop)
        end.
        exists (S k), w'. cbn [take map]. cbn [calls set_devices set_calls] in Hc.
        split; [rewrite Hc, <- app_assoc; reflexivity|].
        split; [constructor; [congruence | exact Hall]|].
        destruct Hstop as [[-> Hr]|[[(y & Hy & Hn) Hr]|(j & y & g & d & e & -> & Hy & Hg & He & Hr)]].
        -- left. split; [reflexivity | exact Hr].
        -- right. left. split; [now exists y | exact Hr].
        -- right. right. exists (S j), y, g, d, e. repeat split; assumption.
    + exists 0%nat, w. cbn. rewrite app_nil_r.
      split; [reflexivity|]. split; [constructor|].
      right. left. split; [now exists x | reflexivity].
Qed.


(** X16. [_prepare] calls [prepare] on an initial part of the settables
    and then on an initial part of the gettables, each in their order, and
    makes no other call; it never raises [AttributeError]. *)
Theorem prepare_calls_prefixes w :
  whenever (_prepare w) (fun w' =>
    exists i j,
      calls w' = calls w ++
        map (fun s => CPrepare RSettable (s_name s)) (take i (_settable_pars w)) ++
        map (fun g => CPrepare RGettable (g_name g)) (take j (_gettable_pars w))) /\
  (forall w', _prepare w <> Raised AttributeError w').
Proof.
  set (T1 := @try_except_AttributeError dev
               (pars <- gets _settable_pars ;; for_each pars settable_prepare)).
  set (T2 := @try_except_AttributeError dev
               (pars <- gets _gettable_pars ;; setpoints <- gets _setpoints ;;
                for_each pars (fun par => gettable_prepare par setpoints))).
  assert (E1 : forall w0, T1 w0 =
            try_except_AttributeError
              (for_each (_settable_pars w0) settable_prepare) w0) by reflexivity.
  assert (E2 : forall w0, T2 w0 =
            try_except_AttributeError
              (for_each (_gettable_pars w0)
                 (fun par => gettable_prepare par (_setpoints w0))) w0) by reflexivity.
  change (_prepare w) with (bind T1 (fun _ => T2) w). unfold bind.
  pose proof (hook_loop_calls s_prepare (fun s => CPrepare RSettable (s_name s))
                settable_prepare (_settable_pars w) (fun _ => eq_refl) w) as H1.
  pose proof (try_never_AttributeError
                (for_each (_settable_pars w) settable_prepare) w) as N1.
  rewrite E1. clearbody T1 T2.
  destruct (try_except_AttributeError _ w) as [[] w1|e w1|]; cbn [whenever] in H1.
  - destruct H1 as (Hs & Hg & Hsp & i & Hi).
    pose proof (hook_loop_calls
                  (fun g => match g_prepare g with
                            | Some f => Some (f (_setpoints w1))
                            | None => None
                            end)
                  (fun g => CPrepare RGettable (g_name g))
                  (fun g => gettable_prepare g (_setpoints w1)) (_gettable_pars w1)) as H2.
    lapply H2;
      [clear H2; intros H2
      | intros g; unfold gettable_prepare; now destruct (g_prepare g)].
    specialize (H2 w1).
    pose proof (try_never_AttributeError
                  (for_each (_gettable_pars w1)
                     (fun par => gettable_prepare par (_setpoints w1))) w1) as N2.
    rewrite E2.
    destruct (try_except_AttributeError _ w1) as [[] w2|e w2|]; cbn [whenever] in H2 |- *.
    + destruct H2 as (_ & _ & _ & j & Hj). split; [|discriminate].
      exists i, j. now rewrite Hj, Hi, Hg, <- app_assoc.
    + destruct H2 as (_ & _ & _ & j & Hj). split.
      * exists i, j. now rewrite Hj, Hi, Hg, <- app_assoc.
      * intros w' E. injection E as -> ->. now apply (N2 w').
    + split; [exact I | discriminate].
  - destruct H1 as (_ & _ & _ & i & Hi). split.
    + exists i, 0%nat. now rewrite Hi, app_nil_r.
    + intros w' E. injection E as -> ->. now apply (N1 w').
  - split; [exact I | discriminate].
Qed.

End HooksInGeneral.

(** * Updates during the acquisition *)

Section Updates.

Context {dev : Type}.
Implicit Types (w : world dev).

(** X17. [_update] is throttled: it acts when more than the update
    interval has elapsed since the last update, or when the number of
    acquired values equals the number of rows of the set-points. Then it
    writes the dataset file of the experiment folder once and records the
    time read after the write as the time of the last update. Otherwise it
    writes nothing, calls nothing and keeps the time of the last update.
    In both cases the instruments are left alone. *)
Theorem update_throttle (dataset : Dataset) (pm : option string) (folder : string) w :
  (sp_len (_setpoints w) * soft_avg w <> 0)%nat ->
  let due := (negb (Qle_bool (time_time w (n_time w) - _last_upd w) (update_interval w))
              || (_nr_acquired_values w =? sp_len (_setpoints w))%nat)%bool in
  exists w',
    _update dataset pm folder w = Done tt w' /\
    devices w' = devices w /\
    disk w' =
      disk w ++ (if due then [WriteDataset (path_join folder ["dataset.hdf5"]) dataset]
                 else []) /\
    _last_upd w' = (if due then time_time w (S (S (n_time w))) else _last_upd w) /\
    (due = false -> calls w' = calls w).
Proof.
  intros Htot due.
  unfold _update, time_now, bind, gets. cbn -[Qle_bool Nat.eqb]. fold due.
  destruct due.
  - unfold print_progress, _get_fracdone, bind, gets, time_now.
    cbn -[Qle_bool Nat.eqb Nat.mul Qmult].
    destruct (Nat.eqb_spec (sp_len (_setpoints w) * soft_avg w) 0); [contradiction|].
    cbn -[Qle_bool Nat.eqb Nat.mul Qmult].
    destruct (on_progress_callback w); cbn -[Qle_bool Nat.eqb Nat.mul Qmult];
      destruct (verbose w); cbn -[Qle_bool Nat.eqb Nat.mul Qmult];
      destruct (has_plotmon pm); cbn -[Qle_bool Nat.eqb Nat.mul Qmult];
      (eexists; split; [reflexivity|]); cbn; repeat split; discriminate.
  - eexists; split; [reflexivity|]. cbn. rewrite app_nil_r. repeat split.
Qed.

End Updates.

Lemma update_throttle_witness :
  exists w',
    _update Scenario.no_dataset None "/data/exp" Scenario.double_lab = Done tt w' /\
    devices w' = NaN /\
    disk w' = [] /\
    _last_upd w' = (1 # 100)%Q /\
    (false = false -> calls w' = []).
Proof.
  apply (update_throttle Scenario.no_dataset None "/data/exp" Scenario.double_lab).
  vm_compute. discriminate.
Defined.

(** * Blocks of a bulk read *)

Section Blocks.

Context {dev : Type}.
Implicit Types (w : world dev).

(** X18. Every block of a bulk read is written from index 0: writing a
    one-row block after a block that is not longer leaves the gettable
    array exactly as writing the later block alone does, so the values of
    the earlier block are lost. *)
Theorem write_block_overwrites (X : DataArray) (ys : list num) ay attrs
    (row1 row2 : list num) w :
  da_name X <> "y0" ->
  (length row1 <= length row2)%nat ->
  (length row2 <= length ys)%nat ->
  (r <- write_block [row1] (xy_dataset X ys ay attrs) ;; write_block [row2] (fst r)) w =
    write_block [row2] (xy_dataset X ys ay attrs) w /\
  write_block [row2] (xy_dataset X ys ay attrs) w =
    Done (xy_dataset X (row2 ++ drop (length row2) ys) ay attrs, length row2) w.
Proof.
  intros HX H12 H2.
  rewrite (write_block_from_index_0 X ys ay attrs row2 w HX H2).
  split; [|reflexivity].
  unfold bind. rewrite write_block_from_index_0 by (assumption || lia).
  cbn [fst]. rewrite write_block_from_index_0;
    [| assumption | rewrite length_app, length_drop; lia].
  do 3 f_equal. rewrite drop_app_ge by exact H12.
  rewrite drop_drop. do 2 f_equal. lia.
Qed.

Lemma fmt_idx_y1 : fmt_idx "y" 1 = "y1".
Proof. reflexivity. Qed.

(** X24. A block with a second row that holds a value cannot be stored in
    a dataset that has the one gettable array [y0]: after the first row
    has been written, the first value of the second row is looked up under
    [y1] and the write raises [KeyError]. *)
Theorem write_block_second_row_raises (X : DataArray) (ys : list num) ay attrs
    (row0 : list num) (v : num) (row1 : list num) (rest : list (list num)) w :
  da_name X <> "y0" ->
  da_name X <> "y1" ->
  (length row0 <= length ys)%nat ->
  write_block (row0 :: (v :: row1) :: rest) (xy_dataset X ys ay attrs) w
  = Raised KeyError w.
Proof.
  intros HX0 HX1 Hlen. unfold write_block. cbn [for_enum fst].
  unfold bind at 1. unfold bind at 1.
  rewrite (write_row_at X ay attrs row0 HX0 0 ys w) by (cbn; lia).
  cbn [ret]. unfold bind at 1. unfold bind at 1. unfold bind at 1.
  rewrite fmt_idx_y1. unfold ds_set_value, xy_dataset. cbn [data_vars find_var da_name fst].
  assert (String.eqb (da_name X) "y1" = false) as ->
    by (destruct (String.eqb_spec (da_name X) "y1"); [contradiction | reflexivity]).
  reflexivity.
Qed.

End Blocks.

Lemma write_block_second_row_raises_witness :
  write_block [[Num 1; Num 2]; [Num 3; Num 4]] Scenario.three_point_dataset
    (Example.lab tt Example.uuid_a)
  = Raised KeyError (Example.lab tt Example.uuid_a).
Proof.
  apply (write_block_second_row_raises (mkDataArray "x0" [Num 0; Num 1; Num 2] ∅)
           [NaN; NaN; NaN] ∅ ∅ [Num 1; Num 2] (Num 3) [Num 4] []
           (Example.lab tt Example.uuid_a)).
  - discriminate.
  - discriminate.
  - vm_compute. lia.
Defined.

Lemma write_block_overwrites_witness :
  (r <- write_block [[Num 1; Num 2]] Scenario.three_point_dataset ;;
   write_block [[Num 7; Num 8]] (fst r)) (Example.lab tt Example.uuid_a) =
    write_block [[Num 7; Num 8]] Scenario.three_point_dataset
      (Example.lab tt Example.uuid_a) /\
  write_block [[Num 7; Num 8]] Scenario.three_point_dataset
    (Example.lab tt Example.uuid_a) =
    Done (xy_dataset (mkDataArray "x0" [Num 0; Num 1; Num 2] ∅) [Num 7; Num 8; NaN] ∅ ∅,
          2%nat) (Example.lab tt Example.uuid_a).
Proof.
  apply (write_block_overwrites (mkDataArray "x0" [Num 0; Num 1; Num 2] ∅)
           [NaN; NaN; NaN] ∅ ∅ [Num 1; Num 2] [Num 7; Num 8]
           (Example.lab tt Example.uuid_a)).
  - discriminate.
  - vm_compute. lia.
  - vm_compute. lia.
Defined.

(** * The dataset returned and the folder on disk *)

Section ReturnedDataset.

Context {dev : Type}.
Implicit Types (w : world dev).

Lemma for_enum_Done {A St} (Q : St -> Prop) (l : list A)
    (body : nat -> A -> St -> M dev St) :
  (forall i x acc w acc' w', body i x acc w = Done acc' w' -> Q acc -> Q acc') ->
  forall i acc w acc' w', for_enum i l acc body w = Done acc' w' -> Q acc -> Q acc'.
Proof.
  intros Hbody. induction l as [|x l IH]; intros i acc w acc' w' H HQ; cbn [for_enum] in H.
  - injection H as <- _. exact HQ.
  - apply bind_Done in H as (acc1 & w1 & H1 & H).
    exact (IH _ _ _ _ _ H (Hbody _ _ _ _ _ _ H1 HQ)).
Qed.

Lemma ds_set_value_attrs (ds ds' : Dataset) (name : string) (idx : nat) (v : num) :
  ds_set_value ds name idx v = inr ds' -> ds_attrs ds' = ds_attrs ds.
Proof.
  unfold ds_set_value. destruct (find_var name (data_vars ds)); [|discriminate].
  destruct (_ <? _)%nat; [|discriminate]. intros [= <-]. reflexivity.
Qed.

Lemma store_value_attrs (ds ds' : Dataset) (name : string) (idx : nat) (v : pyval) :
  store_value ds name idx v = inr ds' -> ds_attrs ds' = ds_attrs ds.
Proof.
  unfold store_value. destruct (ds_getitem ds name); [discriminate|].
  destruct v as [v|[|[|v []] []]]; try discriminate; apply ds_set_value_attrs.
Qed.

Lemma lift_Done {A} (r : pyerr + A) w (a : A) w' :
  lift r w = Done a w' -> r = inr a /\ w' = w.
Proof. destruct r; [discriminate|]. intros [= <- <-]. now split. Qed.

Lemma soft_body_attrs (pm : option string) (folder : string) (idx : nat)
    (spts : list num) (dataset dataset' : Dataset) w w' :
  soft_body pm folder idx spts dataset w = Done dataset' w' ->
  ds_attrs dataset' = ds_attrs dataset.
Proof.
  unfold soft_body. intros H.
  apply bind_Done in H as (spars & ? & _ & H).
  apply bind_Done in H as ([] & w2 & _ & H).
  apply bind_Done in H as (gpars & ? & _ & H).
  apply bind_Done in H as (ds1 & w3 & H2 & H).
  apply bind_Done in H as ([] & w4 & _ & H).
  apply bind_Done in H as ([] & w5 & _ & H).
  injection H as <- _.
  refine (for_enum_Done (fun ds => ds_attrs ds = ds_attrs dataset) _ _ _ _ _ _ _ _ H2 eq_refl).
  intros j g acc w0 acc' w0' Hb Hacc.
  apply bind_Done in Hb as (v & ? & _ & Hb). apply lift_Done in Hb as [Hb _].
  apply store_value_attrs in Hb. congruence.
Qed.

Lemma write_block_attrs (rows : list (list num)) (dataset : Dataset) w
    (r : Dataset * nat) w' :
  write_block rows dataset w = Done r w' -> ds_attrs (fst r) = ds_attrs dataset.
Proof.
  unfold write_block. intros H.
  refine (for_enum_Done (fun st => ds_attrs (fst st) = ds_attrs dataset)
            _ _ _ _ _ _ _ _ H eq_refl).
  intros i row st w0 st' w0' Hb Hst.
  apply bind_Done in Hb as (ds1 & ? & Hb1 & Hb). injection Hb as <- _. cbn [fst].
  refine (for_enum_Done (fun ds => ds_attrs ds = ds_attrs dataset) _ _ _ _ _ _ _ _ Hb1 Hst).
  intros j dp acc w1 acc' w1' Hc Hacc. apply lift_Done in Hc as [Hc _].
  apply ds_set_value_attrs in Hc. congruence.
Qed.

Lemma hard_body_attrs (pm : option string) (folder : string)
    (dataset dataset' : Dataset) w w' :
  hard_body pm folder dataset w = Done dataset' w' ->
  ds_attrs dataset' = ds_attrs dataset.
Proof.
  unfold hard_body. intros H.
  apply bind_Done in H as (g0 & ? & _ & H).
  apply bind_Done in H as (v & ? & _ & H).
  apply bind_Done in H as (rows & ? & _ & H).
  apply bind_Done in H as (r & ? & Hr & H).
  apply bind_Done in H as ([] & ? & _ & H).
  apply bind_Done in H as ([] & ? & _ & H).
  injection H as <- _. exact (write_block_attrs _ _ _ _ _ Hr).
Qed.

Lemma hard_loop_attrs (fuel : nat) (pm : option string) (folder : string) :
  forall (dataset dataset' : Dataset) w w',
    hard_loop fuel pm folder dataset w = Done dataset' w' ->
    ds_attrs dataset' = ds_attrs dataset.
Proof.
  induction fuel as [|fuel IH]; intros ds ds' w w' H; cbn [hard_loop] in H;
    apply bind_Done in H as (frac & ? & _ & H);
    destruct (negb _); try discriminate H; try (now injection H as <- _).
  apply bind_Done in H as (ds1 & ? & H1 & H).
  apply hard_body_attrs in H1. apply IH in H. congruence.
Qed.

Lemma create_exp_folder_folder (tuid name : string) (folder : string) w w' :
  create_exp_folder tuid name None w = Done folder w' ->
  folder = exp_folder_of (datadir_of w) tuid name /\
  disk w' = disk w ++ [MakeDirs folder].
Proof.
  intros H. split; [|exact (create_exp_folder_Done _ _ _ _ _ _ H)].
  unfold create_exp_folder in H. destruct (negb _); [discriminate|].
  apply bind_Done in H as (dd & w1 & H1 & H). cbn beta zeta in H.
  unfold bind, fs_do, modify, ret in H. injection H as <- _.
  unfold exp_folder_of, datadir_of.
  unfold get_datadir, bind, gets in H1.
  destruct (_datadir w); injection H1 as <- _; reflexivity.
Qed.

(** X19. The dataset a run returns names its own folder: it carries the
    identifier generated for it under [tuid] and the name given under
    [name] (as long as the plot info does not hold entries under these two
    keys), and the directory the run has created is the experiment folder
    of that identifier and name under the data directory in force, the
    one set or else the default. *)
Theorem run_folder_of_returned_dataset (fuel : nat) (name : string) w
    (dataset : Dataset) w' :
  _plot_info w !! "tuid" = None ->
  _plot_info w !! "name" = None ->
  run fuel name w = Done dataset w' ->
  exists (tuid : string) (ops : list fsop),
    ds_attrs dataset !! "tuid" = Some (AStr tuid) /\
    ds_attrs dataset !! "name" = Some (AStr name) /\
    disk w' = disk w ++ MakeDirs (exp_folder_of (datadir_of w) tuid name) :: ops.
Proof.
  intros Ptuid Pname H. unfold run in H.
  set (Inv := fun w1 : world dev =>
                _datadir w1 = _datadir w /\ _default_datadir w1 = _default_datadir w /\
                _plot_info w1 = _plot_info w /\ disk w1 = disk w).
  assert (Hinv : Inv w) by (repeat split).
  assert (Hside : forall f : world dev -> world dev,
            (forall w1, _datadir (f w1) = _datadir w1) ->
            (forall w1, _default_datadir (f w1) = _default_datadir w1) ->
            (forall w1, _plot_info (f w1) = _plot_info w1) ->
            (forall w1, disk (f w1) = disk w1) ->
            forall w1, Inv w1 -> Inv (f w1)).
  { intros f F1 F2 F3 F4 w1 (I1 & I2 & I3 & I4).
    unfold Inv. rewrite F1, F2, F3, F4. auto. }
  do 7 (step_inv Hinv H ltac:(repeat keeps_prim ltac:(apply Hside; reflexivity))).
  apply bind_Done in H as (ds0 & w1 & Hds0 & H). cbn beta zeta in H.
  pose proof (keeps_Done Inv _ _ _ _ Hds0 Hinv) as Hinv1.
  lapply Hinv1;
    [clear Hinv1; intros Hinv1
    | repeat keeps_prim ltac:(apply Hside; reflexivity)].
  apply bind_Done in H as (pinfo & ? & [= <- <-] & H). cbn beta zeta in H.
  apply bind_Done in H as (tuid & ? & Htuid & H). cbn beta zeta in H.
  apply lift_Done in Htuid as [Htuid ->].
  apply bind_Done in H as (name' & ? & Hname & H). cbn beta zeta in H.
  apply lift_Done in Hname as [Hname ->].
  destruct Hinv1 as (I1 & I2 & I3 & I4).
  assert (Hattr_name :
    ds_attrs (ds_update_attrs (ds_set_attr ds0 "name" (AStr name)) (_plot_info w1)) !! "name"
    = Some (AStr name)).
  { cbn [ds_attrs ds_update_attrs ds_set_attr]. rewrite I3.
    rewrite lookup_union_r by exact Pname. apply lookup_insert_eq. }
  unfold ds_attr_str in Htuid, Hname. rewrite Hattr_name in Hname.
  injection Hname as <-.
  destruct (ds_attrs _ !! "tuid") as [[tuid0| |]|] eqn:Hattr_tuid; try discriminate Htuid.
  injection Htuid as ->.
  apply bind_Done in H as (folder & wB & HB & H). cbn beta zeta in H.
  apply create_exp_folder_folder in HB as [-> HB].
  assert (Hdd : datadir_of w1 = datadir_of w) by (unfold datadir_of; now rewrite I1, I2).
  rewrite Hdd in *.
  assert (Hinv2 : extends any any wB wB) by apply extends_refl.
  revert Hinv2 H. generalize wB at 2 3 as wE. intros wE Hinv2 H.
  step_inv Hinv2 H ltac:(use_keeps @keeps_fs_do).
  step_inv Hinv2 H ltac:(use_keeps @keeps_fs_do).
  step_inv Hinv2 H ltac:(use_keeps @keeps_prepare).
  step_inv Hinv2 H ltac:(repeat keeps_step).
  step_inv Hinv2 H ltac:(repeat keeps_step; use_keeps @keeps_log_call).
  apply bind_Done in H as (ds1 & wL & HL & H). cbn beta zeta in H.
  assert (Hattrs : ds_attrs ds1 =
            ds_attrs (ds_update_attrs (ds_set_attr ds0 "name" (AStr name)) (_plot_info w1))).
  { destruct (is_internally_controlled _).
    - refine (for_enum_Done (fun ds => ds_attrs ds = _) _ _ _ _ _ _ _ _ HL eq_refl).
      intros i row acc w0 acc' w0' Hb Hacc. apply soft_body_attrs in Hb. congruence.
    - exact (hard_loop_attrs _ _ _ _ _ _ _ HL). }
  pose proof (keeps_Done (extends any any wB) _ _ _ _ HL Hinv2) as Hinv3.
  lapply Hinv3;
    [clear Hinv3 Hinv2; intros Hinv2
    | use_keeps @keeps_acquire].
  step_inv Hinv2 H ltac:(use_keeps @keeps_finish).
  step_inv Hinv2 H ltac:(use_keeps @keeps_fs_do).
  step_inv Hinv2 H ltac:(repeat keeps_step).
  injection H as <- <-.
  destruct Hinv2 as [_ _ _ _ _ _ _ _ _ _ (ops & Hops & _)].
  exists tuid, ops. rewrite Hattrs. split; [exact Hattr_tuid|]. split; [exact Hattr_name|].
  rewrite Hops, HB, I4, <- app_assoc. reflexivity.
Qed.

End ReturnedDataset.

Lemma run_folder_of_returned_dataset_witness :
  exists (tuid : string) (ops : list fsop),
    ds_attrs (result_of (run 0 "exp" Scenario.double_lab) Scenario.no_dataset) !! "tuid"
      = Some (AStr tuid) /\
    ds_attrs (result_of (run 0 "exp" Scenario.double_lab) Scenario.no_dataset) !! "name"
      = Some (AStr "exp") /\
    disk (world_of (run 0 "exp" Scenario.double_lab) Scenario.double_lab) =
      disk Scenario.double_lab ++
      MakeDirs (exp_folder_of (datadir_of Scenario.double_lab) tuid "exp") :: ops.
Proof.
  apply (run_folder_of_returned_dataset 0 "exp" Scenario.double_lab).
  - reflexivity.
  - reflexivity.
  - vm_compute. reflexivity.
Defined.

(** * The shape of the dataset returned *)

Section ReturnedShape.

Context {dev : Type}.
Implicit Types (w : world dev).

Lemma replace_var_names (name : string) (vals : list num) (vars : list DataArray) :
  map da_name (replace_var name vals vars) = map da_name vars.
Proof.
  induction vars as [|v vars IH]; [reflexivity|]. cbn [replace_var].
  destruct (String.eqb (da_name v) name); cbn [map da_name]; [reflexivity | now rewrite IH].
Qed.

Lemma replace_var_lengths (name : string) (vals : list num) (vars : list DataArray)
    (v0 : DataArray) :
  find_var name vars = Some v0 -> length vals = length (da_values v0) ->
  map (fun v => length (da_values v)) (replace_var name vals vars) =
  map (fun v => length (da_values v)) vars.
Proof.
  intros Hf Hlen. induction vars as [|v vars IH]; [reflexivity|].
  cbn [replace_var find_var] in *.
  destruct (String.eqb (da_name v) name); cbn [map da_values].
  - injection Hf as <-. now rewrite Hlen.
  - now rewrite IH.
Qed.

Lemma replace_var_other (name name' : string) (vals : list num) (vars : list DataArray) :
  name' <> name ->
  find_var name' (replace_var name vals vars) = find_var name' vars.
Proof.
  intros Hne. induction vars as [|v vars IH]; [reflexivity|]. cbn [replace_var].
  destruct (String.eqb_spec (da_name v) name) as [E|E]; cbn [find_var da_name].
  - destruct (String.eqb_spec (da_name v) name'); [congruence | reflexivity].
  - now rewrite IH.
Qed.

(** What the loops keep of the dataset: the names and lengths of its
    arrays, and the arrays of the settables. *)
Lemma ds_set_value_shape (vars0 : list DataArray) (ds ds' : Dataset) (j idx : nat)
    (v : num) :
  ds_set_value ds (fmt_idx "y" j) idx v = inr ds' ->
  same_shape vars0 ds -> same_shape vars0 ds'.
Proof.
  unfold ds_set_value.
  destruct (find_var _ (data_vars ds)) as [v0|] eqn:Hf; [|discriminate].
  destruct (_ <? _)%nat; [|discriminate]. intros [= <-] (Hn & Hl & Hx).
  unfold same_shape. cbn [data_vars]. split; [|split].
  - now rewrite replace_var_names.
  - rewrite (replace_var_lengths _ _ _ v0 Hf); [exact Hl | apply length_insert].
  - intros i. rewrite replace_var_other; [apply Hx | apply fmt_idx_x_y].
Qed.

Lemma store_value_shape (vars0 : list DataArray) (ds ds' : Dataset) (j idx : nat)
    (v : pyval) :
  store_value ds (fmt_idx "y" j) idx v = inr ds' ->
  same_shape vars0 ds -> same_shape vars0 ds'.
Proof.
  unfold store_value. destruct (ds_getitem ds _); [discriminate|].
  destruct v as [v|[|[|v []] []]]; try discriminate; apply ds_set_value_shape.
Qed.

Lemma soft_body_shape (vars0 : list DataArray) (pm : option string) (folder : string)
    (idx : nat) (spts : list num) (dataset dataset' : Dataset) w w' :
  soft_body pm folder idx spts dataset w = Done dataset' w' ->
  same_shape vars0 dataset -> same_shape vars0 dataset'.
Proof.
  unfold soft_body. intros H.
  apply bind_Done in H as (spars & ? & _ & H).
  apply bind_Done in H as ([] & w2 & _ & H).
  apply bind_Done in H as (gpars & ? & _ & H).
  apply bind_Done in H as (ds1 & w3 & H2 & H).
  apply bind_Done in H as ([] & w4 & _ & H).
  apply bind_Done in H as ([] & w5 & _ & H).
  injection H as <- _.
  refine (for_enum_Done (same_shape vars0) _ _ _ _ _ _ _ _ H2).
  intros j g acc w0 acc' w0' Hb.
  apply bind_Done in Hb as (v & ? & _ & Hb). apply lift_Done in Hb as [Hb _].
  exact (store_value_shape _ _ _ _ _ _ Hb).
Qed.

Lemma write_block_shape (vars0 : list DataArray) (rows : list (list num))
    (dataset : Dataset) w (r : Dataset * nat) w' :
  write_block rows dataset w = Done r w' ->
  same_shape vars0 dataset -> same_shape vars0 (fst r).
Proof.
  unfold write_block. intros H.
  refine (for_enum_Done (fun st => same_shape vars0 (fst st)) _ _ _ _ _ _ _ _ H).
  intros i row st w0 st' w0' Hb.
  apply bind_Done in Hb as (ds1 & ? & Hb1 & Hb). injection Hb as <- _. cbn [fst].
  refine (for_enum_Done (same_shape vars0) _ _ _ _ _ _ _ _ Hb1).
  intros j dp acc w1 acc' w1' Hc. apply lift_Done in Hc as [Hc _].
  exact (ds_set_value_shape _ _ _ _ _ _ Hc).
Qed.

Lemma hard_loop_shape (vars0 : list DataArray) (fuel : nat) (pm : option string)
    (folder : string) :
  forall (dataset dataset' : Dataset) w w',
    hard_loop fuel pm folder dataset w = Done dataset' w' ->
    same_shape vars0 dataset -> same_shape vars0 dataset'.
Proof.
  induction fuel as [|fuel IH]; intros ds ds' w w' H; cbn [hard_loop] in H;
    apply bind_Done in H as (frac & ? & _ & H);
    destruct (negb _); try discriminate H; try (now injection H as <- _).
  apply bind_Done in H as (ds1 & ? & H1 & H). intros Hs.
  apply (IH _ _ _ _ H). clear H IH.
  unfold hard_body in H1.
  apply bind_Done in H1 as (g0 & ? & _ & H1).
  apply bind_Done in H1 as (v & ? & _ & H1).
  apply bind_Done in H1 as (rows & ? & _ & H1).
  apply bind_Done in H1 as (r & ? & Hr & H1).
  apply bind_Done in H1 as ([] & ? & _ & H1).
  apply bind_Done in H1 as ([] & ? & _ & H1).
  injection H1 as <- _. exact (write_block_shape _ _ _ _ _ _ Hr Hs).
Qed.

(** The parts of a run that returns: the dataset built, and the loop that
    fills it. *)
Lemma run_Done_parts (fuel : nat) (name : string) w (dataset : Dataset) w' :
  run fuel name w = Done dataset w' ->
  exists (g0 : Gettable dev) (dataset0 : Dataset) (pm : option string) (folder : string)
         (pinfo : gmap string attr) (wA wB wC wD : world dev),
    initialize_dataset (_settable_pars w) (_setpoints w) (_gettable_pars w) wA
      = Done dataset0 wB /\
    (if is_internally_controlled g0
     then for_enum 0 (sp_rows (_setpoints w))
            (ds_update_attrs (ds_set_attr dataset0 "name" (AStr name)) pinfo)
            (soft_body pm folder)
     else hard_loop fuel pm folder
            (ds_update_attrs (ds_set_attr dataset0 "name" (AStr name)) pinfo)) wC
      = Done dataset wD.
Proof.
  intros H. unfold run in H.
  apply bind_Done in H as ([] & ? & [= <-] & H).
  apply bind_Done in H as (t & ? & [= <- <-] & H).
  apply bind_Done in H as ([] & ? & [= <-] & H).
  apply bind_Done in H as (g0 & ? & Hfg & H). cbn beta zeta in H.
  assert (Hw : x = set_begintime (time_time w (n_time w))
                     (set_n_time (S (n_time w)) (set_nr_acquired_values 0 w))).
  { unfold first_gettable, bind, gets in Hfg.
    destruct (_gettable_pars _); [discriminate | now injection Hfg]. }
  subst x.
  apply bind_Done in H as (spars & ? & [= <- <-] & H).
  apply bind_Done in H as (sp & ? & [= <- <-] & H).
  apply bind_Done in H as (gpars & ? & [= <- <-] & H).
  cbn [_settable_pars _setpoints _gettable_pars set_begintime set_n_time
       set_nr_acquired_values] in H.
  apply bind_Done in H as (ds0 & wB & Hinit & H). cbn beta zeta in H.
  apply bind_Done in H as (pinfo & ? & [= <- <-] & H). cbn beta zeta in H.
  apply bind_Done in H as (tuid & ? & _ & H). cbn beta zeta in H.
  apply bind_Done in H as (name' & ? & _ & H). cbn beta zeta in H.
  apply bind_Done in H as (folder & ? & _ & H). cbn beta zeta in H.
  apply bind_Done in H as ([] & ? & _ & H).
  apply bind_Done in H as ([] & ? & _ & H).
  apply bind_Done in H as ([] & ? & _ & H).
  apply bind_Done in H as (pm & ? & _ & H). cbn beta zeta in H.
  apply bind_Done in H as ([] & wC & _ & H).
  apply bind_Done in H as (ds1 & wD & Hloop & H). cbn beta zeta in H.
  apply bind_Done in H as ([] & ? & _ & H).
  apply bind_Done in H as ([] & ? & _ & H).
  apply bind_Done in H as ([] & ? & _ & H).
  injection H as <- _.
  eexists g0, ds0, pm, folder, (_plot_info wB), _, wB, wC, wD.
  split; [exact Hinit | exact Hloop].
Qed.

Lemma find_var_nth (vars : list DataArray) (i : nat) (v : DataArray) :
  NoDup (map da_name vars) -> vars !! i = Some v -> find_var (da_name v) vars = Some v.
Proof.
  revert i. induction vars as [|u vars IH]; intros i Hnd Hi; [discriminate|].
  cbn [map] in Hnd. apply NoDup_cons in Hnd as [Hu Hnd]. cbn [find_var].
  destruct i as [|i].
  - injection Hi as ->. now rewrite String.eqb_refl.
  - cbn in Hi. destruct (String.eqb_spec (da_name u) (da_name v)) as [E|E].
    + exfalso. apply Hu. rewrite E. apply list_elem_of_fmap. exists v.
      split; [reflexivity | now apply list_elem_of_lookup_2 in Hi].
    + exact (IH i Hnd Hi).
Qed.

(** X25. The dataset a run returns has the shape of the dataset built at
    its start, whichever loop has filled it: its arrays are [x0], ..., one
    per settable, followed by [y0], ..., one per gettable, each with as
    many values as the set-points have rows, and every [x{i}] still holds
    column [i] of the set-points and carries exactly the attributes
    [name], [long_name] and [unit] with the name, label and unit of
    settable [i]. *)
Theorem run_returns_built_shape (fuel : nat) (name : string) w (a : ndarray2)
    (dataset : Dataset) w' :
  _setpoints w = SpArray a ->
  run fuel name w = Done dataset w' ->
  map da_name (data_vars dataset) =
    map (fmt_idx "x") (seq 0 (length (_settable_pars w))) ++
    map (fmt_idx "y") (seq 0 (length (_gettable_pars w))) /\
  Forall (fun v => length (da_values v) = length (arr_rows a)) (data_vars dataset) /\
  (forall i s, _settable_pars w !! i = Some s ->
     ds_getitem dataset (fmt_idx "x" i) =
     inr (mkDataArray (fmt_idx "x" i) (map (fun r => nth i r NaN) (arr_rows a))
            (<["unit" := s_unit s]>
               (<["long_name" := s_label s]> (<["name" := s_name s]> ∅))))).
Proof.
  intros Hsp H.
  apply run_Done_parts in H
    as (g0 & ds0 & pm & folder & pinfo & wA & wB & wC & wD & Hinit & Hloop).
  rewrite Hsp in Hinit, Hloop.
  set (spars := _settable_pars w) in *. set (gpars := _gettable_pars w) in *.
  assert (Hcols : (length spars <= arr_ncols a)%nat /\ (0 < arr_ncols a)%nat).
  { destruct (Nat.le_gt_cases (length spars) (arr_ncols a)) as [HM|HM].
    - split; [exact HM|]. destruct (Nat.eq_dec (arr_ncols a) 0%nat) as [Hc|Hc]; [|lia].
      rewrite initialize_dataset_short in Hinit by now right. discriminate.
    - rewrite initialize_dataset_short in Hinit by now left. discriminate. }
  rewrite initialize_dataset_eq in Hinit by tauto. injection Hinit as <- _.
  set (vars0 := imap (fun k s => x_array a k s) spars ++
                imap (fun k g => y_array (length (arr_rows a)) k g) gpars) in *.
  assert (Hshape : same_shape vars0 dataset).
  { assert (H0 : same_shape vars0
                   (ds_update_attrs
                      (ds_set_attr (built_dataset a spars gpars
                                      (tuid_text (datetime_now wA (n_now wA))
                                         (uuid4 wA (n_uuid wA))))
                         "name" (AStr name)) pinfo))
      by (repeat split).
    destruct (is_internally_controlled g0).
    - refine (for_enum_Done (same_shape vars0) _ _ _ _ _ _ _ _ Hloop H0).
      intros i row acc w0 acc' w0' Hb. exact (soft_body_shape _ _ _ _ _ _ _ _ _ Hb).
    - exact (hard_loop_shape _ _ _ _ _ _ _ _ Hloop H0). }
  destruct Hshape as (Hn & Hl & Hx).
  split; [|split].
  - rewrite Hn. subst vars0. rewrite map_app. f_equal; now apply imap_names.
  - pose proof (built_lengths a spars gpars) as Hb. fold vars0 in Hb.
    rewrite Forall_forall in Hb. apply Forall_forall. intros v Hv.
    assert (Hin : length (da_values v) ∈
                  map (fun v => length (da_values v)) (data_vars dataset))
      by (apply list_elem_of_fmap; now exists v).
    rewrite Hl in Hin. apply list_elem_of_fmap in Hin as (v0 & -> & Hv0).
    now apply Hb.
  - intros i s Hi. unfold ds_getitem. rewrite Hx.
    assert (Hv : vars0 !! i = Some (x_array a i s)).
    { subst vars0. rewrite lookup_app_l by (rewrite length_imap; now apply lookup_lt_Some in Hi).
      now rewrite list_lookup_imap, Hi. }
    pose proof (find_var_nth vars0 i (x_array a i s)
                  (dataset_names_distinct a spars gpars (length (arr_rows a))) Hv) as Hf.
    cbn [da_name x_array] in Hf. now rewrite Hf.
Qed.

End ReturnedShape.

Lemma run_returns_built_shape_witness :
  map da_name (data_vars (result_of (run 0 "exp" Scenario.double_lab) Scenario.no_dataset))
    = ["x0"; "y0"] /\
  Forall (fun v => length (da_values v) = 3%nat)
    (data_vars (result_of (run 0 "exp" Scenario.double_lab) Scenario.no_dataset)) /\
  (forall i s, _settable_pars Scenario.double_lab !! i = Some s ->
     ds_getitem (result_of (run 0 "exp" Scenario.double_lab) Scenario.no_dataset)
       (fmt_idx "x" i)
     = inr (mkDataArray (fmt_idx "x" i)
              (map (fun r => nth i r NaN) [[Num 0]; [Num 1]; [Num 2]])
              (<["unit" := s_unit s]>
                 (<["long_name" := s_label s]> (<["name" := s_name s]> ∅))))).
Proof.
  apply (run_returns_built_shape 0 "exp" Scenario.double_lab
           (mkArray2 1 [[Num 0]; [Num 1]; [Num 2]])
           (result_of (run 0 "exp" Scenario.double_lab) Scenario.no_dataset)
           (world_of (run 0 "exp" Scenario.double_lab) Scenario.double_lab)).
  - reflexivity.
  - vm_compute. reflexivity.
Defined.

(** * Looking up experiments on disk *)

Section StringOrder.

Lemma ascii_compare_refl (a : ascii) : Ascii.compare a a = Eq.
Proof. unfold Ascii.compare. apply N.compare_refl. Qed.

Lemma str_leb_refl (s : string) : String.leb s s = true.
Proof.
  unfold String.leb. induction s as [|a s IH]; [reflexivity|].
  cbn [String.compare]. now rewrite ascii_compare_refl.
Qed.

Lemma str_compare_trans_le (a : string) :
  forall b c, String.compare a b <> Gt -> String.compare b c <> Gt ->
              String.compare a c <> Gt.
Proof.
  induction a as [|x a IH]; intros [|y b] [|z c] Hab Hbc; cbn [String.compare] in *;
    try congruence.
  unfold Ascii.compare in *.
  destruct (N.compare_spec (N_of_ascii x) (N_of_ascii y)) as [Exy|Lxy|Gxy];
    destruct (N.compare_spec (N_of_ascii y) (N_of_ascii z)) as [Eyz|Lyz|Gyz];
    try congruence.
  - rewrite Exy, Eyz, N.compare_refl. now apply (IH b c).
  - assert (Hxz : (N_of_ascii x < N_of_ascii z)%N) by lia.
    apply N.compare_lt_iff in Hxz. rewrite Hxz. congruence.
  - assert (Hxz : (N_of_ascii x < N_of_ascii z)%N) by lia.
    apply N.compare_lt_iff in Hxz. rewrite Hxz. congruence.
  - assert (Hxz : (N_of_ascii x < N_of_ascii z)%N) by lia.
    apply N.compare_lt_iff in Hxz. rewrite Hxz. congruence.
Qed.

Lemma str_leb_trans (a b c : string) :
  String.leb a b = true -> String.leb b c = true -> String.leb a c = true.
Proof.
  unfold String.leb. intros Hab Hbc.
  pose proof (str_compare_trans_le a b c) as H.
  destruct (String.compare a b); destruct (String.compare b c);
    destruct (String.compare a c); try reflexivity; try discriminate;
    exfalso; apply H; congruence.
Qed.

Lemma insert_desc_elem (x y : string) (l : list string) :
  y ∈ insert_desc x l <-> y = x \/ y ∈ l.
Proof.
  induction l as [|h l IH]; cbn [insert_desc].
  - rewrite list_elem_of_singleton. split; [now left|].
    intros [->|H]; [reflexivity | inversion H].
  - destruct (String.leb h x); [apply elem_of_cons|].
    rewrite !elem_of_cons, IH. tauto.
Qed.

Lemma sort_desc_elem (y : string) (l : list string) : y ∈ sort_desc l <-> y ∈ l.
Proof.
  unfold sort_desc. induction l as [|x l IH]; cbn [fold_right]; [reflexivity|].
  rewrite insert_desc_elem, IH, elem_of_cons. tauto.
Qed.

Lemma insert_desc_sorted (x : string) (l : list string) :
  sorted_desc l -> sorted_desc (insert_desc x l).
Proof.
  induction l as [|h l IH]; cbn [insert_desc sorted_desc]; [now repeat constructor|].
  intros [Hall Hs]. destruct (String.leb h x) eqn:Hhx; cbn [sorted_desc].
  - split; [|now split]. constructor; [exact Hhx|].
    eapply Forall_impl; [exact Hall|]. intros z Hz. exact (str_leb_trans _ _ _ Hz Hhx).
  - split; [|now apply IH]. apply Forall_forall. intros z Hz.
    apply insert_desc_elem in Hz as [->|Hz].
    + destruct (String.leb_total x h) as [H|H]; [exact H | congruence].
    + rewrite Forall_forall in Hall. now apply Hall.
Qed.

Lemma sort_desc_sorted (l : list string) : sorted_desc (sort_desc l).
Proof.
  unfold sort_desc. induction l as [|x l IH]; cbn [fold_right]; [exact I|].
  now apply insert_desc_sorted.
Qed.

(** The first element of the sorted list is the greatest of the list. *)
Lemma sort_desc_head (l : list string) (h : string) (t : list string) :
  sort_desc l = h :: t -> h ∈ l /\ forall y, y ∈ l -> String.leb y h = true.
Proof.
  intros E. split.
  - apply sort_desc_elem. rewrite E. left.
  - intros y Hy. apply sort_desc_elem in Hy. rewrite E in Hy.
    pose proof (sort_desc_sorted l) as Hs. rewrite E in Hs.
    destruct Hs as [Hall _].
    apply elem_of_cons in Hy as [->|Hy]; [apply str_leb_refl|].
    rewrite Forall_forall in Hall. now apply Hall.
Qed.

Lemma sort_desc_nil (l : list string) : sort_desc l = [] -> l = [].
Proof.
  intros E. destruct l as [|x l]; [reflexivity|].
  assert (H : x ∈ sort_desc (x :: l)) by (apply sort_desc_elem; left).
  rewrite E in H. inversion H.
Qed.

End StringOrder.

Section Filters.

Lemma filter_raising_inr {A} (f : A -> pyerr + bool) (l kept : list A) :
  filter_raising f l = inr kept ->
  forall x, x ∈ kept <-> x ∈ l /\ f x = inr true.
Proof.
  revert kept. induction l as [|a l IH]; intros kept H x; cbn [filter_raising] in H.
  - injection H as <-. split; [intros H; inversion H | intros [H _]; inversion H].
  - destruct (f a) as [e|keep] eqn:Ea; [discriminate|].
    destruct (filter_raising f l) as [e|kept'] eqn:El; [discriminate|].
    injection H as <-. specialize (IH kept' eq_refl x).
    destruct keep; rewrite ?elem_of_cons, IH; split.
    + intros [->|[? ?]]; auto.
    + intros [[->|?] ?]; auto.
    + intros [? ?]; auto.
    + intros [[->|?] ?]; [congruence | auto].
Qed.

Lemma filter_raising_total {A} (f : A -> pyerr + bool) (l kept : list A) :
  filter_raising f l = inr kept -> forall x, x ∈ l -> exists b, f x = inr b.
Proof.
  revert kept. induction l as [|a l IH]; intros kept H x Hx; cbn [filter_raising] in H.
  - inversion Hx.
  - destruct (f a) as [e|keep] eqn:Ea; [discriminate|].
    destruct (filter_raising f l) as [e|kept'] eqn:El; [discriminate|].
    apply elem_of_cons in Hx as [->|Hx]; [now exists keep | exact (IH _ eq_refl _ Hx)].
Qed.

Lemma filter_raising_raises {A} (f : A -> pyerr + bool) (l : list A) (x : A) (e0 : pyerr) :
  (forall y e, f y = inl e -> e = e0) ->
  x ∈ l -> f x = inl e0 -> filter_raising f l = inl e0.
Proof.
  intros Honly Hx Hfx. induction l as [|a l IH]; [inversion Hx|].
  cbn [filter_raising]. destruct (f a) as [e|keep] eqn:Ea.
  - now rewrite (Honly _ _ Ea).
  - apply elem_of_cons in Hx as [->|Hx]; [congruence|]. now rewrite (IH Hx).
Qed.

Lemma is_expdir_raises (contains x : string) (e : pyerr) :
  is_expdir contains x = inl e -> e = IndexError.
Proof.
  unfold is_expdir. destruct (str_isdigit _); [|discriminate].
  destruct (String.get 6 x); [discriminate | congruence].
Qed.

Lemma str_take_short (n : nat) (s : string) :
  (String.length s <= n)%nat -> str_take n s = s.
Proof.
  revert n. induction s as [|c s IH]; intros [|n] H; cbn in *; try reflexivity; [lia|].
  rewrite IH by lia. reflexivity.
Qed.

Lemma get_short (n : nat) (s : string) :
  (String.length s <= n)%nat -> String.get n s = None.
Proof.
  revert n. induction s as [|c s IH]; intros [|n] H; cbn in *; try reflexivity; [lia|].
  apply IH. lia.
Qed.

End Filters.

Section Lookup.

Context {dev : Type}.
Implicit Types (w : world dev) (fs : filesystem).

Lemma latest_in_days_found fs (datadir contains : string) (daydirs : list string)
    (tuid : string) :
  sorted_desc daydirs ->
  latest_in_days fs datadir contains daydirs = inr tuid ->
  exists (dd x : string) (entries : list string),
    dd ∈ daydirs /\
    listdir fs (path_join datadir [dd]) = inr entries /\
    x ∈ entries /\
    is_expdir contains x = inr true /\
    tuid = dd +:+ "-" +:+ str_take 17 x /\
    (forall y, y ∈ entries -> is_expdir contains y = inr true -> String.leb y x = true) /\
    (forall dd', dd' ∈ daydirs -> String.leb dd' dd = false ->
       exists entries',
         listdir fs (path_join datadir [dd']) = inr entries' /\
         forall y, y ∈ entries' -> is_expdir contains y = inr false).
Proof.
  induction daydirs as [|d rest IH]; intros Hsorted H; cbn [latest_in_days] in H;
    [discriminate|].
  destruct Hsorted as [Hall Hs]. specialize (IH Hs).
  destruct (listdir fs (path_join datadir [d])) as [e|entries] eqn:El; [discriminate|].
  destruct (filter_raising (is_expdir contains) entries) as [e|expdirs] eqn:Ef;
    [discriminate|].
  destruct (sort_desc expdirs) as [|x t] eqn:Es.
  - destruct (IH H) as (dd & x & entries' & Hdd & Hl & Hx & Hxe & -> & Hmax & Hnewer).
    exists dd, x, entries'. split; [now right|]. repeat (split; [assumption|]).
    split; [reflexivity|]. split; [exact Hmax|].
    intros dd' Hdd' Hgt. apply elem_of_cons in Hdd' as [->|Hdd']; [|now apply Hnewer].
    exists entries. split; [exact El|]. intros y Hy.
    destruct (filter_raising_total _ _ _ Ef y Hy) as [[] Hb]; [|exact Hb].
    apply sort_desc_nil in Es. subst expdirs.
    assert (Hin : y ∈ []) by (apply (filter_raising_inr _ _ _ Ef); now split).
    inversion Hin.
  - injection H as <-. apply sort_desc_head in Es as [Hx Hmax].
    apply (filter_raising_inr _ _ _ Ef) in Hx as [Hx Hxe].
    exists d, x, entries. split; [left|]. repeat (split; [assumption|]).
    split; [reflexivity|]. split.
    + intros y Hy Hye. apply Hmax, (filter_raising_inr _ _ _ Ef). now split.
    + intros dd' Hdd' Hgt. apply elem_of_cons in Hdd' as [->|Hdd'].
      * now rewrite str_leb_refl in Hgt.
      * rewrite Forall_forall in Hall. specialize (Hall _ Hdd'). unfold geq in Hall.
        congruence.
Qed.

Lemma str_prefix_spec (p s : string) :
  str_prefix p s = true <-> exists post, s = p +:+ post.
Proof.
  revert s. induction p as [|a p IH]; intros s; cbn [str_prefix].
  - split; [intros _; now exists s | reflexivity].
  - destruct s as [|b s]; [split; [discriminate | intros (post & E); discriminate E]|].
    rewrite andb_true_iff, IH. split.
    + intros [Hab (post & ->)]. apply Ascii.eqb_eq in Hab as ->. now exists post.
    + intros (post & E). rewrite append_cons in E. injection E as -> ->.
      split; [apply Ascii.eqb_refl | now exists post].
Qed.

Lemma str_contains_spec (sub s : string) :
  str_contains sub s = true <-> exists pre post, s = pre +:+ sub +:+ post.
Proof.
  split.
  - induction s as [|c s IH]; cbn [str_contains]; rewrite orb_true_iff.
    + intros [H|H]; [|discriminate]. apply str_prefix_spec in H as (post & ->).
      now exists "", post.
    + intros [H|H].
      * apply str_prefix_spec in H as (post & ->). now exists "", post.
      * destruct (IH H) as (pre & post & ->). now exists (String c pre), post.
  - intros (pre & post & ->). induction pre as [|c pre IH].
    + rewrite append_nil.
      assert (Hp : str_prefix sub (sub +:+ post) = true)
        by (apply str_prefix_spec; now exists post).
      destruct (sub +:+ post); cbn [str_contains]; now rewrite Hp.
    + rewrite append_cons. cbn [str_contains]. rewrite IH. apply orb_true_r.
Qed.

Lemma is_daydir_spec (d : string) :
  is_daydir d = true <-> String.length d = 8%nat /\ all_chars is_digit d = true.
Proof.
  unfold is_daydir, str_isdigit. rewrite !andb_true_iff, Nat.eqb_eq. split.
  - intros [[_ Hd] Hl]. now split.
  - intros [Hl Hd]. repeat split; try assumption. now destruct d.
Qed.

Lemma is_expdir_spec (contains x : string) :
  is_expdir contains x = inr true <->
  all_chars is_digit (str_take 6 x) = true /\
  String.get 6 x = Some "-"%char /\
  (12 < String.length x)%nat /\
  exists pre post, x = pre +:+ contains +:+ post.
Proof.
  unfold is_expdir, str_isdigit. split.
  - destruct (negb _ && _)%bool eqn:Hd; [|discriminate].
    apply andb_true_iff in Hd as [_ Hd].
    destruct (String.get 6 x) as [c|]; [|discriminate]. intros [= H].
    apply andb_true_iff in H as [H Hc]. apply andb_true_iff in H as [Hdash Hlen].
    apply Ascii.eqb_eq in Hdash as ->. apply Nat.ltb_lt in Hlen.
    apply str_contains_spec in Hc. auto.
  - intros (Hd & Hg & Hlen & Hc). rewrite Hd, Hg.
    assert (str_take 6 x <> "") by (destruct x; [discriminate Hg | discriminate]).
    destruct (String.eqb_spec (str_take 6 x) ""); [contradiction|]. cbn [negb andb].
    apply str_contains_spec in Hc. apply Nat.ltb_lt in Hlen.
    now rewrite Hc, Hlen.
Qed.

(** X20. When [get_latest_tuid] returns an identifier, it is [dd-x[:17]]
    for an entry [dd] of the data directory in force that consists of
    eight digits, and an entry [x] of [dd] that passes the filter on
    experiment folders: its first six characters are digits, its seventh
    is a dash, it has more than twelve characters and it contains the text
    asked for. [x] is the greatest such entry of [dd] in string order, and
    every later such day directory has been listed and holds no such
    entry. *)
Theorem get_latest_tuid_found fs (contains : string) w (tuid : string) w' :
  let day_entry := fun d : string =>
    String.length d = 8%nat /\ all_chars is_digit d = true in
  let exp_entry := fun x : string =>
    all_chars is_digit (str_take 6 x) = true /\
    String.get 6 x = Some "-"%char /\
    (12 < String.length x)%nat /\
    exists pre post, x = pre +:+ contains +:+ post in
  get_latest_tuid fs contains w = Done (inr tuid) w' ->
  exists (days : list string) (dd x : string) (entries : list string),
    listdir fs (datadir_of w) = inr days /\
    dd ∈ days /\ day_entry dd /\
    listdir fs (path_join (datadir_of w) [dd]) = inr entries /\
    x ∈ entries /\
    exp_entry x /\
    tuid = dd +:+ "-" +:+ str_take 17 x /\
    (forall y, y ∈ entries -> exp_entry y -> String.leb y x = true) /\
    (forall dd', dd' ∈ days -> day_entry dd' -> String.leb dd' dd = false ->
       exists entries',
         listdir fs (path_join (datadir_of w) [dd']) = inr entries' /\
         forall y, y ∈ entries' -> ~ exp_entry y).
Proof.
  intros day_entry exp_entry H. unfold get_latest_tuid in H.
  apply bind_Done in H as (datadir & w1 & Hdd & H).
  assert (datadir = datadir_of w) as ->.
  { unfold get_datadir, bind, gets, datadir_of in *.
    destruct (_datadir w); now injection Hdd as <- _. }
  injection H as H _. unfold latest_tuid_in in H.
  destruct (listdir fs (datadir_of w)) as [e|days] eqn:El; [discriminate|].
  assert (H' : latest_in_days fs (datadir_of w) contains
                 (sort_desc (List.filter is_daydir days)) = inr tuid).
  { destruct (sort_desc (List.filter is_daydir days)); [discriminate | exact H]. }
  apply latest_in_days_found in H' as (dd & x & entries & Hd & Hl & Hx & Hxe & -> & Hmax & Hnew);
    [|apply sort_desc_sorted].
  apply sort_desc_elem, list_elem_of_In, filter_In in Hd as [Hd Hday].
  exists days, dd, x, entries. split; [reflexivity|].
  split; [now apply list_elem_of_In|].
  split; [now apply is_daydir_spec|].
  split; [exact Hl|]. split; [exact Hx|].
  split; [now apply is_expdir_spec|].
  split; [reflexivity|]. split.
  - intros y Hy Hye. apply Hmax; [exact Hy | now apply is_expdir_spec].
  - intros dd' Hdd' Hday' Hgt.
    destruct (Hnew dd') as (entries' & Hl' & Hnone); [|exact Hgt|].
    + apply sort_desc_elem, list_elem_of_In, filter_In.
      split; [now apply list_elem_of_In | now apply is_daydir_spec].
    + exists entries'. split; [exact Hl'|]. intros y Hy Hye.
      apply is_expdir_spec in Hye. rewrite (Hnone y Hy) in Hye. discriminate.
Qed.

(** X21. [get_latest_tuid] raises [IndexError] when the latest day
    directory holds an entry of at most six characters that are all
    digits: the filter reads the seventh character of every entry whose
    first six characters are digits. *)
Theorem get_latest_tuid_short_entry fs (contains : string) w
    (days entries : list string) (dd x : string) :
  listdir fs (datadir_of w) = inr days ->
  dd ∈ days -> is_daydir dd = true ->
  (forall dd', dd' ∈ days -> is_daydir dd' = true -> String.leb dd' dd = true) ->
  listdir fs (path_join (datadir_of w) [dd]) = inr entries ->
  x ∈ entries ->
  str_isdigit x = true ->
  (String.length x <= 6)%nat ->
  exists w', get_latest_tuid fs contains w = Done (inl (LPy IndexError)) w'.
Proof.
  intros Hl Hdd Hday Hnewest Hle Hx Hdig Hlen.
  unfold get_latest_tuid, bind.
  assert (Hgd : exists w', get_datadir w = Done (datadir_of w) w').
  { unfold get_datadir, bind, gets, datadir_of. destruct (_datadir w); eexists; reflexivity. }
  destruct Hgd as (w' & ->). exists w'. cbn [ret]. f_equal.
  unfold latest_tuid_in. rewrite Hl.
  destruct (sort_desc (List.filter is_daydir days)) as [|h t] eqn:Es.
  - apply sort_desc_nil in Es.
    assert (Hin : In dd (List.filter is_daydir days))
      by (apply filter_In; split; [now apply list_elem_of_In | exact Hday]).
    rewrite Es in Hin. inversion Hin.
  - apply sort_desc_head in Es as [Hh Hmax].
    assert (h = dd) as ->.
    { apply list_elem_of_In, filter_In in Hh as [Hh Hhd].
      apply String.leb_antisym.
      - apply Hnewest; [now apply list_elem_of_In | exact Hhd].
      - apply Hmax, list_elem_of_In, filter_In. split; [now apply list_elem_of_In | exact Hday]. }
    cbn [latest_in_days]. rewrite Hle.
    rewrite (filter_raising_raises (is_expdir contains) entries x IndexError);
      [reflexivity | apply is_expdir_raises | exact Hx |].
    unfold is_expdir. rewrite str_take_short by exact Hlen.
    now rewrite Hdig, get_short by exact Hlen.
Qed.

Lemma str_prefix_app (s t : string) : str_prefix s (s +:+ t) = true.
Proof.
  induction s as [|c s IH]; [reflexivity|].
  rewrite append_cons. cbn [str_prefix]. now rewrite Ascii.eqb_refl.
Qed.

Lemma str_contains_app (s t : string) : str_contains s (s +:+ t) = true.
Proof. destruct (s +:+ t) eqn:E; cbn [str_contains]; rewrite <- E, str_prefix_app; reflexivity. Qed.

Lemma path_join2_app (p b suffix : string) :
  b <> "" -> path_join2 p (b +:+ suffix) = path_join2 p b +:+ suffix.
Proof.
  intros Hb. destruct b as [|c b]; [congruence|].
  unfold path_join2. rewrite append_cons. cbn [str_starts_with].
  destruct (Ascii.eqb c "/"); [now rewrite append_cons|].
  destruct (_ || _)%bool; now rewrite <- ?append_cons, ?str_app_assoc.
Qed.

(** X22. [load_dataset] finds the folder that [create_exp_folder] makes:
    when the day directory of an identifier holds the folder created for
    the identifier and a name, and no other entry that contains the text
    of the identifier after the date, [load_dataset] loads the file
    [dataset.hdf5] of the experiment folder of that identifier and name,
    the file a run writes. *)
Theorem load_dataset_reads_created_folder fs (tuid name : string) w
    (entries : list string) :
  str_drop 9 tuid <> "" ->
  listdir fs (path_join (datadir_of w) [str_take 8 tuid]) = inr entries ->
  str_drop 9 tuid +:+ (if String.eqb name "" then "" else "-" +:+ name) ∈ entries ->
  (forall y, y ∈ entries -> str_contains (str_drop 9 tuid) y = true ->
     y = str_drop 9 tuid +:+ (if String.eqb name "" then "" else "-" +:+ name)) ->
  exists w',
    load_dataset fs tuid None w =
    Done (load fs (path_join (exp_folder_of (datadir_of w) tuid name) ["dataset.hdf5"])) w'.
Proof.
  intros Hne Hl Hin Honly.
  set (fname := str_drop 9 tuid +:+ _) in *.
  unfold load_dataset, bind.
  assert (Hgd : exists w', get_datadir w = Done (datadir_of w) w').
  { unfold get_datadir, bind, gets, datadir_of. destruct (_datadir w); eexists; reflexivity. }
  destruct Hgd as (w' & ->). exists w'. cbn [ret]. f_equal.
  unfold load_dataset_in. cbn zeta. rewrite Hl.
  destruct (List.filter (str_contains (str_drop 9 tuid)) entries) as [|h t] eqn:Ef.
  - assert (Hf : In fname (List.filter (str_contains (str_drop 9 tuid)) entries)).
    { apply filter_In. split; [now apply list_elem_of_In | apply str_contains_app]. }
    rewrite Ef in Hf. inversion Hf.
  - assert (Hh : In h (List.filter (str_contains (str_drop 9 tuid)) entries))
      by (rewrite Ef; now left).
    apply filter_In in Hh as [Hh Hc]. apply list_elem_of_In in Hh.
    rewrite (Honly h Hh Hc). f_equal.
    unfold exp_folder_of, path_join. cbn [fold_left]. f_equal.
    subst fname. destruct (String.eqb name ""); cbn [negb].
    + now rewrite append_nil_r.
    + now apply path_join2_app.
Qed.

End Lookup.

Lemma get_latest_tuid_found_witness :
  let day_entry := fun d : string =>
    String.length d = 8%nat /\ all_chars is_digit d = true in
  let exp_entry := fun x : string =>
    all_chars is_digit (str_take 6 x) = true /\
    String.get 6 x = Some "-"%char /\
    (12 < String.length x)%nat /\
    exists pre post, x = pre +:+ "exp" +:+ post in
  exists (days : list string) (dd x : string) (entries : list string),
    listdir OnDisk.two_days (datadir_of (Example.lab tt Example.uuid_a)) = inr days /\
    dd ∈ days /\ day_entry dd /\
    listdir OnDisk.two_days
      (path_join (datadir_of (Example.lab tt Example.uuid_a)) [dd]) = inr entries /\
    x ∈ entries /\
    exp_entry x /\
    "20200430-170837-000-315f36" = dd +:+ "-" +:+ str_take 17 x /\
    (forall y, y ∈ entries -> exp_entry y -> String.leb y x = true) /\
    (forall dd', dd' ∈ days -> day_entry dd' -> String.leb dd' dd = false ->
       exists entries',
         listdir OnDisk.two_days
           (path_join (datadir_of (Example.lab tt Example.uuid_a)) [dd']) = inr entries' /\
         forall y, y ∈ entries' -> ~ exp_entry y).
Proof.
  apply (get_latest_tuid_found OnDisk.two_days "exp" (Example.lab tt Example.uuid_a)
           "20200430-170837-000-315f36"
           (set_datadir_field (Some "/data") (Example.lab tt Example.uuid_a))).
  reflexivity.
Defined.

Lemma get_latest_tuid_short_entry_witness :
  exists w',
    get_latest_tuid OnDisk.short_entry "" (Example.lab tt Example.uuid_a) =
    Done (inl (LPy IndexError)) w'.
Proof.
  apply (get_latest_tuid_short_entry OnDisk.short_entry "" (Example.lab tt Example.uuid_a)
           ["20200430"; "20200501"] ["170837-000-315f36-exp"; "2020"] "20200501" "2020").
  - reflexivity.
  - right. left.
  - reflexivity.
  - intros dd' Hdd' _.
    apply elem_of_cons in Hdd' as [->|Hdd']; [reflexivity|].
    apply elem_of_cons in Hdd' as [->|Hdd']; [reflexivity | inversion Hdd'].
  - reflexivity.
  - right. left.
  - reflexivity.
  - vm_compute. lia.
Defined.

Lemma load_dataset_reads_created_folder_witness :
  exists w',
    load_dataset OnDisk.two_days "20200430-170837-000-315f36" None
      (Example.lab tt Example.uuid_a) =
    Done (load OnDisk.two_days
            (path_join
               (exp_folder_of (datadir_of (Example.lab tt Example.uuid_a))
                  "20200430-170837-000-315f36" "exp") ["dataset.hdf5"])) w'.
Proof.
  apply (load_dataset_reads_created_folder OnDisk.two_days
           "20200430-170837-000-315f36" "exp" (Example.lab tt Example.uuid_a)
           ["170837-000-315f36-exp"; "notes"]).
  - discriminate.
  - reflexivity.
  - left.
  - intros y Hy Hc.
    apply elem_of_cons in Hy as [->|Hy]; [reflexivity|].
    apply elem_of_cons in Hy as [->|Hy]; [discriminate Hc | inversion Hy].
Defined.
